(** * Matcha-TTS: the mel-to-waveform glue and the RMVPE pitch extractor

    A shallow embedding of
      - [NSFHead] and [to_waveform]            (matcha/cli.py)
      - [RMVPEOnnxPitchExtractor]              (matcha/data/text_mel_datamodule.py)
    and the properties of the design document that concern them.

    Numeric model.  Floating-point array elements and Python floats are
    idealised as real numbers: arithmetic is exact and a cast between two
    floating dtypes keeps the value, with two exceptions that decide
    results.  The product [output * 32767] of [NSFHead.forward] is rounded
    to the dtype of the array before the cast to int16 drops its
    fraction, and [pow(2, f0_up_key / 12)] overflows where Python's does.
    Integer dtypes hold unbounded integers, narrowed where the source
    narrows them.  The ONNX
    sessions, the loader of model files and numpy's random generator are
    the environment; every call into onnxruntime is recorded in the
    world's event log.  Calls to [print] are left out. *)

From Stdlib Require Import List ZArith String DecimalString Bool Arith Lia.
From Stdlib Require Import Reals Lra.
Import ListNotations.

Local Open Scope string_scope.
Local Open Scope list_scope.
Local Open Scope nat_scope.

(* ================================================================== *)
(** ** Python: exceptions and the state-and-error monad                *)
(* ================================================================== *)

(** The exceptions the two files can meet.  [RuntimeError msg] is
    [RuntimeError(msg)] and [RuntimeErrorFrom msg e] is
    [RuntimeError(msg, e)], the exception [e] kept as second argument.
    [OrtError] stands for whatever onnxruntime raises (a missing model
    file, a rejected feed). *)
Inductive exn : Type :=
| RuntimeError (msg : string)
| RuntimeErrorFrom (msg : string) (arg : exn)
| ValueError (msg : string)
| IndexError (msg : string)
| AttributeError (msg : string)
| TypeError (msg : string)
| AxisError (msg : string)
| OverflowError (msg : string)
| OrtError (code : nat).

Definition result (A : Type) : Type := (exn + A)%type.

(** A computation over a state [S]: it always hands back the state it
    reached, with either the exception that stopped it or its value. *)
Definition M (S A : Type) : Type := S -> S * result A.

Definition ret {S A} (a : A) : M S A := fun s => (s, inr a).

Definition raise {S A} (e : exn) : M S A := fun s => (s, inl e).

Definition bind {S A B} (c : M S A) (k : A -> M S B) : M S B :=
  fun s =>
    match c s with
    | (s', inl e) => (s', inl e)
    | (s', inr a) => k a s'
    end.

Definition lift {S A} (r : result A) : M S A := fun s => (s, r).

Definition gets {S A} (f : S -> A) : M S A := fun s => (s, inr (f s)).

Definition modify {S} (f : S -> S) : M S unit := fun s => (f s, inr tt).

(** [try: body except Exception as e: handler e] *)
Definition try_except {S A} (body : M S A) (handler : exn -> M S A) : M S A :=
  fun s =>
    match body s with
    | (s', inl e) => handler e s'
    | (s', inr a) => (s', inr a)
    end.

Declare Scope py_scope.
Delimit Scope py_scope with py.
Notation "x <- c ;; k" := (bind c (fun x => k))
  (at level 61, c at next level, right associativity) : py_scope.
Notation "c ;;; k" := (bind c (fun _ => k))
  (at level 61, right associativity) : py_scope.

(** [str(n)] for a non-negative integer and [str(t)] for a shape tuple. *)
Definition show_nat (n : nat) : string :=
  NilEmpty.string_of_uint (Nat.to_uint n).

Fixpoint show_items (l : list nat) : string :=
  match l with
  | [] => ""
  | [n] => show_nat n
  | n :: tl => show_nat n ++ ", " ++ show_items tl
  end.

Definition show_shape (l : list nat) : string :=
  match l with
  | [n] => "(" ++ show_nat n ++ ",)"
  | _ => "(" ++ show_items l ++ ")"
  end.

(** Python's resolution of a slice bound [k] against a sequence of
    length [len]: negative bounds count from the end, and every bound is
    clamped into [0, len]. *)
Definition slice_bound (len : nat) (k : Z) : nat :=
  if (k <? 0)%Z
  then Z.to_nat (Z.max 0 (Z.of_nat len + k))
  else Nat.min (Z.to_nat k) len.

(** [l[k:]] *)
Definition slice_from {A} (l : list A) (k : Z) : list A :=
  skipn (slice_bound (List.length l) k) l.

(** A [dict] in insertion order: assigning to a present key replaces its
    value in place, a new key goes to the end. *)
Fixpoint dict_set {V} (d : list (string * V)) (k : string) (v : V)
  : list (string * V) :=
  match d with
  | [] => [(k, v)]
  | (k', v') :: tl =>
      if String.eqb k' k then (k', v) :: tl else (k', v') :: dict_set tl k v
  end.

(** The dict display [{k1: v1, ..., kn: vn}]. *)
Definition dict_literal {V} (items : list (string * V)) : list (string * V) :=
  fold_left (fun d kv => dict_set d (fst kv) (snd kv)) items [].

(* ================================================================== *)
(** ** numpy: arrays in row-major order                                *)
(* ================================================================== *)

Record ndarray (A : Type) : Type := mk_ndarray {
  shape : list nat;
  data : list A
}.
Arguments mk_ndarray {A} shape data.
Arguments shape {A} _.
Arguments data {A} _.

Definition numel (s : list nat) : nat := fold_right Nat.mul 1 s.

(** The storage holds exactly the elements the shape announces. *)
Definition well_formed {A} (a : ndarray A) : Prop :=
  List.length (data a) = numel (shape a).

Definition ndim {A} (a : ndarray A) : nat := List.length (shape a).

Definition map_data {A B} (f : A -> B) (a : ndarray A) : ndarray B :=
  mk_ndarray (shape a) (map f (data a)).

(** [a[i, j, k]] on a three-dimensional array; [None] is an IndexError. *)
Definition get3 {A} (a : ndarray A) (i j k : nat) : option A :=
  match shape a with
  | [n0; n1; n2] =>
      if (i <? n0) && (j <? n1) && (k <? n2)
      then nth_error (data a) (i * (n1 * n2) + j * n2 + k)
      else None
  | _ => None
  end.

(** [a[0, j, :]], one frame of a batch-of-one array, element by element. *)
Definition frame {A} (a : ndarray A) (j : nat) : list (option A) :=
  match shape a with
  | [_; _; n2] => map (get3 a 0 j) (seq 0 n2)
  | _ => []
  end.

(** [a[0, :, k]], one column of a batch-of-one array. *)
Definition column {A} (a : ndarray A) (k : nat) : list (option A) :=
  match shape a with
  | [_; n1; _] => map (fun j => get3 a 0 j k) (seq 0 n1)
  | _ => []
  end.

(** [np.repeat(a, r, axis=2)].  On a three-dimensional array the last
    axis is contiguous, so every stored element is written [r] times in
    place.  With fewer than three axes numpy raises AxisError; with more,
    axis 2 is an inner axis and whole runs are repeated. *)
Fixpoint repeat_runs {A} (r run : nat) (fuel : nat) (l : list A) : list A :=
  match fuel with
  | O => []
  | S fuel' =>
      match l with
      | [] => []
      | _ => List.concat (repeat (firstn run l) r)
               ++ repeat_runs r run fuel' (skipn run l)
      end
  end.

Definition np_repeat_axis2 {A} (r : nat) (a : ndarray A) : result (ndarray A) :=
  match shape a with
  | n0 :: n1 :: n2 :: rest =>
      let run := numel rest in
      inr (mk_ndarray (n0 :: n1 :: (r * n2) :: rest)
             (match rest with
              | [] => flat_map (fun x => repeat x r) (data a)
              | _ => repeat_runs r run (List.length (data a)) (data a)
              end))
  | _ => inl (AxisError ("axis 2 is out of bounds for array of dimension "
                           ++ show_nat (ndim a)))
  end.

Definition opt_list {A} (o : option A) : list A :=
  match o with Some x => [x] | None => [] end.

(** [a.transpose(0, 2, 1)]: element [(i, j, k)] of the result is element
    [(i, k, j)] of [a].  The permutation names three axes, any other
    dimension is a ValueError. *)
Definition np_transpose_021 {A} (a : ndarray A) : result (ndarray A) :=
  match shape a with
  | [n0; n1; n2] =>
      inr (mk_ndarray [n0; n2; n1]
             (flat_map (fun i =>
                flat_map (fun j =>
                  flat_map (fun k =>
                    opt_list (nth_error (data a) (i * (n1 * n2) + k * n2 + j)))
                    (seq 0 n1))
                  (seq 0 n2))
                (seq 0 n0)))
  | _ => inl (ValueError "axes don't match array")
  end.

(** [a.squeeze()]: the axes of length one disappear. *)
Definition np_squeeze {A} (a : ndarray A) : ndarray A :=
  mk_ndarray (filter (fun n => negb (n =? 1)) (shape a)) (data a).

(** [np.expand_dims(a, axis=0)] *)
Definition np_expand_dims0 {A} (a : ndarray A) : ndarray A :=
  mk_ndarray (1 :: shape a) (data a).

(** [a.reshape(1, len(a))].  [len(a)] is the first axis, a TypeError on a
    zero-dimensional array; the new shape must hold as many elements. *)
Definition np_reshape_row {A} (a : ndarray A) : result (ndarray A) :=
  match shape a with
  | [] => inl (TypeError "len() of unsized object")
  | n :: _ =>
      if numel (shape a) =? n
      then inr (mk_ndarray [1; n] (data a))
      else inl (ValueError ("cannot reshape array of size "
                              ++ show_nat (numel (shape a)) ++ " into shape "
                              ++ show_shape [1; n]))
  end.

(** [np.full(n, v)] *)
Definition np_full {A} (n : nat) (v : A) : ndarray A :=
  mk_ndarray [n] (repeat v n).

(** [a[k:]] along the first axis of a one-dimensional array. *)
Definition np_slice_from {A} (a : ndarray A) (k : Z) : ndarray A :=
  let d := slice_from (data a) k in mk_ndarray [List.length d] d.

(** [a.shape[i]] *)
Definition shape_at (s : list nat) (i : nat) : result nat :=
  match nth_error s i with
  | Some n => inr n
  | None => inl (IndexError "tuple index out of range")
  end.

(** [l[i]] on a Python list. *)
Definition list_item {A} (l : list A) (i : nat) : result A :=
  match nth_error l i with
  | Some x => inr x
  | None => inl (IndexError "list index out of range")
  end.

(** [a[0:]]: the whole array again, but a zero-dimensional array cannot be
    sliced. *)
Definition np_slice_all {A} (a : ndarray A) : result (ndarray A) :=
  match shape a with
  | [] => inl (IndexError "too many indices for array: array is 0-dimensional, but 1 were indexed")
  | _ => inr a
  end.

(* ================================================================== *)
(** ** Scalars: casts and rounding                                     *)
(* ================================================================== *)

(** The cast of a float to an integer type drops the fraction (toward
    zero). *)
Definition trunc (x : R) : Z :=
  if Rle_dec 0 x then Int_part x else (- Int_part (- x))%Z.

(** Two's complement narrowing to a signed integer of [bits] bits. *)
Definition wrap_signed (bits : Z) (z : Z) : Z :=
  ((z + 2 ^ (bits - 1)) mod 2 ^ bits - 2 ^ (bits - 1))%Z.

(** [np.rint]: the nearest integer, a tie goes to the even neighbour; the
    result is still a float. *)
Definition round_half_even (x : R) : Z :=
  let f := Int_part x in
  let d := (x - IZR f)%R in
  if Rlt_dec d (1 / 2) then f
  else if Rlt_dec (1 / 2) d then (f + 1)%Z
  else if Z.even f then f else (f + 1)%Z.

Definition np_rint (x : R) : R := IZR (round_half_even x).

(** An array with its dtype.  Only the four dtypes of the two files
    occur. *)
Inductive tensor : Type :=
| Float32 (a : ndarray R)
| Float64 (a : ndarray R)
| Int64 (a : ndarray Z)
| Int16 (a : ndarray Z).

Definition tensor_shape (t : tensor) : list nat :=
  match t with
  | Float32 a | Float64 a => shape a
  | Int64 a | Int16 a => shape a
  end.

(** [t.astype(np.float32)], as a float32 array. *)
Definition astype_float32 (t : tensor) : ndarray R :=
  match t with
  | Float32 a | Float64 a => a
  | Int64 a | Int16 a => map_data IZR a
  end.

(** [t.astype(np.int64)], as an int64 array. *)
Definition astype_int64 (t : tensor) : ndarray Z :=
  match t with
  | Float32 a | Float64 a => map_data (fun x => wrap_signed 64 (trunc x)) a
  | Int64 a | Int16 a => a
  end.

(** [t.astype(np.int16)], as an int16 array.  Out of the int16 range the
    C cast behind it is left undefined by the language; the narrowing
    written here is what the usual targets compute for a value within
    the range of a 32-bit integer: the conversion to 32 bits, of which
    the low 16 are kept. *)
Definition astype_int16 (t : tensor) : ndarray Z :=
  match t with
  | Float32 a | Float64 a => map_data (fun x => wrap_signed 16 (trunc x)) a
  | Int64 a => map_data (wrap_signed 16) a
  | Int16 a => a
  end.

(** The binade of a real: the exponent [e] with 2^e <= |x| < 2^(e+1). *)
Definition binade (x : R) : Z := Int_part (ln (Rabs x) / ln 2).

(** The nearest number of a binary floating-point format with [prec]
    bits of significand and least normal exponent [emin]; a tie goes to
    the even significand.  Below 2^emin the spacing is that of the
    subnormal numbers.  The reals have no infinity: a value beyond the
    largest number of the format is rounded as if the exponent had no
    upper limit. *)
Definition round_float (prec emin : Z) (x : R) : R :=
  let e := Z.max (binade x) emin in
  let ulp := powerRZ 2 (e - (prec - 1)) in
  (IZR (round_half_even (x / ulp)) * ulp)%R.

Definition round_float32 (x : R) : R := round_float 24 (-126) x.

Definition round_float64 (x : R) : R := round_float 53 (-1022) x.

(** [t * c] for a Python integer [c] that fits in sixteen bits: the dtype
    of the array is kept, so the product of a floating array is rounded
    to the array's format. *)
Definition mul_int (t : tensor) (c : Z) : tensor :=
  match t with
  | Float32 a => Float32 (map_data (fun x => round_float32 (x * IZR c)) a)
  | Float64 a => Float64 (map_data (fun x => round_float64 (x * IZR c)) a)
  | Int64 a => Int64 (map_data (fun z => wrap_signed 64 (z * c)) a)
  | Int16 a => Int16 (map_data (fun z => wrap_signed 16 (z * c)) a)
  end.

(* ================================================================== *)
(** ** The environment: onnxruntime and numpy's random generator       *)
(* ================================================================== *)

(** A loaded model.  [session_run outputs feeds] is
    [session.run(outputs, feeds)]; which arrays come back, or which
    exception, is the model's business. *)
Record InferenceSession : Type := {
  session_path : string;
  input_names : list string;
  session_run :
    option (list string) -> list (string * tensor) -> result (list tensor)
}.

Record environment : Type := {
  (** [onnxruntime.InferenceSession(path, providers=providers)] *)
  ort_load : string -> list string -> result InferenceSession;
  (** the stream of standard normal variates behind [np.random.randn] *)
  randn_sample : nat -> R
}.

Inductive event : Type :=
| OrtLoad (path : string) (providers : list string)
| OrtRun (path : string) (outputs : option (list string))
         (feeds : list (string * tensor)).

(** What a call can change besides its own locals: the variates already
    drawn, the calls made into onnxruntime, and the arrays that callers
    share with callees. *)
Record world : Type := {
  rng : nat;
  events : list event;
  heap : list (ndarray R)
}.

Definition log_event (e : event) (w : world) : world :=
  {| rng := rng w; events := events w ++ [e]; heap := heap w |}.

Definition InferenceSession_new (env : environment) (path : string)
  (providers : list string) : M world InferenceSession :=
  fun w => (log_event (OrtLoad path providers) w, ort_load env path providers).

Definition run (s : InferenceSession) (outputs : option (list string))
  (feeds : list (string * tensor)) : M world (list tensor) :=
  fun w => (log_event (OrtRun (session_path s) outputs feeds) w,
            session_run s outputs feeds).

(** [self.model.get_inputs()[i].name] *)
Definition input_name (s : InferenceSession) (i : nat) : result string :=
  list_item (input_names s) i.

(** [np.random.randn(d0, d1, ...)] *)
Definition np_random_randn (env : environment) (dims : list nat)
  : M world (ndarray R) :=
  fun w =>
    let n := numel dims in
    ({| rng := rng w + n; events := events w; heap := heap w |},
     inr (mk_ndarray dims (map (randn_sample env) (seq (rng w) n)))).

(** Arrays that a caller shares with a callee live in the heap and are
    named by their index; an unknown index reads as an empty array. *)
Definition heap_read (r : nat) : M world (ndarray R) :=
  gets (fun w => nth r (heap w) (mk_ndarray [0] [])).

Fixpoint list_update {A} (l : list A) (i : nat) (x : A) : list A :=
  match l, i with
  | [], _ => []
  | _ :: tl, O => x :: tl
  | y :: tl, S i' => y :: list_update tl i' x
  end.

Definition heap_write (r : nat) (a : ndarray R) : M world unit :=
  modify (fun w => {| rng := rng w; events := events w;
                      heap := list_update (heap w) r a |}).

Definition heap_alloc (a : ndarray R) : M world nat :=
  fun w => ({| rng := rng w; events := events w; heap := heap w ++ [a] |},
            inr (List.length (heap w))).

(* ================================================================== *)
(** ** The coarse pitch code                                           *)
(* ================================================================== *)

(** The block that turns a pitch track in Hz into the integer codes of
    the vocoder stands twice in the sources, in [to_waveform] and in
    [RMVPEOnnxPitchExtractor.extract], with the same operations on the
    same values; [lo] and [hi] are [f0_mel_min] and [f0_mel_max]. *)

(** [1127 * np.log(1 + pitch / 700)] *)
Definition mel_scale (pitch : R) : R := (1127 * ln (1 + pitch / 700))%R.

(** [f0_mel[f0_mel > 0] = (f0_mel[f0_mel > 0] - lo) * 254 / (hi - lo) + 1] *)
Definition rescale_voiced (lo hi : R) (x : R) : R :=
  if Rlt_dec 0 x then ((x - lo) * 254 / (hi - lo) + 1)%R else x.

(** [f0_mel[f0_mel <= 1] = 1] *)
Definition clip_low (x : R) : R := if Rle_dec x 1 then 1%R else x.

(** [f0_mel[f0_mel > 255] = 255] *)
Definition clip_high (x : R) : R := if Rlt_dec 255 x then 255%R else x.

Definition coarse_pitch (lo hi : R) (pitch : ndarray R) : ndarray Z :=
  let f0_mel := map_data mel_scale pitch in
  let f0_mel := map_data (rescale_voiced lo hi) f0_mel in
  let f0_mel := map_data clip_low f0_mel in
  let f0_mel := map_data clip_high f0_mel in
  astype_int64 (Float64 (map_data np_rint f0_mel)).

(** [1127 * np.log(1 + f0 / 700)] for the two bounds, 50 and 1100 Hz. *)
Definition mel_bound (f0 : Z) : R := (1127 * ln (1 + IZR f0 / 700))%R.

(* ================================================================== *)
(** ** cli.py: NSFHead                                                 *)
(* ================================================================== *)

Module NSFHead.

Record t : Type := {
  model : InferenceSession;
  sampling_rate : Z
}.

(** [__init__(self, model_path, sr=40000, device="cpu")] *)
Definition init (env : environment) (model_path : string) (sr : Z)
  (device : option string) : M world t :=
  (providers <-
     match device with
     | None => ret ["CPUExecutionProvider"]
     | Some d =>
         if String.eqb d "cpu" then ret ["CPUExecutionProvider"]
         else raise (RuntimeError "Unsportted Device")
     end ;;
   model <- InferenceSession_new env model_path providers ;;
   ret {| model := model; sampling_rate := sr |})%py.

Definition forward (self : t)
  (hubert hubert_length pitch pitchf ds rnd : tensor)
  : M world (ndarray Z) :=
  (n0 <- lift (input_name (model self) 0) ;;
   n1 <- lift (input_name (model self) 1) ;;
   n2 <- lift (input_name (model self) 2) ;;
   n3 <- lift (input_name (model self) 3) ;;
   n4 <- lift (input_name (model self) 4) ;;
   n5 <- lift (input_name (model self) 5) ;;
   let onnx_input :=
     dict_literal [(n0, hubert); (n1, hubert_length); (n2, pitch);
                   (n3, pitchf); (n4, ds); (n5, rnd)] in
   outputs <- run (model self) None onnx_input ;;
   output <- lift (list_item outputs 0) ;;
   ret (astype_int16 (mul_int output 32767)))%py.

Definition inference (env : environment) (self : t)
  (hubertIn pitchfIn pitchIIn : tensor) : M world (ndarray Z) :=
  (let sid := 0%Z in
   let hubert := hubertIn in
   hubert_length <- lift (shape_at (tensor_shape hubert) 1) ;;
   let pitch := pitchIIn in
   let pitchf := pitchfIn in
   let pitch := Int64 (astype_int64 pitch) in
   let pitchf := Float32 (astype_float32 pitchf) in
   let ds := Int64 (mk_ndarray [1] [sid]) in
   rnd <- np_random_randn env [1; 192; hubert_length] ;;
   let rnd := Float32 rnd in
   let hubert_length := Int64 (mk_ndarray [1] [Z.of_nat hubert_length]) in
   out_wav <- forward self hubert hubert_length pitch pitchf ds rnd ;;
   let out_wav := np_squeeze out_wav in
   lift (np_slice_all out_wav))%py.

End NSFHead.

(* ================================================================== *)
(** ** cli.py: to_waveform                                             *)
(* ================================================================== *)

Definition model_path : string := "/content/drive/MyDrive/Models/kiki.onnx".

(** The steps from the mel tensor to the hidden features the vocoder is
    fed: [np.repeat(hubert, 2, axis=2).transpose(0, 2, 1)
    .astype(np.float32)]. *)
Definition align (hubert : ndarray R) : result (ndarray R) :=
  match np_repeat_axis2 2 hubert with
  | inl e => inl e
  | inr repeated =>
      match np_transpose_021 repeated with
      | inl e => inl e
      | inr transposed => inr (astype_float32 (Float32 transposed))
      end
  end.

(** [np.full(hubert_length, 220)] and [pitchf * 2 ** (f0_up_key / 12)] *)
Definition constant_pitch (hubert_length : nat) (f0_up_key : Z) : ndarray R :=
  let pitchf := np_full hubert_length 220%Z in
  map_data (fun p => (IZR p * Rpower 2 (IZR f0_up_key / 12))%R) pitchf.

(** [mel] is the tensor the acoustic model returns, on the CPU and
    detached, so that [mel.numpy()] is its array. *)
Definition to_waveform (env : environment) (mel : ndarray R)
  : M world (ndarray Z) :=
  (let f0_min := 50%Z in
   let f0_max := 1100%Z in
   let f0_mel_min := mel_bound f0_min in
   let f0_mel_max := mel_bound f0_max in
   let hubert := mel in
   hubert <- lift (align hubert) ;;
   hubert_length <- lift (shape_at (shape hubert) 1) ;;
   let f0_up_key := 0%Z in
   let pitchf := constant_pitch hubert_length f0_up_key in
   let pitch := pitchf in
   let pitch := coarse_pitch f0_mel_min f0_mel_max pitch in
   pitchf <- lift (np_reshape_row pitchf) ;;
   let pitchf := astype_float32 (Float64 pitchf) in
   pitch <- lift (np_reshape_row pitch) ;;
   let sr := 40000%Z in
   nsfhead <- NSFHead.init env model_path sr (Some "cpu") ;;
   audio <- NSFHead.inference env nsfhead
              (Float32 hubert) (Float32 pitchf) (Int64 pitch) ;;
   ret (np_squeeze audio))%py.

(* ================================================================== *)
(** ** numpy: assignment to a slice                                    *)
(* ================================================================== *)

(** [a[:k]] along the first axis. *)
Definition np_slice_to {A} (a : ndarray A) (k : Z) : result (ndarray A) :=
  match shape a with
  | [] => inl (IndexError "too many indices for array: array is 0-dimensional, but 1 were indexed")
  | n0 :: rest =>
      let m := slice_bound n0 k in
      inr (mk_ndarray (m :: rest) (firstn (m * numel rest) (data a)))
  end.

(** When the value assigned has more axes than the target, numpy drops
    its leading axes of length one, as far as needed. *)
Fixpoint strip_leading_ones (target : nat) (s : list nat) : list nat :=
  match s with
  | 1 :: tl =>
      if target <? List.length s then strip_leading_ones target tl else s
  | _ => s
  end.

(** [dst[k:] = src] for a one-dimensional [dst].  The value must have the
    length of the slice or be broadcast from a single element; anything
    else is a ValueError and [dst] is not touched. *)
Definition setitem_from (dst : ndarray R) (k : Z) (src : ndarray R)
  : result (ndarray R) :=
  let len := List.length (data dst) in
  let start := slice_bound len k in
  let width := len - start in
  let keep := firstn start (data dst) in
  let mismatch :=
    ValueError ("could not broadcast input array from shape "
                  ++ show_shape (shape src) ++ " into shape "
                  ++ show_shape [width]) in
  match strip_leading_ones 1 (shape src) with
  | [] => inr (mk_ndarray (shape dst) (keep ++ repeat (hd 0%R (data src)) width))
  | [m] =>
      if m =? width then inr (mk_ndarray (shape dst) (keep ++ data src))
      else if m =? 1
           then inr (mk_ndarray (shape dst)
                       (keep ++ repeat (hd 0%R (data src)) width))
           else inl mismatch
  | _ => inl mismatch
  end.

(* ================================================================== *)
(** ** text_mel_datamodule.py: RMVPEOnnxPitchExtractor                 *)
(* ================================================================== *)

Module RMVPEOnnxPitchExtractor.

Record t : Type := {
  file : string;
  f0_min : Z;
  f0_max : Z;
  f0_mel_min : R;
  f0_mel_max : R;
  threshold : R;
  model : InferenceSession
}.

(** [self.__class__.__name__] *)
Definition class_name : string := "RMVPEOnnxPitchExtractor".

(** [__init__(self, file, threshold=0.03)] *)
Definition init (env : environment) (file : string) (threshold : R)
  : M world t :=
  (model <- InferenceSession_new env file ["CPUExecutionProvider"] ;;
   ret {| file := file;
          f0_min := 50;
          f0_max := 1100;
          f0_mel_min := mel_bound 50;
          f0_mel_max := mel_bound 1100;
          threshold := threshold;
          model := model |})%py.

(** What a caller may pass for [audio]: a numpy array, a torch tensor,
    or an object that is neither (named by its type). *)
Inductive audio_arg : Type :=
| AudioArray (a : ndarray R)
| AudioTensor (a : ndarray R)
| AudioObject (type_name : string).

(** What a caller may pass for [pitchf].  A numpy array is passed by
    reference and written in place; a torch tensor is copied by
    [pitchf.cpu().numpy().astype(np.float32)]. *)
Inductive pitchf_arg : Type :=
| PitchArray (ref : nat)
| PitchTensor (a : ndarray R)
| PitchObject (type_name : string).

Definition no_cpu {A} (type_name : string) : M world A :=
  raise (AttributeError
           ("'" ++ type_name ++ "' object has no attribute 'cpu'")).

(** [f"Exception in {self.__class__.__name__}: {name}.ndim is not 1
    (size: {a.ndim}, shape: {a.shape})"] *)
Definition ndim_message (name : string) (a : ndarray R) : string :=
  "Exception in " ++ class_name ++ ": " ++ name
    ++ ".ndim is not 1 (size: " ++ show_nat (ndim a)
    ++ ", shape: " ++ show_shape (shape a) ++ ")".

(** [int(0.01 * sr)] *)
Definition lead_in (sr : Z) : Z := trunc (0.01 * IZR sr).

(** The largest magnitude an integer may have for [f0_up_key / 12] to be
    a float: the quotient must round below 2^1024. *)
Definition max_shift : Z := (12 * (2 ^ 1024 - 2 ^ 970))%Z.

(** [f0 = output[0].squeeze()] and [f0 *= pow(2, f0_up_key / 12)].  The
    factor is computed first, and Python raises OverflowError where a
    float would be infinite: in the division for an integer too large,
    and in the power from [f0_up_key / 12 = 1024] on.  A power too small
    for the floats is zero.  The product is a float, which numpy refuses
    to store back into an integer array. *)
Definition scaled_f0 (output0 : tensor) (f0_up_key : Z)
  : result (ndarray R) :=
  if (max_shift <=? Z.abs f0_up_key)%Z
  then inl (OverflowError "integer division result too large for a float")
  else if (12288 <=? f0_up_key)%Z
  then inl (OverflowError "(34, 'Numerical result out of range')")
  else
    match output0 with
    | Float32 a | Float64 a =>
        inr (map_data (fun x => (x * Rpower 2 (IZR f0_up_key / 12))%R)
               (np_squeeze a))
    | Int64 _ | Int16 _ =>
        inl (TypeError "Cannot cast ufunc 'multiply' output from dtype('float64') to dtype('int64') with casting rule 'same_kind'")
    end.

(** The body of the [try] block; on success the pair
    [(f0_coarse, pitchf)], the second a reference to the array that was
    written. *)
Definition extract_body (self : t) (audio : audio_arg) (pitchf : pitchf_arg)
  (f0_up_key sr window : Z) (silence_front : R)
  : M world (ndarray Z * nat) :=
  (audio <- match audio with
            | AudioArray a => ret a
            | AudioTensor a => ret a
            | AudioObject ty => no_cpu ty
            end ;;
   pitchf <- match pitchf with
             | PitchArray r => ret r
             | PitchTensor a => heap_alloc a
             | PitchObject ty => no_cpu ty
             end ;;
   (if ndim audio =? 1 then ret tt
    else raise (RuntimeError (ndim_message "audio" audio))) ;;;
   buffer <- heap_read pitchf ;;
   (if ndim buffer =? 1 then ret tt
    else raise (RuntimeError (ndim_message "pitchf" buffer))) ;;;
   let targetFrameLength := lead_in sr in
   let audio := np_slice_from audio targetFrameLength in
   let audio := np_expand_dims0 audio in
   output <- run (model self) (Some ["f0"; "uv"])
               (dict_literal
                  [("waveform", Float32 (astype_float32 (Float32 audio)));
                   ("threshold",
                    Float32 (mk_ndarray [1] [threshold self]))]) ;;
   output0 <- lift (list_item output 0) ;;
   f0 <- lift (scaled_f0 output0 f0_up_key) ;;
   buffer <- heap_read pitchf ;;
   buffer_len <- lift (shape_at (shape buffer) 0) ;;
   head <- lift (np_slice_to f0 (Z.of_nat buffer_len)) ;;
   f0_len <- lift (shape_at (shape f0) 0) ;;
   written <- lift (setitem_from buffer (- Z.of_nat f0_len) head) ;;
   heap_write pitchf written ;;;
   let f0_coarse :=
     coarse_pitch (f0_mel_min self) (f0_mel_max self) written in
   ret (f0_coarse, pitchf))%py.

(** [extract(self, audio, pitchf, f0_up_key, sr, window,
    silence_front=0)] *)
Definition extract (self : t) (audio : audio_arg) (pitchf : pitchf_arg)
  (f0_up_key sr window : Z) (silence_front : R)
  : M world (ndarray Z * nat) :=
  try_except
    (extract_body self audio pitchf f0_up_key sr window silence_front)
    (fun e => raise (RuntimeErrorFrom ("Exception in " ++ class_name) e)).

End RMVPEOnnxPitchExtractor.

(* ================================================================== *)
(** ** Sessions used to run the models on concrete inputs              *)
(* ================================================================== *)

(** The input names of the exported vocoder graph. *)
Definition vocoder_inputs : list string :=
  ["phone"; "phone_lengths"; "pitch"; "pitchf"; "ds"; "rnd"].

(** A vocoder that answers every request with the waveform [wave]. *)
Definition fixed_vocoder (wave : ndarray R) : InferenceSession :=
  {| session_path := model_path;
     input_names := vocoder_inputs;
     session_run := fun _ _ => inr [Float32 wave] |}.

(** A pitch model that answers every request with the track [f0] and an
    empty voicing flag. *)
Definition fixed_pitch_model (f0 : ndarray R) : InferenceSession :=
  {| session_path := "rmvpe.onnx";
     input_names := ["waveform"; "threshold"];
     session_run := fun _ _ => inr [Float32 f0; Float32 (mk_ndarray [1; 0] [])] |}.

(** A pitch model that rejects every request. *)
Definition failing_pitch_model : InferenceSession :=
  {| session_path := "rmvpe.onnx";
     input_names := ["waveform"; "threshold"];
     session_run := fun _ _ => inl (OrtError 6) |}.

(** An environment in which every model file loads as [s]. *)
Definition env_with (s : InferenceSession) : environment :=
  {| ort_load := fun _ _ => inr s;
     randn_sample := fun _ => 0%R |}.

Definition empty_world : world := {| rng := 0; events := []; heap := [] |}.


(** A vocoder head around the fixed vocoder, and inputs of no frames. *)
Definition fixed_head (wave : ndarray R) : NSFHead.t :=
  {| NSFHead.model := fixed_vocoder wave; NSFHead.sampling_rate := 40000 |}.

Definition no_features : tensor := Float32 (mk_ndarray [1; 0; 2] []).
Definition no_pitchf : tensor := Float32 (mk_ndarray [1; 0] []).
Definition no_pitch : tensor := Int64 (mk_ndarray [1; 0] []).
Definition one_int (z : Z) : tensor := Int64 (mk_ndarray [1] [z]).
Definition no_noise : tensor := Float32 (mk_ndarray [1; 192; 0] []).

(** The conversion to PCM the way the design document words it:
    [round(output * 32767)], then the cast to sixteen bits. *)
Definition pcm_rounded_spec (wave : ndarray R) : ndarray Z :=
  map_data (fun x => wrap_signed 16 (round_half_even (x * 32767))) wave.

Definition unit_peaks : ndarray R := mk_ndarray [1; 1; 2] [1%R; (-1)%R].

Definition quarter_sample : ndarray R := mk_ndarray [1; 1; 1] [0.25%R].

(** Three float32 samples: a quarter; one and a half, beyond full scale;
    and 2^-15 + 2^-30, whose product with 32767 is 1 - 2^-30, which
    float32 rounds to 1. *)
Definition pcm_samples : ndarray R :=
  mk_ndarray [1; 1; 3]
    [0.25%R; 1.5%R; (1 / 32768 + 1 / 1073741824)%R].

(** A mel tensor of depth 2 over 2 time steps: rows [1, 2] and [3, 4]. *)
Definition small_mel : ndarray R :=
  mk_ndarray [1; 2; 2] [1%R; 2%R; 3%R; 4%R].

(** A pitch track without a voiced frame. *)
Definition unvoiced_track : ndarray R := mk_ndarray [3] [0%R; 0%R; 0%R].

(* ================================================================== *)
(** ** Names for what [inference] hands to the session                 *)
(* ================================================================== *)

(** The world after the noise for [frames] frames was drawn. *)
Definition after_noise (frames : nat) (w : world) : world :=
  {| rng := rng w + numel [1; 192; frames];
     events := events w;
     heap := heap w |}.

(** The noise tensor drawn in world [w]. *)
Definition noise_of (env : environment) (frames : nat) (w : world) : tensor :=
  Float32 (mk_ndarray [1; 192; frames]
             (map (randn_sample env) (seq (rng w) (numel [1; 192; frames])))).

(** The six arrays in the order and under the names [forward] gives
    them. *)
Definition vocoder_feeds (env : environment) (w : world)
  (n0 n1 n2 n3 n4 n5 : string) (frames : nat)
  (hubert pitchf pitch : tensor) : list (string * tensor) :=
  dict_literal
    [(n0, hubert);
     (n1, Int64 (mk_ndarray [1] [Z.of_nat frames]));
     (n2, Int64 (astype_int64 pitch));
     (n3, Float32 (astype_float32 pitchf));
     (n4, Int64 (mk_ndarray [1] [0%Z]));
     (n5, noise_of env frames w)].

(** What [inference] makes of the session's answer. *)
Definition waveform_of (answer : result (list tensor)) : result (ndarray Z) :=
  match answer with
  | inl e => inl e
  | inr outputs =>
      match list_item outputs 0 with
      | inl e => inl e
      | inr output =>
          np_slice_all (np_squeeze (astype_int16 (mul_int output 32767)))
      end
  end.


(** What [to_waveform] hands to [inference] for [frames] hidden frames. *)
Definition pitchf_row (frames : nat) : ndarray R :=
  mk_ndarray [1; frames] (data (constant_pitch frames 0)).

Definition pitch_row (frames : nat) : ndarray Z :=
  mk_ndarray [1; frames]
    (data (coarse_pitch (mel_bound 50) (mel_bound 1100)
             (constant_pitch frames 0))).

(** [to_waveform]'s last step on the answer of the session. *)
Definition squeezed (r : result (ndarray Z)) : result (ndarray Z) :=
  match r with
  | inl e => inl e
  | inr audio => inr (np_squeeze audio)
  end.

(** Hidden features of two frames against pitch arrays of three. *)
Definition two_frames : tensor := Float32 (mk_ndarray [1; 2; 1] [0%R; 0%R]).
Definition three_pitches : tensor :=
  Float32 (mk_ndarray [1; 3] [220%R; 220%R; 220%R]).
Definition three_codes : tensor := Int64 (mk_ndarray [1; 3] [60%Z; 60%Z; 60%Z]).

Definition no_samples : ndarray R := mk_ndarray [1; 1; 0] [].


(** The calls into onnxruntime that belong to the vocoder: the load of
    its model file and a run that asks for all outputs.  The pitch
    extractor loads another file and asks for the outputs f0 and uv. *)
Definition vocoder_event (e : event) : Prop :=
  match e with
  | OrtLoad path providers =>
      path = model_path /\ providers = ["CPUExecutionProvider"]
  | OrtRun _ outputs _ => outputs = None
  end.

(* ================================================================== *)
(** ** Names for the steps of [extract]                                *)
(* ================================================================== *)

(** The array behind [audio] after the conversion at the top of
    [extract]; an object without [cpu] has none. *)
Definition as_array (audio : RMVPEOnnxPitchExtractor.audio_arg)
  : option (ndarray R) :=
  match audio with
  | RMVPEOnnxPitchExtractor.AudioArray a => Some a
  | RMVPEOnnxPitchExtractor.AudioTensor a => Some a
  | RMVPEOnnxPitchExtractor.AudioObject _ => None
  end.

(** The reference [pitchf] is bound to after the conversion, and the
    world in which it is: a torch tensor is copied to a new array. *)
Definition resolve_pitchf (pitchf : RMVPEOnnxPitchExtractor.pitchf_arg)
  (w : world) : option (nat * world) :=
  match pitchf with
  | RMVPEOnnxPitchExtractor.PitchArray r => Some (r, w)
  | RMVPEOnnxPitchExtractor.PitchTensor a =>
      Some (List.length (heap w),
            {| rng := rng w; events := events w; heap := heap w ++ [a] |})
  | RMVPEOnnxPitchExtractor.PitchObject _ => None
  end.

Definition empty_array : ndarray R := mk_ndarray [0] [].

(** The request [extract] sends to the pitch model for the
    one-dimensional audio [a]. *)
Definition pitch_feeds (self : RMVPEOnnxPitchExtractor.t) (a : ndarray R)
  (sr : Z) : list (string * tensor) :=
  dict_literal
    [("waveform",
      Float32 (np_expand_dims0
                 (np_slice_from a (RMVPEOnnxPitchExtractor.lead_in sr))));
     ("threshold",
      Float32 (mk_ndarray [1] [RMVPEOnnxPitchExtractor.threshold self]))].

(** From the answer of the pitch model to the new content of the buffer:
    the steps of [extract] between the call and the quantisation. *)
Definition tail_write (f0_up_key : Z) (buffer : ndarray R)
  (answer : result (list tensor)) : result (ndarray R) :=
  match answer with
  | inl e => inl e
  | inr output =>
      match list_item output 0 with
      | inl e => inl e
      | inr output0 =>
          match RMVPEOnnxPitchExtractor.scaled_f0 output0 f0_up_key with
          | inl e => inl e
          | inr f0 =>
              match shape_at (shape buffer) 0 with
              | inl e => inl e
              | inr buffer_len =>
                  match np_slice_to f0 (Z.of_nat buffer_len) with
                  | inl e => inl e
                  | inr head =>
                      match shape_at (shape f0) 0 with
                      | inl e => inl e
                      | inr f0_len =>
                          setitem_from buffer (- Z.of_nat f0_len) head
                      end
                  end
              end
          end
      end
  end.

(** An extractor around a given session. *)
Definition extractor_with (s : InferenceSession) : RMVPEOnnxPitchExtractor.t :=
  {| RMVPEOnnxPitchExtractor.file := session_path s;
     RMVPEOnnxPitchExtractor.f0_min := 50;
     RMVPEOnnxPitchExtractor.f0_max := 1100;
     RMVPEOnnxPitchExtractor.f0_mel_min := mel_bound 50;
     RMVPEOnnxPitchExtractor.f0_mel_max := mel_bound 1100;
     RMVPEOnnxPitchExtractor.threshold := 0.03%R;
     RMVPEOnnxPitchExtractor.model := s |}.

(** The exception [extract] raises for the exception [e] of its body. *)
Definition wrapped (e : exn) : exn :=
  RuntimeErrorFrom ("Exception in " ++ RMVPEOnnxPitchExtractor.class_name) e.

(** Audio of four samples, a buffer of three frames in the heap, and a
    pitch model that finds two frames. *)
Definition four_samples : ndarray R :=
  mk_ndarray [4] [0%R; 0%R; 0%R; 0%R].

Definition three_frame_buffer : ndarray R :=
  mk_ndarray [3] [1%R; 2%R; 3%R].

(** Audio whose samples tell their position. *)
Definition count_samples : ndarray R :=
  mk_ndarray [4] [1%R; 2%R; 3%R; 4%R].

(** A track on the two bounds of the code: 50 Hz and 1100 Hz. *)
Definition edge_track : ndarray R := mk_ndarray [2] [50%R; 1100%R].

Definition world_with_buffer : world :=
  {| rng := 0; events := []; heap := [three_frame_buffer] |}.

Definition two_frame_track : ndarray R := mk_ndarray [1; 2] [100%R; 200%R].

(** Audio with two axes, where [extract] wants one. *)
Definition stereo_samples : ndarray R :=
  mk_ndarray [2; 2] [0%R; 0%R; 0%R; 0%R].


(** A pitch model that finds four frames, more than the buffer of three
    holds, and one whose second frame is unvoiced. *)
Definition four_frame_track : ndarray R :=
  mk_ndarray [1; 4] [100%R; 200%R; 300%R; 400%R].


(** A mel array that lost its batch axis. *)
Definition flat_mel : ndarray R := mk_ndarray [2; 2] [1%R; 2%R; 3%R; 4%R].

(** A session that declares only five inputs. *)
Definition five_input_vocoder : InferenceSession :=
  {| session_path := model_path;
     input_names := ["phone"; "phone_lengths"; "pitch"; "pitchf"; "ds"];
     session_run := fun _ _ => inr [Float32 no_samples] |}.

(* ================================================================== *)
(** ** Python: assertions and missing keys                             *)
(* ================================================================== *)

(** What an [assert] carries: nothing, a message, or a number. *)
Inductive assertion_arg : Type :=
| NoMessage
| Message (s : string)
| Number (n : Z).

(** The exceptions of the code below: those above, a failed [assert],
    a key that a dict does not have ([None] is the key [None]), and a
    division by zero. *)
Inductive failure : Type :=
| Raised (e : exn)
| AssertionError (arg : assertion_arg)
| KeyError (key : option string)
| ZeroDivisionError (msg : string).

(** Computations that may fail that way. *)
Definition F (S A : Type) : Type := S -> S * (failure + A)%type.

Definition pure {S A} (a : A) : F S A := fun s => (s, inr a).

Definition fail {S A} (e : failure) : F S A := fun s => (s, inl e).

Definition and_then {S A B} (c : F S A) (k : A -> F S B) : F S B :=
  fun s =>
    match c s with
    | (s', inl e) => (s', inl e)
    | (s', inr a) => k a s'
    end.

(** [assert cond, arg] *)
Definition assert_ {S} (cond : bool) (arg : assertion_arg) : F S unit :=
  if cond then pure tt else fail (AssertionError arg).

(** A computation of the first kind, run where the second kind is
    expected. *)
Definition raised {S A} (c : M S A) : F S A :=
  fun s =>
    match c s with
    | (s', inl e) => (s', inl (Raised e))
    | (s', inr a) => (s', inr a)
    end.

Declare Scope pyf_scope.
Delimit Scope pyf_scope with pyf.
Notation "x <- c ;; k" := (and_then c (fun x => k))
  (at level 61, c at next level, right associativity) : pyf_scope.
Notation "c ;;; k" := (and_then c (fun _ => k))
  (at level 61, right associativity) : pyf_scope.

(** [str(z)] for an integer. *)
Definition show_int (z : Z) : string :=
  if (z <? 0)%Z then "-" ++ show_nat (Z.to_nat (- z)) else show_nat (Z.to_nat z).

(** [d[k]] on a dict with string keys. *)
Fixpoint dict_get {V} (d : list (string * V)) (k : string) : failure + V :=
  match d with
  | [] => inl (KeyError (Some k))
  | (k', v) :: tl => if String.eqb k' k then inr v else dict_get tl k
  end.

(** [k in d] *)
Definition dict_has {V} (d : list (string * V)) (k : string) : bool :=
  existsb (fun kv => String.eqb (fst kv) k) d.

(** A Python float: a finite one is [m * 2 ^ e], which is all the
    comparisons with zero below need. *)
Inductive pyfloat : Type :=
| Finite (m e : Z)
| PosInf
| NegInf
| NaN.

(** [x >= 0] and [x > 0] *)
Definition float_ge_0 (x : pyfloat) : bool :=
  match x with
  | Finite m _ => (0 <=? m)%Z
  | PosInf => true
  | NegInf | NaN => false
  end.

Definition float_gt_0 (x : pyfloat) : bool :=
  match x with
  | Finite m _ => (0 <? m)%Z
  | PosInf => true
  | NegInf | NaN => false
  end.

(** The floats 0.85, 0.95 and 1.0. *)
Definition float_0_85 : pyfloat := Finite 7656119366529843 (-53).
Definition float_0_95 : pyfloat := Finite 4278419646001971 (-52).
Definition float_1_0 : pyfloat := Finite 1 0.

(* ================================================================== *)
(** ** cli.py: the command line and its validation                     *)
(* ================================================================== *)

(** The namespace [parser.parse_args()] returns. *)
Module Namespace.

Record t : Type := {
  model : string;
  checkpoint_path : option string;
  vocoder : option string;
  text : option string;
  file : option string;
  spk : option Z;
  temperature : pyfloat;
  speaking_rate : option pyfloat;
  steps : Z;
  cpu : bool;
  denoiser_strength : pyfloat;
  output_folder : string;
  batched : bool;
  batch_size : Z
}.

(** [args.vocoder = v], [args.speaking_rate = r], [args.spk = s],
    [args.model = m] *)
Definition set_vocoder (a : t) (v : option string) : t :=
  {| model := model a; checkpoint_path := checkpoint_path a; vocoder := v;
     text := text a; file := file a; spk := spk a;
     temperature := temperature a; speaking_rate := speaking_rate a;
     steps := steps a; cpu := cpu a;
     denoiser_strength := denoiser_strength a;
     output_folder := output_folder a; batched := batched a;
     batch_size := batch_size a |}.

Definition set_speaking_rate (a : t) (r : option pyfloat) : t :=
  {| model := model a; checkpoint_path := checkpoint_path a;
     vocoder := vocoder a; text := text a; file := file a; spk := spk a;
     temperature := temperature a; speaking_rate := r;
     steps := steps a; cpu := cpu a;
     denoiser_strength := denoiser_strength a;
     output_folder := output_folder a; batched := batched a;
     batch_size := batch_size a |}.

Definition set_spk (a : t) (s : option Z) : t :=
  {| model := model a; checkpoint_path := checkpoint_path a;
     vocoder := vocoder a; text := text a; file := file a; spk := s;
     temperature := temperature a; speaking_rate := speaking_rate a;
     steps := steps a; cpu := cpu a;
     denoiser_strength := denoiser_strength a;
     output_folder := output_folder a; batched := batched a;
     batch_size := batch_size a |}.

End Namespace.

(** The entries of [MULTISPEAKER_MODEL] and [SINGLESPEAKER_MODEL]; the
    single-speaker entry has no key "spk_range". *)
Record model_entry : Type := {
  entry_vocoder : string;
  entry_speaking_rate : pyfloat;
  entry_spk : option Z;
  entry_spk_range : option (Z * Z)
}.

Definition MULTISPEAKER_MODEL : list (string * model_entry) :=
  [("matcha_vctk",
    {| entry_vocoder := "hifigan_univ_v1";
       entry_speaking_rate := float_0_85;
       entry_spk := Some 0%Z;
       entry_spk_range := Some (0%Z, 107%Z) |})].

Definition SINGLESPEAKER_MODEL : list (string * model_entry) :=
  [("matcha_ljspeech",
    {| entry_vocoder := "hifigan_T2_v1";
       entry_speaking_rate := float_0_95;
       entry_spk := None;
       entry_spk_range := None |})].

(** [warnings.warn(msg, UserWarning)]: the state is the list of the
    warnings issued so far. *)
Definition warn (msg : string) : F (list string) unit :=
  fun ws => (ws ++ [msg], inr tt).

(** Truth value of an optional string: [None] and [""] are false. *)
Definition truthy (s : option string) : bool :=
  match s with
  | Some s' => negb (String.eqb s' "")
  | None => false
  end.

Definition option_Z_eqb (a b : option Z) : bool :=
  match a, b with
  | Some x, Some y => (x =? y)%Z
  | None, None => true
  | _, _ => false
  end.

(** [str(x)] for a speaker id that may be [None]. *)
Definition show_spk (s : option Z) : string :=
  match s with
  | Some z => show_int z
  | None => "None"
  end.

(** The part the two functions for pretrained models share: the vocoder
    and the speaking rate. *)
Definition suggest_vocoder (a : Namespace.t) (entry : model_entry)
  : F (list string) Namespace.t :=
  (a <- match Namespace.vocoder a with
        | Some v =>
            if negb (String.eqb v (entry_vocoder entry))
            then warn ("[-] Using " ++ Namespace.model a
                         ++ " model! I would suggest passing --vocoder "
                         ++ entry_vocoder entry) ;;;
                 pure a
            else pure a
        | None => pure (Namespace.set_vocoder a (Some (entry_vocoder entry)))
        end ;;
   match Namespace.speaking_rate a with
   | None =>
       pure (Namespace.set_speaking_rate a (Some (entry_speaking_rate entry)))
   | Some _ => pure a
   end)%pyf.

Definition validate_args_for_multispeaker_model (a : Namespace.t)
  : F (list string) Namespace.t :=
  (entry <- (fun ws => (ws, dict_get MULTISPEAKER_MODEL (Namespace.model a))) ;;
   a <- suggest_vocoder a entry ;;
   spk_range <- match entry_spk_range entry with
                | Some range => pure range
                | None => fail (KeyError (Some "spk_range"))
                end ;;
   match Namespace.spk a with
   | Some s =>
       assert_ ((fst spk_range <=? s)%Z && (s <=? snd spk_range)%Z)
         (Message ("Speaker ID must be between ("
                     ++ show_int (fst spk_range) ++ ", "
                     ++ show_int (snd spk_range) ++ ") for this model.")) ;;;
       pure a
   | None =>
       let available_spk_id := entry_spk entry in
       warn ("[!] Speaker ID not provided! Using speaker ID "
               ++ show_spk available_spk_id) ;;;
       pure (Namespace.set_spk a available_spk_id)
   end)%pyf.

Definition validate_args_for_single_speaker_model (a : Namespace.t)
  : F (list string) Namespace.t :=
  (entry <- (fun ws => (ws, dict_get SINGLESPEAKER_MODEL (Namespace.model a))) ;;
   a <- suggest_vocoder a entry ;;
   if negb (option_Z_eqb (Namespace.spk a) (entry_spk entry))
   then warn ("[-] Ignoring speaker id " ++ show_spk (Namespace.spk a)
                ++ " for " ++ Namespace.model a) ;;;
        pure (Namespace.set_spk a (entry_spk entry))
   else pure a)%pyf.

Definition validate_args (a : Namespace.t) : F (list string) Namespace.t :=
  (assert_ (truthy (Namespace.text a) || truthy (Namespace.file a))
     (Message "Either text or file must be provided Matcha-T(ea)TTS need sometext to whisk the waveforms.") ;;;
   assert_ (float_ge_0 (Namespace.temperature a))
     (Message "Sampling temperature cannot be negative") ;;;
   assert_ (0 <? Namespace.steps a)%Z
     (Message "Number of ODE steps must be greater than 0") ;;;
   a <- match Namespace.checkpoint_path a with
        | None =>
            a <- (if dict_has SINGLESPEAKER_MODEL (Namespace.model a)
                  then validate_args_for_single_speaker_model a
                  else pure a) ;;
            if dict_has MULTISPEAKER_MODEL (Namespace.model a)
            then validate_args_for_multispeaker_model a
            else pure a
        | Some _ =>
            (if match Namespace.vocoder a with
                | Some v => String.eqb v "hifigan_univ_v1"
                | None => false
                end
             then pure tt
             else warn "[-] Using custom model checkpoint! I would suggest passing --vocoder hifigan_univ_v1, unless the custom model is trained on LJ Speech.") ;;;
            match Namespace.speaking_rate a with
            | None => pure (Namespace.set_speaking_rate a (Some float_1_0))
            | Some _ => pure a
            end
        end ;;
   (if Namespace.batched a
    then assert_ (0 <? Namespace.batch_size a)%Z
           (Message "Batch size must be greater than 0")
    else pure tt) ;;;
   match Namespace.speaking_rate a with
   | None =>
       fail (Raised (TypeError "'>' not supported between instances of 'NoneType' and 'int'"))
   | Some r =>
       assert_ (float_gt_0 r)
         (Message "Speaking rate must be greater than 0") ;;;
       pure a
   end)%pyf.

(** The two parts of [validate_args] after its first three checks, each
    under a name: the branch on [args.checkpoint_path], which fills in
    what the command line left open, and the checks that follow it. *)
Definition model_defaults (a : Namespace.t) : F (list string) Namespace.t :=
  (match Namespace.checkpoint_path a with
   | None =>
       a <- (if dict_has SINGLESPEAKER_MODEL (Namespace.model a)
             then validate_args_for_single_speaker_model a
             else pure a) ;;
       if dict_has MULTISPEAKER_MODEL (Namespace.model a)
       then validate_args_for_multispeaker_model a
       else pure a
   | Some _ =>
       (if match Namespace.vocoder a with
           | Some v => String.eqb v "hifigan_univ_v1"
           | None => false
           end
        then pure tt
        else warn "[-] Using custom model checkpoint! I would suggest passing --vocoder hifigan_univ_v1, unless the custom model is trained on LJ Speech.") ;;;
       match Namespace.speaking_rate a with
       | None => pure (Namespace.set_speaking_rate a (Some float_1_0))
       | Some _ => pure a
       end
   end)%pyf.

Definition final_checks (a : Namespace.t) : F (list string) Namespace.t :=
  ((if Namespace.batched a
    then assert_ (0 <? Namespace.batch_size a)%Z
           (Message "Batch size must be greater than 0")
    else pure tt) ;;;
   match Namespace.speaking_rate a with
   | None =>
       fail (Raised (TypeError "'>' not supported between instances of 'NoneType' and 'int'"))
   | Some r =>
       assert_ (float_gt_0 r)
         (Message "Speaking rate must be greater than 0") ;;;
       pure a
   end)%pyf.

(** The command line [--model matcha_vctk --text Hello], everything else
    at its default, and what [validate_args] makes of it. *)
Definition vctk_args : Namespace.t :=
  {| Namespace.model := "matcha_vctk";
     Namespace.checkpoint_path := None;
     Namespace.vocoder := None;
     Namespace.text := Some "Hello";
     Namespace.file := None;
     Namespace.spk := None;
     Namespace.temperature := Finite 3003900951456121 (-52);
     Namespace.speaking_rate := None;
     Namespace.steps := 10;
     Namespace.cpu := false;
     Namespace.denoiser_strength := Finite 1152921504606847 (-62);
     Namespace.output_folder := ".";
     Namespace.batched := false;
     Namespace.batch_size := 32 |}.

Definition vctk_args_validated : Namespace.t :=
  Namespace.set_spk
    (Namespace.set_speaking_rate
       (Namespace.set_vocoder vctk_args (Some "hifigan_univ_v1"))
       (Some float_0_85))
    (Some 0%Z).

Definition vctk_warnings : list string :=
  ["[!] Speaker ID not provided! Using speaker ID 0"].

Definition MATCHA_URLS : list (string * string) :=
  [("matcha_ljspeech",
    "https://github.com/shivammehta25/Matcha-TTS-checkpoints/releases/download/v1.0/matcha_ljspeech.ckpt");
   ("matcha_vctk",
    "https://github.com/shivammehta25/Matcha-TTS-checkpoints/releases/download/v1.0/matcha_vctk.ckpt")].

Definition VOCODER_URLS : list (string * string) :=
  [("hifigan_T2_v1",
    "https://github.com/shivammehta25/Matcha-TTS-checkpoints/releases/download/v1.0/generator_v1");
   ("hifigan_univ_v1",
    "https://github.com/shivammehta25/Matcha-TTS-checkpoints/releases/download/v1.0/g_02500000")].

(** What [assert_required_models_available] takes from
    [matcha.utils.utils] and from pathlib: the user's data directory,
    [dir / name], and the check (with download) of one model file, which
    raises or not. *)
Record model_store : Type := {
  get_user_data_dir : string;
  path_join : string -> string -> string;
  download_check : string -> string -> option failure
}.

(** [assert_model_downloaded(path, url)]; the state lists the checks
    made so far. *)
Definition assert_model_downloaded (store : model_store) (path url : string)
  : F (list (string * string)) unit :=
  fun checks =>
    (checks ++ [(path, url)],
     match download_check store path url with
     | Some e => inl e
     | None => inr tt
     end).

(** [d[k]] for a key that may be [None]. *)
Definition dict_get_opt {V} (d : list (string * V)) (k : option string)
  : failure + V :=
  match k with
  | Some k' => dict_get d k'
  | None => inl (KeyError None)
  end.

(** [f"{x}"] for an optional string. *)
Definition show_opt (s : option string) : string :=
  match s with
  | Some s' => s'
  | None => "None"
  end.

(** A namespace made by argparse always has the attribute
    [checkpoint_path], so [hasattr] is true. *)
Definition assert_required_models_available (store : model_store)
  (a : Namespace.t)
  : F (list (string * string)) (list (string * option string)) :=
  (let save_dir := get_user_data_dir store in
   let hasattr_checkpoint_path := true in
   model_path <-
     (if negb hasattr_checkpoint_path
         && match Namespace.checkpoint_path a with
            | None => true
            | Some _ => false
            end
      then pure (Namespace.checkpoint_path a)
      else
        let model_path :=
          path_join store save_dir (Namespace.model a ++ ".ckpt")%string in
        url <- (fun s => (s, dict_get MATCHA_URLS (Namespace.model a))) ;;
        assert_model_downloaded store model_path url ;;;
        pure (Some model_path)) ;;
   let vocoder_path :=
     path_join store save_dir (show_opt (Namespace.vocoder a)) in
   url <- (fun s => (s, dict_get_opt VOCODER_URLS (Namespace.vocoder a))) ;;
   assert_model_downloaded store vocoder_path url ;;;
   pure (dict_literal [("matcha", model_path);
                       ("vocoder", Some vocoder_path)]))%pyf.

(** A store in which every file is there, and a command line with a
    custom checkpoint and no vocoder. *)
Definition full_store : model_store :=
  {| get_user_data_dir := "/data";
     path_join := fun dir name => (dir ++ "/" ++ name)%string;
     download_check := fun _ _ => None |}.

Definition custom_args : Namespace.t :=
  {| Namespace.model := "matcha_ljspeech";
     Namespace.checkpoint_path := Some "mine.ckpt";
     Namespace.vocoder := None;
     Namespace.text := Some "Hello";
     Namespace.file := None;
     Namespace.spk := None;
     Namespace.temperature := Finite 3003900951456121 (-52);
     Namespace.speaking_rate := None;
     Namespace.steps := 10;
     Namespace.cpu := false;
     Namespace.denoiser_strength := Finite 1152921504606847 (-62);
     Namespace.output_folder := ".";
     Namespace.batched := false;
     Namespace.batch_size := 32 |}.

Definition custom_warning : string :=
  "[-] Using custom model checkpoint! I would suggest passing --vocoder hifigan_univ_v1, unless the custom model is trained on LJ Speech.".

(* ================================================================== *)
(** ** text_mel_datamodule.py: SSLFeatureExtractor                     *)
(* ================================================================== *)

(** [a.mean(-1)] over the rows of the last axis, each of [c] elements. *)
Fixpoint row_means (c rows : nat) (l : list R) : list R :=
  match rows with
  | O => []
  | S rows' =>
      (fold_right Rplus 0%R (firstn c l) / INR c)%R
        :: row_means c rows' (skipn c l)
  end.

Definition np_mean_last (a : ndarray R) : ndarray R :=
  let c := last (shape a) 0 in
  let outer := removelast (shape a) in
  mk_ndarray outer (row_means c (numel outer) (data a)).

(** The mean of an integer array is a float64 array; a floating array
    keeps its dtype. *)
Definition tensor_mean_last (t : tensor) : tensor :=
  match t with
  | Float32 a => Float32 (np_mean_last a)
  | Float64 a => Float64 (np_mean_last a)
  | Int64 a | Int16 a => Float64 (np_mean_last (map_data IZR a))
  end.

Definition tensor_expand_dims0 (t : tensor) : tensor :=
  match t with
  | Float32 a => Float32 (np_expand_dims0 a)
  | Float64 a => Float64 (np_expand_dims0 a)
  | Int64 a => Int64 (np_expand_dims0 a)
  | Int16 a => Int16 (np_expand_dims0 a)
  end.

Definition tensor_transpose_021 (t : tensor) : result tensor :=
  match t with
  | Float32 a =>
      match np_transpose_021 a with inl e => inl e | inr b => inr (Float32 b) end
  | Float64 a =>
      match np_transpose_021 a with inl e => inl e | inr b => inr (Float64 b) end
  | Int64 a =>
      match np_transpose_021 a with inl e => inl e | inr b => inr (Int64 b) end
  | Int16 a =>
      match np_transpose_021 a with inl e => inl e | inr b => inr (Int16 b) end
  end.

Module SSLFeatureExtractor.

Record t : Type := {
  model : InferenceSession
}.

(** [__init__(self, vec_path=..., device=None)] *)
Definition init (env : environment) (vec_path : string)
  (device : option string) : M world t :=
  (providers <-
     match device with
     | None => ret ["CPUExecutionProvider"]
     | Some d =>
         if String.eqb d "cpu" then ret ["CPUExecutionProvider"]
         else raise (RuntimeError "Unsportted Device")
     end ;;
   model <- InferenceSession_new env vec_path providers ;;
   ret {| model := model |})%py.

Definition forward (self : t) (wav : tensor) : F world tensor :=
  (let feats := wav in
   let feats :=
     if List.length (tensor_shape feats) =? 2
     then tensor_mean_last feats
     else feats in
   assert_ (List.length (tensor_shape feats) =? 1)
     (Number (Z.of_nat (List.length (tensor_shape feats)))) ;;;
   let feats := tensor_expand_dims0 (tensor_expand_dims0 feats) in
   name <- raised (lift (input_name (model self) 0)) ;;
   let onnx_input := dict_literal [(name, feats)] in
   outputs <- raised (run (model self) None onnx_input) ;;
   logits <- raised (lift (list_item outputs 0)) ;;
   raised (lift (tensor_transpose_021 logits)))%pyf.

(** [__call__(self, wav)] *)
Definition call (self : t) (wav : tensor) : F world tensor :=
  forward self wav.

End SSLFeatureExtractor.

(** A feature model with one input that answers with [logits]. *)
Definition fixed_feature_model (logits : ndarray R) : InferenceSession :=
  {| session_path := "vec.onnx";
     input_names := ["source"];
     session_run := fun _ _ => inr [Float32 logits] |}.

(** Logits of depth 2 over 3 frames, a mono signal, and the same signal
    on two channels. *)
Definition small_logits : ndarray R :=
  mk_ndarray [1; 2; 3] [1%R; 2%R; 3%R; 4%R; 5%R; 6%R].

Definition mono_signal : ndarray R := mk_ndarray [3] [1%R; 2%R; 3%R].

Definition twice_mono_signal : ndarray R :=
  mk_ndarray [3; 2] [1%R; 1%R; 2%R; 2%R; 3%R; 3%R].

Definition cube_signal : ndarray R := mk_ndarray [1; 1; 3] [1%R; 2%R; 3%R].
(* ================================================================== *)
(** * Properties                                                       *)
(* ================================================================== *)

(** ** Integer parts, truncation and rounding *)

Lemma Int_part_IZR (z : Z) : Int_part (IZR z) = z.
Proof.
  symmetry. apply Int_part_spec. lra.
Qed.

Lemma Int_part_bounds (x : R) :
  (IZR (Int_part x) <= x < IZR (Int_part x) + 1)%R.
Proof.
  destruct (base_Int_part x) as [Hle Hgt]. lra.
Qed.

Lemma Int_part_unique (x : R) (z : Z) :
  (IZR z <= x < IZR z + 1)%R -> Int_part x = z.
Proof.
  intros H. symmetry. apply Int_part_spec. lra.
Qed.

Lemma trunc_IZR (z : Z) : trunc (IZR z) = z.
Proof.
  unfold trunc. destruct (Rle_dec 0 (IZR z)) as [_ | _].
  - apply Int_part_IZR.
  - rewrite <- opp_IZR, Int_part_IZR. lia.
Qed.

Lemma trunc_nonneg (x : R) (z : Z) :
  (IZR z <= x < IZR z + 1)%R -> (0 <= z)%Z -> trunc x = z.
Proof.
  intros Hx Hz. unfold trunc.
  apply IZR_le in Hz.
  destruct (Rle_dec 0 x) as [_ | Hn]; [ | lra ].
  now apply Int_part_unique.
Qed.

Lemma trunc_nonpos (x : R) (z : Z) :
  (IZR z - 1 < x <= IZR z)%R -> (z <= 0)%Z -> trunc x = z.
Proof.
  intros Hx Hz. unfold trunc.
  apply IZR_le in Hz.
  destruct (Rle_dec 0 x) as [Hp | _].
  - assert (x = 0%R) by lra. assert (IZR z = 0%R) by lra.
    subst x. apply eq_IZR in H0. subst z. apply (Int_part_IZR 0).
  - rewrite (Int_part_unique (- x) (- z)); [ lia | ].
    rewrite opp_IZR. lra.
Qed.

(** Truncation keeps the sign and drops less than one unit. *)
Lemma trunc_toward_zero (x : R) :
  (Rabs (IZR (trunc x)) <= Rabs x < Rabs (IZR (trunc x)) + 1)%R
  /\ ((0 <= x)%R -> (0 <= trunc x)%Z)
  /\ ((x <= 0)%R -> (trunc x <= 0)%Z).
Proof.
  unfold trunc. destruct (Rle_dec 0 x) as [Hp | Hn].
  - pose proof (Int_part_bounds x) as Hb.
    assert (Hz : (0 <= Int_part x)%Z).
    { apply le_IZR. apply Rnot_lt_le. intros Hlt.
      assert (IZR (Int_part x) <= -1)%R.
      { apply IZR_le. apply lt_IZR in Hlt. lia. }
      lra. }
    pose proof (IZR_le _ _ Hz) as Hz'.
    rewrite (Rabs_pos_eq _ Hz'), (Rabs_pos_eq _ Hp).
    repeat split; try lra; try lia.
    intros Hx. assert (x = 0%R) by lra. subst x.
    change 0%R with (IZR 0). rewrite Int_part_IZR. lia.
  - apply Rnot_le_lt in Hn.
    pose proof (Int_part_bounds (- x)) as Hb.
    assert (Hz : (0 <= Int_part (- x))%Z).
    { apply le_IZR. apply Rnot_lt_le. intros Hlt.
      assert (IZR (Int_part (- x)) <= -1)%R.
      { apply IZR_le. apply lt_IZR in Hlt. lia. }
      lra. }
    pose proof (IZR_le _ _ Hz) as Hz'.
    rewrite opp_IZR, Rabs_Ropp, (Rabs_pos_eq _ Hz').
    rewrite (Rabs_left x Hn).
    repeat split; try lra; try lia.
Qed.

(** Toward zero, not downward: -8191.75 becomes -8191. *)
Example trunc_negative_quarter : trunc (-0.25 * 32767) = (-8191)%Z.
Proof. apply trunc_nonpos; [ lra | lia ]. Qed.

Lemma wrap_signed_16_small (z : Z) :
  (-32768 <= z <= 32767)%Z -> wrap_signed 16 z = z.
Proof.
  intros H. unfold wrap_signed.
  change (2 ^ (16 - 1))%Z with 32768%Z. change (2 ^ 16)%Z with 65536%Z.
  rewrite Z.mod_small; lia.
Qed.

Lemma wrap_signed_64_small (z : Z) :
  (-9223372036854775808 <= z <= 9223372036854775807)%Z ->
  wrap_signed 64 z = z.
Proof.
  intros H. unfold wrap_signed.
  change (2 ^ (64 - 1))%Z with 9223372036854775808%Z.
  change (2 ^ 64)%Z with 18446744073709551616%Z.
  rewrite Z.mod_small; lia.
Qed.

(** Rounding never leaves the integers that enclose the value. *)
Lemma round_half_even_bounds (x : R) (lo hi : Z) :
  (IZR lo <= x <= IZR hi)%R -> (lo <= round_half_even x <= hi)%Z.
Proof.
  intros [Hlo Hhi].
  pose proof (Int_part_bounds x) as Hb.
  assert (Hf : (lo <= Int_part x)%Z).
  { apply Z.lt_succ_r. apply lt_IZR. rewrite succ_IZR. lra. }
  assert (Hc : (Int_part x <= hi)%Z) by (apply le_IZR; lra).
  assert (Hstep : (IZR (Int_part x) < x)%R -> (Int_part x + 1 <= hi)%Z).
  { intros Hlt. apply Z.le_succ_l. apply lt_IZR. lra. }
  unfold round_half_even.
  destruct (Rlt_dec (x - IZR (Int_part x)) (1 / 2)) as [_ | H1]; [ lia | ].
  destruct (Rlt_dec (1 / 2) (x - IZR (Int_part x))) as [H2 | H2].
  - split; [ lia | apply Hstep; lra ].
  - destruct (Z.even (Int_part x)); [ lia | ].
    split; [ lia | apply Hstep; lra ].
Qed.

Lemma round_half_even_IZR (z : Z) : round_half_even (IZR z) = z.
Proof.
  unfold round_half_even. rewrite Int_part_IZR.
  destruct (Rlt_dec (IZR z - IZR z) (1 / 2)) as [_ | H]; [ reflexivity | lra ].
Qed.

(** ** Rounding to a floating-point format *)

Lemma ln_2_pos : (0 < ln 2)%R.
Proof. rewrite <- ln_1. apply ln_increasing; lra. Qed.

Lemma ln_powerRZ_2 (e : Z) : ln (powerRZ 2 e) = (IZR e * ln 2)%R.
Proof. rewrite powerRZ_Rpower by lra. apply ln_Rpower. Qed.

Lemma binade_unique (x : R) (e : Z) :
  (powerRZ 2 e <= Rabs x < powerRZ 2 (e + 1))%R -> binade x = e.
Proof.
  intros [Hlo Hhi]. unfold binade.
  pose proof (powerRZ_lt 2 e ltac:(lra)) as Hpos.
  pose proof ln_2_pos as H2.
  assert (Hl : (IZR e * ln 2 <= ln (Rabs x))%R).
  { rewrite <- ln_powerRZ_2. destruct Hlo as [Hlt | Heq].
    - left. apply ln_increasing; assumption.
    - rewrite Heq. lra. }
  assert (Hh : (ln (Rabs x) < (IZR e + 1) * ln 2)%R).
  { rewrite <- plus_IZR, <- ln_powerRZ_2. apply ln_increasing; lra. }
  assert (Hq : (ln (Rabs x) / ln 2 * ln 2 = ln (Rabs x))%R) by (field; lra).
  apply Int_part_unique. split.
  - apply (Rmult_le_reg_r (ln 2)); [ exact H2 | lra ].
  - apply (Rmult_lt_reg_r (ln 2)); [ exact H2 | lra ].
Qed.

(** A number of the format is left as it is. *)
Lemma round_float_exact (prec emin : Z) (x : R) (e n : Z) :
  (powerRZ 2 e <= Rabs x < powerRZ 2 (e + 1))%R -> (emin <= e)%Z ->
  x = (IZR n * powerRZ 2 (e - (prec - 1)))%R ->
  round_float prec emin x = x.
Proof.
  intros Hb He Hx. unfold round_float. rewrite (binade_unique x e Hb).
  rewrite Z.max_l by lia. cbv zeta.
  pose proof (powerRZ_lt 2 (e - (prec - 1)) ltac:(lra)) as Hu.
  assert (Hq : (x / powerRZ 2 (e - (prec - 1)) = IZR n)%R).
  { rewrite Hx. field. lra. }
  rewrite Hq, round_half_even_IZR. symmetry. exact Hx.
Qed.

(** The products of the samples used below, in float32: 32767, 8191.75
    and 49150.5 are numbers of the format; 1 - 2^-30 is not, and the
    nearest one is 1. *)
Lemma float32_full_scale : round_float32 32767 = 32767%R.
Proof.
  apply (round_float_exact 24 (-126) _ 14 16776704); [ | lia | ].
  - rewrite Rabs_pos_eq by lra.
    change (powerRZ 2 14) with (2 ^ 14)%R.
    change (powerRZ 2 (14 + 1)) with (2 ^ 15)%R. lra.
  - change (powerRZ 2 (14 - (24 - 1))) with (/ 2 ^ 9)%R. lra.
Qed.

Lemma float32_negative_full_scale : round_float32 (-32767) = (-32767)%R.
Proof.
  apply (round_float_exact 24 (-126) _ 14 (-16776704)); [ | lia | ].
  - rewrite Rabs_left by lra.
    change (powerRZ 2 14) with (2 ^ 14)%R.
    change (powerRZ 2 (14 + 1)) with (2 ^ 15)%R. lra.
  - change (powerRZ 2 (14 - (24 - 1))) with (/ 2 ^ 9)%R. lra.
Qed.

Lemma float32_quarter_product :
  round_float32 (0.25 * 32767) = (0.25 * 32767)%R.
Proof.
  apply (round_float_exact 24 (-126) _ 12 16776704); [ | lia | ].
  - rewrite Rabs_pos_eq by lra.
    change (powerRZ 2 12) with (2 ^ 12)%R.
    change (powerRZ 2 (12 + 1)) with (2 ^ 13)%R. lra.
  - change (powerRZ 2 (12 - (24 - 1))) with (/ 2 ^ 11)%R. lra.
Qed.

Lemma float32_loud_product :
  round_float32 (1.5 * 32767) = 49150.5%R.
Proof.
  replace (1.5 * 32767)%R with 49150.5%R by lra.
  apply (round_float_exact 24 (-126) _ 15 12582528); [ | lia | ].
  - rewrite Rabs_pos_eq by lra.
    change (powerRZ 2 15) with (2 ^ 15)%R.
    change (powerRZ 2 (15 + 1)) with (2 ^ 16)%R. lra.
  - change (powerRZ 2 (15 - (24 - 1))) with (/ 2 ^ 8)%R. lra.
Qed.

Lemma float32_rounds_up_to_one :
  round_float32 ((1 / 32768 + 1 / 1073741824) * 32767) = 1%R.
Proof.
  unfold round_float32, round_float.
  rewrite (binade_unique _ (-1)).
  2: { rewrite Rabs_pos_eq by lra.
       change (powerRZ 2 (-1)) with (/ 2 ^ 1)%R.
       change (powerRZ 2 (-1 + 1)) with 1%R. lra. }
  change (Z.max (-1) (-126)) with (-1)%Z. cbv zeta.
  change (powerRZ 2 (-1 - (24 - 1))) with (/ 2 ^ 24)%R.
  assert (Hround :
    round_half_even ((1 / 32768 + 1 / 1073741824) * 32767 / / 2 ^ 24)
    = 16777216%Z).
  { unfold round_half_even.
    rewrite (Int_part_unique _ 16777215) by lra.
    destruct (Rlt_dec _ (1 / 2)) as [H | _]; [ lra | ].
    destruct (Rlt_dec (1 / 2) _) as [_ | H]; [ reflexivity | lra ]. }
  rewrite Hround. lra.
Qed.

(** ** NSFHead.forward: the conversion to 16-bit PCM *)

(** With six declared inputs, [forward] makes exactly one call into the
    session, on the six arrays under the declared names, and converts the
    first output. *)
Lemma forward_run (self : NSFHead.t)
  (hubert hubert_length pitch pitchf ds rnd : tensor) (w : world)
  (n0 n1 n2 n3 n4 n5 : string) (rest : list string) :
  input_names (NSFHead.model self) = n0 :: n1 :: n2 :: n3 :: n4 :: n5 :: rest ->
  NSFHead.forward self hubert hubert_length pitch pitchf ds rnd w =
  let feeds := dict_literal [(n0, hubert); (n1, hubert_length); (n2, pitch);
                             (n3, pitchf); (n4, ds); (n5, rnd)] in
  (log_event (OrtRun (session_path (NSFHead.model self)) None feeds) w,
   match session_run (NSFHead.model self) None feeds with
   | inl e => inl e
   | inr outputs =>
       match list_item outputs 0 with
       | inl e => inl e
       | inr output => inr (astype_int16 (mul_int output 32767))
       end
   end).
Proof.
  intros Hnames.
  unfold NSFHead.forward, bind, lift, input_name, list_item, run, ret.
  rewrite Hnames. cbn [nth_error].
  destruct (session_run _ _ _) as [e | outputs]; [ reflexivity | ].
  destruct outputs as [ | output more ]; reflexivity.
Qed.

Lemma pcm_of_floats (wave : ndarray R) :
  astype_int16 (mul_int (Float32 wave) 32767) =
  map_data (fun x => wrap_signed 16 (trunc (round_float32 (x * 32767)))) wave.
Proof.
  unfold astype_int16, mul_int, map_data. cbn [shape data].
  now rewrite map_map.
Qed.

Lemma trunc_in_int16 (p : R) :
  (-32769 < p < 32768)%R -> (-32768 <= trunc p <= 32767)%Z.
Proof.
  intros [Hlo Hhi].
  destruct (trunc_toward_zero p) as [[Habs _] [Hpos Hneg]].
  destruct (Rle_dec 0 p) as [Hp | Hp].
  - specialize (Hpos Hp). split; [ lia | ].
    apply Z.lt_succ_r. apply lt_IZR.
    rewrite (Rabs_pos_eq p Hp) in Habs.
    rewrite Rabs_pos_eq in Habs by (apply IZR_le; lia).
    change (IZR (Z.succ 32767)) with 32768%R. lra.
  - apply Rnot_le_lt in Hp.
    assert (Hz : (trunc p <= 0)%Z) by (apply Hneg; lra).
    split; [ | lia ].
    rewrite (Rabs_left p Hp) in Habs.
    assert (Hz' : (IZR (trunc p) <= 0)%R) by (apply (IZR_le _ 0); lia).
    rewrite Rabs_left1 in Habs by exact Hz'.
    assert (Hlt : (IZR (-32769) < IZR (trunc p))%R) by lra.
    apply lt_IZR in Hlt. lia.
Qed.

(** C5 (PCM conversion endpoints).  When the vocoder session returns the
    two samples 1.0 and -1.0, [NSFHead.forward] returns the PCM values
    32767 and -32767: the product with 32767 is already an integer and
    the cast keeps it, so -1.0 does not reach -32768. *)
Theorem pcm_endpoints (self : NSFHead.t)
  (hubert hubert_length pitch pitchf ds rnd : tensor) (w : world)
  (n0 n1 n2 n3 n4 n5 : string) (rest : list string)
  (dims : list nat) (more : list tensor) :
  input_names (NSFHead.model self) = n0 :: n1 :: n2 :: n3 :: n4 :: n5 :: rest ->
  session_run (NSFHead.model self) None
    (dict_literal [(n0, hubert); (n1, hubert_length); (n2, pitch);
                   (n3, pitchf); (n4, ds); (n5, rnd)])
  = inr (Float32 (mk_ndarray dims [1%R; (-1)%R]) :: more) ->
  snd (NSFHead.forward self hubert hubert_length pitch pitchf ds rnd w)
  = inr (mk_ndarray dims [32767%Z; (-32767)%Z]).
Proof.
  intros Hnames Hrun.
  rewrite (forward_run _ _ _ _ _ _ _ _ _ _ _ _ _ _ _ Hnames).
  cbn [snd]. rewrite Hrun. cbn [list_item nth_error].
  rewrite pcm_of_floats. unfold map_data. cbn [shape data map].
  replace (1 * 32767)%R with 32767%R by lra.
  replace (-1 * 32767)%R with (-32767)%R by lra.
  rewrite float32_full_scale, float32_negative_full_scale.
  rewrite (trunc_IZR 32767), (trunc_IZR (-32767)).
  rewrite !wrap_signed_16_small by lia.
  reflexivity.
Qed.

Lemma pcm_endpoints_witness :
  snd (NSFHead.forward (fixed_head unit_peaks)
         no_features (one_int 0) no_pitch no_pitchf (one_int 0) no_noise
         empty_world)
  = inr (mk_ndarray [1; 1; 2] [32767%Z; (-32767)%Z]).
Proof.
  apply (pcm_endpoints (fixed_head unit_peaks)
           no_features (one_int 0) no_pitch no_pitchf (one_int 0) no_noise
           empty_world
           "phone" "phone_lengths" "pitch" "pitchf" "ds" "rnd" []
           [1; 1; 2] []).
  - reflexivity.
  - reflexivity.
Defined.

(** C4, as the design document words it, fails: the sample 0.25 gives the
    product 8191.75, which [NSFHead.forward] turns into 8191, while
    rounding gives 8192. *)
Lemma pcm_is_not_rounded :
  snd (NSFHead.forward (fixed_head quarter_sample)
         no_features (one_int 0) no_pitch no_pitchf (one_int 0) no_noise
         empty_world)
  = inr (mk_ndarray [1; 1; 1] [8191%Z])
  /\ pcm_rounded_spec quarter_sample = mk_ndarray [1; 1; 1] [8192%Z]
  /\ snd (NSFHead.forward (fixed_head quarter_sample)
            no_features (one_int 0) no_pitch no_pitchf (one_int 0) no_noise
            empty_world)
     <> inr (pcm_rounded_spec quarter_sample).
Proof.
  assert (Hcode :
    snd (NSFHead.forward (fixed_head quarter_sample)
           no_features (one_int 0) no_pitch no_pitchf (one_int 0) no_noise
           empty_world)
    = inr (mk_ndarray [1; 1; 1] [8191%Z])).
  { rewrite (forward_run (fixed_head quarter_sample) _ _ _ _ _ _ _
               "phone" "phone_lengths" "pitch" "pitchf" "ds" "rnd" []
               eq_refl).
    cbn [snd fixed_head NSFHead.model fixed_vocoder session_run
         list_item nth_error].
    rewrite pcm_of_floats. unfold map_data, quarter_sample.
    cbn [shape data map]. rewrite float32_quarter_product.
    rewrite (trunc_nonneg _ 8191) by (try lra; lia).
    now rewrite wrap_signed_16_small by lia. }
  assert (Hspec : pcm_rounded_spec quarter_sample
                  = mk_ndarray [1; 1; 1] [8192%Z]).
  { unfold pcm_rounded_spec, map_data, quarter_sample.
    cbn [shape data map].
    assert (Hround : round_half_even (0.25 * 32767) = 8192%Z).
    { unfold round_half_even.
      rewrite (Int_part_unique _ 8191) by lra.
      destruct (Rlt_dec (0.25 * 32767 - 8191) (1 / 2)) as [H | _]; [ lra | ].
      destruct (Rlt_dec (1 / 2) (0.25 * 32767 - 8191)) as [_ | H]; [ | lra ].
      reflexivity. }
    rewrite Hround. now rewrite wrap_signed_16_small by lia. }
  split; [ exact Hcode | split; [ exact Hspec | ] ].
  rewrite Hcode, Hspec. intros H. discriminate H.
Qed.

(** The narrowing to sixteen bits keeps the value modulo 65536. *)
Lemma wrap_signed_16_spec (z : Z) :
  (-32768 <= wrap_signed 16 z <= 32767)%Z
  /\ exists k : Z, wrap_signed 16 z = (z + 65536 * k)%Z.
Proof.
  unfold wrap_signed.
  change (2 ^ (16 - 1))%Z with 32768%Z. change (2 ^ 16)%Z with 65536%Z.
  pose proof (Z.mod_pos_bound (z + 32768) 65536 ltac:(lia)) as Hb.
  pose proof (Z.div_mod (z + 32768) 65536 ltac:(lia)) as Hd.
  split; [ lia | ].
  exists (- ((z + 32768) / 65536))%Z. lia.
Qed.

(** C4, amended.  [NSFHead.forward] multiplies every sample [x] of the
    session's float32 output by 32767, in float32, and casts the product
    [p] to int16.  The cast drops the fraction of [p] (toward zero: same
    sign, less than one unit lost) and keeps the result modulo 65536, so
    that every value is in the int16 range.  A product strictly between
    -32769 and 32768 therefore becomes its integer part, not the nearest
    integer; a product beyond is not clipped to the nearest bound but
    wraps around.  Nothing else enters the value: no dither.  (The
    modular clause is stated for products within the 32-bit range, where
    the conversion behind the cast is defined.) *)
Theorem pcm_truncates (self : NSFHead.t)
  (hubert hubert_length pitch pitchf ds rnd : tensor) (w : world)
  (n0 n1 n2 n3 n4 n5 : string) (rest : list string)
  (wave : ndarray R) (more : list tensor) :
  input_names (NSFHead.model self) = n0 :: n1 :: n2 :: n3 :: n4 :: n5 :: rest ->
  session_run (NSFHead.model self) None
    (dict_literal [(n0, hubert); (n1, hubert_length); (n2, pitch);
                   (n3, pitchf); (n4, ds); (n5, rnd)])
  = inr (Float32 wave :: more) ->
  exists pcm : ndarray Z,
    snd (NSFHead.forward self hubert hubert_length pitch pitchf ds rnd w)
    = inr pcm
    /\ shape pcm = shape wave
    /\ List.length (data pcm) = List.length (data wave)
    /\ forall (i : nat) (x : R),
         nth_error (data wave) i = Some x ->
         exists (p : R) (z : Z),
           p = round_float32 (x * 32767)
           /\ nth_error (data pcm) i = Some z
           /\ (-32768 <= z <= 32767)%Z
           /\ ((Rabs p < 2147483648)%R ->
               exists k : Z, z = (trunc p + 65536 * k)%Z)
           /\ ((-32769 < p < 32768)%R -> z = trunc p)
           /\ (Rabs (IZR (trunc p)) <= Rabs p < Rabs (IZR (trunc p)) + 1)%R
           /\ ((0 <= p)%R -> (0 <= trunc p)%Z)
           /\ ((p <= 0)%R -> (trunc p <= 0)%Z).
Proof.
  intros Hnames Hrun.
  exists (map_data
            (fun x => wrap_signed 16 (trunc (round_float32 (x * 32767)))) wave).
  split.
  { rewrite (forward_run _ _ _ _ _ _ _ _ _ _ _ _ _ _ _ Hnames).
    cbn [snd]. rewrite Hrun. cbn [list_item nth_error].
    now rewrite pcm_of_floats. }
  unfold map_data. cbn [shape data].
  split; [ reflexivity | ].
  split; [ apply length_map | ].
  intros i x Hx.
  exists (round_float32 (x * 32767)),
    (wrap_signed 16 (trunc (round_float32 (x * 32767)))).
  destruct (wrap_signed_16_spec (trunc (round_float32 (x * 32767))))
    as [Hrange Hwrap].
  split; [ reflexivity | ].
  split; [ exact (map_nth_error _ _ _ Hx) | ].
  split; [ exact Hrange | ].
  split; [ intros _; exact Hwrap | ].
  split.
  { intros Hin. apply wrap_signed_16_small. now apply trunc_in_int16. }
  apply trunc_toward_zero.
Qed.

Lemma pcm_truncates_witness :
  snd (NSFHead.forward (fixed_head pcm_samples)
         no_features (one_int 0) no_pitch no_pitchf (one_int 0) no_noise
         empty_world)
  = inr (mk_ndarray [1; 1; 3] [8191%Z; (-16386)%Z; 1%Z]).
Proof.
  destruct (pcm_truncates (fixed_head pcm_samples)
              no_features (one_int 0) no_pitch no_pitchf (one_int 0) no_noise
              empty_world
              "phone" "phone_lengths" "pitch" "pitchf" "ds" "rnd" []
              pcm_samples [] eq_refl eq_refl)
    as (pcm & Hrun & Hshape & Hlen & Hall).
  rewrite Hrun. f_equal.
  destruct pcm as [s d]. cbn [shape data pcm_samples List.length] in *.
  subst s. f_equal.
  destruct d as [ | z0 [ | z1 [ | z2 [ | z3 d ] ] ] ]; try discriminate Hlen.
  destruct (Hall 0 _ eq_refl) as (p0 & y0 & -> & Hz0 & _ & _ & Hin0 & _).
  destruct (Hall 1 _ eq_refl) as (p1 & y1 & -> & Hz1 & Hr1 & Hk1 & _).
  destruct (Hall 2 _ eq_refl) as (p2 & y2 & -> & Hz2 & _ & _ & Hin2 & _).
  cbn [nth_error] in Hz0, Hz1, Hz2.
  injection Hz0 as <-. injection Hz1 as <-. injection Hz2 as <-.
  rewrite float32_quarter_product in Hin0.
  rewrite float32_loud_product in Hk1.
  rewrite float32_rounds_up_to_one in Hin2.
  rewrite (trunc_nonneg _ 8191) in Hin0 by (try lra; lia).
  rewrite (trunc_nonneg _ 49150) in Hk1 by (try lra; lia).
  rewrite (trunc_IZR 1) in Hin2.
  rewrite Hin0, Hin2 by lra.
  destruct Hk1 as [k Hk]; [ rewrite Rabs_pos_eq; lra | ].
  do 2 f_equal. lia.
Defined.

(** ** Lists laid out in blocks *)

Lemma flat_map_blocks_length {A} (f : nat -> list A) (m : nat) :
  forall n s,
    (forall i, s <= i < s + n -> List.length (f i) = m) ->
    List.length (flat_map f (seq s n)) = n * m.
Proof.
  induction n as [ | n IH ]; intros s Hlen; [ reflexivity | ].
  cbn [seq flat_map]. rewrite length_app, Hlen by lia.
  rewrite IH; [ reflexivity | ].
  intros i Hi. apply Hlen. lia.
Qed.

Lemma nth_error_flat_map_blocks {A} (f : nat -> list A) (m : nat) :
  forall n s x y,
    (forall i, s <= i < s + n -> List.length (f i) = m) ->
    x < n -> y < m ->
    nth_error (flat_map f (seq s n)) (x * m + y) = nth_error (f (s + x)) y.
Proof.
  induction n as [ | n IH ]; intros s x y Hlen Hx Hy; [ lia | ].
  cbn [seq flat_map].
  destruct x as [ | x ].
  - cbn [Nat.mul Nat.add]. rewrite Nat.add_0_r.
    apply nth_error_app1. rewrite Hlen by lia. exact Hy.
  - rewrite nth_error_app2 by (rewrite Hlen by lia; cbn [Nat.mul]; lia).
    rewrite Hlen by lia.
    replace (S x * m + y - m) with (x * m + y) by (cbn [Nat.mul]; lia).
    rewrite IH; [ | intros i Hi; apply Hlen; lia | lia | exact Hy ].
    f_equal. f_equal. lia.
Qed.

Lemma repeat_twice_length {A} (l : list A) :
  List.length (flat_map (fun x => repeat x 2) l) = 2 * List.length l.
Proof.
  induction l as [ | a l IH ]; [ reflexivity | ].
  change (flat_map (fun x => repeat x 2) (a :: l))
    with (a :: a :: flat_map (fun x => repeat x 2) l).
  cbn [List.length]. rewrite IH. lia.
Qed.

Lemma nth_error_repeat_twice {A} (l : list A) :
  forall k, nth_error (flat_map (fun x => repeat x 2) l) k
            = nth_error l (k / 2).
Proof.
  induction l as [ | a l IH ]; intros k.
  - cbn [flat_map]. now rewrite !nth_error_nil.
  - change (flat_map (fun x => repeat x 2) (a :: l))
      with (a :: a :: flat_map (fun x => repeat x 2) l).
    destruct k as [ | [ | k ] ]; [ reflexivity | reflexivity | ].
    cbn [nth_error]. rewrite IH.
    replace (S (S k)) with (k + 1 * 2) by lia.
    rewrite Nat.div_add by lia.
    now rewrite Nat.add_1_r.
Qed.

Lemma opt_list_nth_error_length {A} (l : list A) (i : nat) :
  i < List.length l -> List.length (opt_list (nth_error l i)) = 1.
Proof.
  intros Hi. destruct (nth_error l i) eqn:E; [ reflexivity | ].
  apply nth_error_None in E. lia.
Qed.

Lemma transposed_row_length {A} (l : list A) (n1 n2 j : nat) :
  List.length l = n1 * n2 -> j < n2 ->
  List.length
    (flat_map (fun k => opt_list (nth_error l (0 * (n1 * n2) + k * n2 + j)))
       (seq 0 n1)) = n1.
Proof.
  intros Hl Hj.
  rewrite (flat_map_blocks_length _ 1); [ lia | ].
  intros k Hk. apply opt_list_nth_error_length. nia.
Qed.

(** Entry [(j, k)] of the transposed storage is entry [(k, j)] of the
    original one. *)
Lemma transposed_nth_error {A} (l : list A) (n1 n2 j k : nat) :
  List.length l = n1 * n2 -> j < n2 -> k < n1 ->
  nth_error
    (flat_map (fun j =>
       flat_map (fun k => opt_list (nth_error l (0 * (n1 * n2) + k * n2 + j)))
         (seq 0 n1))
       (seq 0 n2))
    (j * n1 + k)
  = nth_error l (k * n2 + j).
Proof.
  intros Hl Hj Hk.
  rewrite (nth_error_flat_map_blocks _ n1);
    [ | intros i Hi; apply transposed_row_length; [ exact Hl | lia ]
      | exact Hj | exact Hk ].
  cbn [Nat.add].
  replace k with (k * 1 + 0) at 1 by lia.
  rewrite (nth_error_flat_map_blocks _ 1);
    [ | intros i Hi; apply opt_list_nth_error_length; nia | exact Hk | lia ].
  cbn [Nat.add Nat.mul].
  destruct (nth_error l (k * n2 + j)) eqn:E; [ reflexivity | ].
  apply nth_error_None in E. nia.
Qed.

Lemma transposed_length {A} (l : list A) (n1 n2 : nat) :
  List.length l = n1 * n2 ->
  List.length
    (flat_map (fun j =>
       flat_map (fun k => opt_list (nth_error l (0 * (n1 * n2) + k * n2 + j)))
         (seq 0 n1))
       (seq 0 n2))
  = n2 * n1.
Proof.
  intros Hl. apply flat_map_blocks_length.
  intros j Hj. apply transposed_row_length; [ exact Hl | lia ].
Qed.

(** ** to_waveform: the alignment of the mel tensor *)

Lemma align_value (mel : ndarray R) (D T : nat) :
  shape mel = [1; D; T] ->
  align mel =
  inr (mk_ndarray [1; 2 * T; D]
         (flat_map (fun j =>
            flat_map (fun k =>
              opt_list
                (nth_error (flat_map (fun x => repeat x 2) (data mel))
                   (0 * (D * (2 * T)) + k * (2 * T) + j)))
              (seq 0 D))
            (seq 0 (2 * T)))).
Proof.
  intros Hs. unfold align, np_repeat_axis2. rewrite Hs.
  unfold np_transpose_021. cbn [shape data astype_float32].
  cbn [seq flat_map]. now rewrite app_nil_r.
Qed.

Lemma get3_batch_of_one {A} (a : ndarray A) (n1 n2 j k : nat) :
  shape a = [1; n1; n2] -> j < n1 -> k < n2 ->
  get3 a 0 j k = nth_error (data a) (j * n2 + k).
Proof.
  intros Hs Hj Hk. unfold get3. rewrite Hs.
  apply Nat.ltb_lt in Hj. apply Nat.ltb_lt in Hk.
  rewrite Hj, Hk. reflexivity.
Qed.

(** C1 (frame alignment).  For a mel tensor of shape [1, D, T] with
    D > 0 and T > 0 the alignment step of [to_waveform] succeeds and
    yields the float32 array of shape [1, 2T, D] in which entry (0, j, d)
    is entry (0, d, j / 2) of the mel tensor: every time step is there
    twice, depth and time are exchanged, and the even frame 2i is frame i
    of the input, unchanged. *)
Theorem align_frames (mel : ndarray R) (D T : nat) :
  shape mel = [1; D; T] -> well_formed mel -> 0 < D -> 0 < T ->
  exists hubert : ndarray R,
    align mel = inr hubert
    /\ shape hubert = [1; 2 * T; D]
    /\ well_formed hubert
    /\ (forall j d, j < 2 * T -> d < D ->
          exists x, get3 mel 0 d (j / 2) = Some x
                    /\ get3 hubert 0 j d = Some x)
    /\ (forall i, i < T ->
          frame hubert (2 * i) = column mel i
          /\ frame hubert (2 * i + 1) = column mel i).
Proof.
  intros Hs Hwf HD HT.
  unfold well_formed in Hwf. rewrite Hs in Hwf. cbn [numel fold_right] in Hwf.
  assert (Hlen : List.length (data mel) = D * T) by lia.
  assert (Hrep : List.length (flat_map (fun x => repeat x 2) (data mel))
                 = D * (2 * T)) by (rewrite repeat_twice_length; nia).
  eexists. split; [ apply (align_value mel D T Hs) | ].
  split; [ reflexivity | ].
  split.
  { unfold well_formed. cbn [shape data numel fold_right].
    rewrite (transposed_length _ D (2 * T) Hrep). lia. }
  assert (Hpoint : forall j d, j < 2 * T -> d < D ->
    get3 (mk_ndarray [1; 2 * T; D]
            (flat_map (fun j =>
               flat_map (fun k =>
                 opt_list
                   (nth_error (flat_map (fun x => repeat x 2) (data mel))
                      (0 * (D * (2 * T)) + k * (2 * T) + j)))
                 (seq 0 D))
               (seq 0 (2 * T)))) 0 j d
    = get3 mel 0 d (j / 2)).
  { intros j d Hj Hd.
    assert (Hhalf : j / 2 < T) by (apply Nat.Div0.div_lt_upper_bound; lia).
    rewrite (get3_batch_of_one _ (2 * T) D) by (try reflexivity; assumption).
    rewrite (get3_batch_of_one mel D T) by assumption.
    cbn [data].
    rewrite (transposed_nth_error _ D (2 * T) j d Hrep Hj Hd).
    rewrite nth_error_repeat_twice. f_equal.
    replace (d * (2 * T) + j) with (j + (d * T) * 2) by lia.
    rewrite Nat.div_add by lia. lia. }
  split.
  - intros j d Hj Hd.
    assert (Hhalf : j / 2 < T) by (apply Nat.Div0.div_lt_upper_bound; lia).
    rewrite Hpoint by assumption.
    rewrite (get3_batch_of_one mel D T) by assumption.
    destruct (nth_error (data mel) (d * T + j / 2)) as [x | ] eqn:E.
    + exists x. split; reflexivity.
    + apply nth_error_None in E. nia.
  - intros i Hi. unfold frame, column. rewrite Hs. cbn [shape].
    split; apply map_ext_in; intros d Hd; apply in_seq in Hd;
      rewrite Hpoint by lia; f_equal.
    + replace (2 * i) with (i * 2) by lia. now apply Nat.div_mul.
    + replace (2 * i + 1) with (1 + i * 2) by lia.
      rewrite Nat.div_add by lia. reflexivity.
Qed.

Example align_small_mel :
  align small_mel
  = inr (mk_ndarray [1; 4; 2]
           [1%R; 3%R; 1%R; 3%R; 2%R; 4%R; 2%R; 4%R]).
Proof. reflexivity. Qed.

Lemma align_frames_witness :
  exists hubert : ndarray R,
    align small_mel = inr hubert
    /\ shape hubert = [1; 2 * 2; 2]
    /\ well_formed hubert
    /\ (forall j d, j < 2 * 2 -> d < 2 ->
          exists x, get3 small_mel 0 d (j / 2) = Some x
                    /\ get3 hubert 0 j d = Some x)
    /\ (forall i, i < 2 ->
          frame hubert (2 * i) = column small_mel i
          /\ frame hubert (2 * i + 1) = column small_mel i).
Proof.
  apply (align_frames small_mel 2 2).
  - reflexivity.
  - reflexivity.
  - lia.
  - lia.
Defined.

(** ** The coarse pitch code stays in [1, 255] *)

Lemma clipped_range (x : R) : (1 <= clip_high (clip_low x) <= 255)%R.
Proof.
  unfold clip_high, clip_low.
  destruct (Rle_dec x 1) as [H1 | H1].
  - destruct (Rlt_dec 255 1) as [H2 | _]; lra.
  - destruct (Rlt_dec 255 x) as [H2 | H2]; lra.
Qed.

Lemma coarse_code_of_rint (y : R) :
  (1 <= y <= 255)%R ->
  wrap_signed 64 (trunc (np_rint y)) = round_half_even y
  /\ (1 <= round_half_even y <= 255)%Z.
Proof.
  intros Hy.
  pose proof (round_half_even_bounds y 1 255 Hy) as Hb.
  unfold np_rint. rewrite trunc_IZR.
  rewrite wrap_signed_64_small by lia. now split.
Qed.

Lemma mel_scale_zero : mel_scale 0 = 0%R.
Proof.
  unfold mel_scale.
  replace (1 + 0 / 700)%R with 1%R by lra.
  rewrite ln_1. lra.
Qed.

Lemma coarse_pitch_data (lo hi : R) (pitch : ndarray R) :
  data (coarse_pitch lo hi pitch)
  = map (fun p =>
           wrap_signed 64
             (trunc (np_rint
                (clip_high (clip_low (rescale_voiced lo hi (mel_scale p)))))))
      (data pitch).
Proof.
  unfold coarse_pitch, astype_int64, map_data. cbn [shape data].
  now rewrite !map_map.
Qed.

(** C2 (pitch-coarse range).  For a pitch buffer whose values are all
    >= 0, the quantisation that [RMVPEOnnxPitchExtractor.extract] and
    [to_waveform] both apply yields an integer array of the same shape
    with every element in [1, 255]; when all the values are zero, every
    element is 1.  [lo] and [hi] are the two mel bounds, whatever their
    values. *)
Theorem coarse_pitch_range (lo hi : R) (pitch : ndarray R) :
  Forall (fun p => (0 <= p)%R) (data pitch) ->
  shape (coarse_pitch lo hi pitch) = shape pitch
  /\ List.length (data (coarse_pitch lo hi pitch)) = List.length (data pitch)
  /\ Forall (fun c => (1 <= c <= 255)%Z) (data (coarse_pitch lo hi pitch))
  /\ (Forall (fun p => p = 0%R) (data pitch) ->
      Forall (fun c => c = 1%Z) (data (coarse_pitch lo hi pitch))).
Proof.
  intros Hpos.
  split; [ reflexivity | ].
  rewrite coarse_pitch_data.
  split; [ apply length_map | ].
  split.
  - apply Forall_map. apply Forall_forall. intros p _.
    destruct (coarse_code_of_rint _
                (clipped_range (rescale_voiced lo hi (mel_scale p))))
      as [Heq Hrange].
    rewrite Heq. exact Hrange.
  - intros Hzero. apply Forall_map.
    apply (Forall_impl _ (P := fun p => p = 0%R)); [ | exact Hzero ].
    intros p Hp. subst p. rewrite mel_scale_zero.
    unfold rescale_voiced.
    destruct (Rlt_dec 0 0) as [H | _]; [ lra | ].
    unfold clip_low. destruct (Rle_dec 0 1) as [_ | H]; [ | lra ].
    unfold clip_high. destruct (Rlt_dec 255 1) as [H | _]; [ lra | ].
    unfold np_rint. rewrite (round_half_even_IZR 1), trunc_IZR.
    now rewrite wrap_signed_64_small by lia.
Qed.

Lemma coarse_pitch_range_witness :
  shape (coarse_pitch (mel_bound 50) (mel_bound 1100) unvoiced_track)
  = shape unvoiced_track
  /\ List.length
       (data (coarse_pitch (mel_bound 50) (mel_bound 1100) unvoiced_track))
     = List.length (data unvoiced_track)
  /\ Forall (fun c => (1 <= c <= 255)%Z)
       (data (coarse_pitch (mel_bound 50) (mel_bound 1100) unvoiced_track))
  /\ (Forall (fun p => p = 0%R) (data unvoiced_track) ->
      Forall (fun c => c = 1%Z)
        (data (coarse_pitch (mel_bound 50) (mel_bound 1100) unvoiced_track))).
Proof.
  apply (coarse_pitch_range (mel_bound 50) (mel_bound 1100) unvoiced_track).
  unfold unvoiced_track. cbn [data].
  repeat constructor; apply Rle_refl.
Defined.

(** ** NSFHead.inference: what reaches the vocoder session *)

Lemma inference_run (env : environment) (self : NSFHead.t)
  (hubertIn pitchfIn pitchIIn : tensor) (w : world)
  (n0 n1 n2 n3 n4 n5 : string) (rest : list string)
  (batch frames : nat) (dims : list nat) :
  input_names (NSFHead.model self) = n0 :: n1 :: n2 :: n3 :: n4 :: n5 :: rest ->
  tensor_shape hubertIn = batch :: frames :: dims ->
  NSFHead.inference env self hubertIn pitchfIn pitchIIn w =
  let feeds :=
    vocoder_feeds env w n0 n1 n2 n3 n4 n5 frames hubertIn pitchfIn pitchIIn in
  (log_event (OrtRun (session_path (NSFHead.model self)) None feeds)
     (after_noise frames w),
   waveform_of (session_run (NSFHead.model self) None feeds)).
Proof.
  intros Hnames Hshape.
  unfold NSFHead.inference, bind at 1. unfold lift at 1, shape_at.
  rewrite Hshape. cbn [nth_error].
  unfold bind at 1, np_random_randn.
  unfold bind at 1.
  rewrite (forward_run _ _ _ _ _ _ _ _ _ _ _ _ _ _ _ Hnames).
  cbv zeta. unfold vocoder_feeds, noise_of, after_noise, waveform_of.
  destruct (session_run _ _ _) as [e | outputs]; [ reflexivity | ].
  destruct outputs as [ | output more ]; reflexivity.
Qed.

(** C3, as the design document words it, fails: hidden features of two
    frames with pitch arrays of three frames reach the session, and the
    call returns what the session answers; no exception is raised. *)
Lemma mismatch_reaches_the_session :
  tensor_shape two_frames = [1; 2; 1]
  /\ tensor_shape three_codes = [1; 3]
  /\ events (fst (NSFHead.inference (env_with (fixed_vocoder no_samples))
                    (fixed_head no_samples)
                    two_frames three_pitches three_codes empty_world))
     = [OrtRun model_path None
          (vocoder_feeds (env_with (fixed_vocoder no_samples)) empty_world
             "phone" "phone_lengths" "pitch" "pitchf" "ds" "rnd" 2
             two_frames three_pitches three_codes)]
  /\ snd (NSFHead.inference (env_with (fixed_vocoder no_samples))
            (fixed_head no_samples)
            two_frames three_pitches three_codes empty_world)
     = inr (mk_ndarray [0] []).
Proof.
  rewrite (inference_run (env_with (fixed_vocoder no_samples))
             (fixed_head no_samples)
             two_frames three_pitches three_codes empty_world
             "phone" "phone_lengths" "pitch" "pitchf" "ds" "rnd" []
             1 2 [1] eq_refl eq_refl).
  repeat split.
Qed.

(** C3, amended.  [NSFHead.inference] does not compare the frame counts
    of its arguments.  Whenever the hidden features have at least two
    axes and the session declares six inputs, it makes exactly one call
    into the session, on the hidden features as given, the pitch codes
    cast to int64 and the pitch track cast to float32, whatever their
    lengths; an exception of the session is passed on as it is. *)
Theorem inference_does_not_validate (env : environment) (self : NSFHead.t)
  (hubertIn pitchfIn pitchIIn : tensor) (w : world)
  (n0 n1 n2 n3 n4 n5 : string) (rest : list string)
  (batch frames : nat) (dims : list nat) :
  input_names (NSFHead.model self) = n0 :: n1 :: n2 :: n3 :: n4 :: n5 :: rest ->
  tensor_shape hubertIn = batch :: frames :: dims ->
  events (fst (NSFHead.inference env self hubertIn pitchfIn pitchIIn w))
  = events w
      ++ [OrtRun (session_path (NSFHead.model self)) None
            (vocoder_feeds env w n0 n1 n2 n3 n4 n5 frames
               hubertIn pitchfIn pitchIIn)]
  /\ snd (NSFHead.inference env self hubertIn pitchfIn pitchIIn w)
     = waveform_of
         (session_run (NSFHead.model self) None
            (vocoder_feeds env w n0 n1 n2 n3 n4 n5 frames
               hubertIn pitchfIn pitchIIn))
  /\ forall e : exn,
       session_run (NSFHead.model self) None
         (vocoder_feeds env w n0 n1 n2 n3 n4 n5 frames
            hubertIn pitchfIn pitchIIn) = inl e ->
       snd (NSFHead.inference env self hubertIn pitchfIn pitchIIn w) = inl e.
Proof.
  intros Hnames Hshape.
  rewrite (inference_run _ _ _ _ _ _ _ _ _ _ _ _ _ _ _ _ Hnames Hshape).
  cbv zeta. cbn [fst snd log_event events after_noise].
  repeat split.
  intros e He. now rewrite He.
Qed.

Lemma inference_does_not_validate_witness :
  events (fst (NSFHead.inference (env_with (fixed_vocoder no_samples))
                 (fixed_head no_samples)
                 two_frames three_pitches three_codes empty_world))
  = events empty_world
      ++ [OrtRun (session_path (NSFHead.model (fixed_head no_samples))) None
            (vocoder_feeds (env_with (fixed_vocoder no_samples)) empty_world
               "phone" "phone_lengths" "pitch" "pitchf" "ds" "rnd" 2
               two_frames three_pitches three_codes)]
  /\ snd (NSFHead.inference (env_with (fixed_vocoder no_samples))
            (fixed_head no_samples)
            two_frames three_pitches three_codes empty_world)
     = waveform_of
         (session_run (NSFHead.model (fixed_head no_samples)) None
            (vocoder_feeds (env_with (fixed_vocoder no_samples)) empty_world
               "phone" "phone_lengths" "pitch" "pitchf" "ds" "rnd" 2
               two_frames three_pitches three_codes))
  /\ forall e : exn,
       session_run (NSFHead.model (fixed_head no_samples)) None
         (vocoder_feeds (env_with (fixed_vocoder no_samples)) empty_world
            "phone" "phone_lengths" "pitch" "pitchf" "ds" "rnd" 2
            two_frames three_pitches three_codes) = inl e ->
       snd (NSFHead.inference (env_with (fixed_vocoder no_samples))
              (fixed_head no_samples)
              two_frames three_pitches three_codes empty_world) = inl e.
Proof.
  apply (inference_does_not_validate
           (env_with (fixed_vocoder no_samples)) (fixed_head no_samples)
           two_frames three_pitches three_codes empty_world
           "phone" "phone_lengths" "pitch" "pitchf" "ds" "rnd" []
           1 2 [1]).
  - reflexivity.
  - reflexivity.
Defined.

(** ** to_waveform: the call it makes *)

Lemma np_reshape_row_vector {A} (n : nat) (l : list A) :
  np_reshape_row (mk_ndarray [n] l) = inr (mk_ndarray [1; n] l).
Proof.
  unfold np_reshape_row. cbn [shape data numel fold_right].
  now rewrite Nat.mul_1_r, Nat.eqb_refl.
Qed.

Lemma init_cpu (env : environment) (path : string) (sr : Z) (w : world) :
  NSFHead.init env path sr (Some "cpu") w =
  (log_event (OrtLoad path ["CPUExecutionProvider"]) w,
   match ort_load env path ["CPUExecutionProvider"] with
   | inl e => inl e
   | inr s => inr {| NSFHead.model := s; NSFHead.sampling_rate := sr |}
   end).
Proof.
  unfold NSFHead.init, bind, ret, InferenceSession_new.
  cbn [String.eqb Ascii.eqb Bool.eqb].
  destruct (ort_load env path _); reflexivity.
Qed.

(** Once the mel tensor is aligned, the model file loads and the session
    declares six inputs, [to_waveform] loads the vocoder, draws the noise
    and makes one call into the session. *)
Lemma to_waveform_run (env : environment) (mel hubert : ndarray R) (w : world)
  (sess : InferenceSession)
  (n0 n1 n2 n3 n4 n5 : string) (rest : list string)
  (batch frames : nat) (dims : list nat) :
  align mel = inr hubert ->
  shape hubert = batch :: frames :: dims ->
  ort_load env model_path ["CPUExecutionProvider"] = inr sess ->
  input_names sess = n0 :: n1 :: n2 :: n3 :: n4 :: n5 :: rest ->
  to_waveform env mel w =
  let loaded := log_event (OrtLoad model_path ["CPUExecutionProvider"]) w in
  let feeds :=
    vocoder_feeds env loaded n0 n1 n2 n3 n4 n5 frames
      (Float32 hubert) (Float32 (pitchf_row frames))
      (Int64 (pitch_row frames)) in
  (log_event (OrtRun (session_path sess) None feeds)
     (after_noise frames loaded),
   squeezed (waveform_of (session_run sess None feeds))).
Proof.
  intros Halign Hshape Hload Hnames.
  unfold to_waveform. unfold bind at 1, lift at 1. rewrite Halign.
  unfold bind at 1, lift at 1, shape_at. rewrite Hshape. cbn [nth_error].
  unfold bind at 1, lift at 1.
  change (constant_pitch frames 0)
    with (mk_ndarray [frames] (data (constant_pitch frames 0))).
  rewrite np_reshape_row_vector.
  unfold bind at 1, lift at 1.
  change (coarse_pitch (mel_bound 50) (mel_bound 1100)
            (mk_ndarray [frames] (data (constant_pitch frames 0))))
    with (mk_ndarray [frames]
            (data (coarse_pitch (mel_bound 50) (mel_bound 1100)
                     (constant_pitch frames 0)))).
  rewrite np_reshape_row_vector.
  unfold bind at 1. rewrite init_cpu, Hload.
  unfold bind at 1.
  rewrite (inference_run env
             {| NSFHead.model := sess; NSFHead.sampling_rate := 40000 |}
             (Float32 hubert) _ _ _
             n0 n1 n2 n3 n4 n5 rest batch frames dims Hnames Hshape).
  cbv zeta. cbn [NSFHead.model astype_float32].
  unfold ret, squeezed, pitchf_row, pitch_row.
  destruct (waveform_of _); reflexivity.
Qed.

Lemma forward_events (self : NSFHead.t)
  (hubert hubert_length pitch pitchf ds rnd : tensor) (w : world) :
  exists new : list event,
    events (fst (NSFHead.forward self hubert hubert_length pitch pitchf ds rnd w))
    = events w ++ new
    /\ Forall vocoder_event new.
Proof.
  destruct (input_names (NSFHead.model self))
    as [ | n0 [ | n1 [ | n2 [ | n3 [ | n4 [ | n5 rest ] ] ] ] ] ] eqn:Hnames;
    try (exists []; unfold NSFHead.forward, bind, lift, input_name, list_item;
         rewrite Hnames; cbn [nth_error fst events];
         rewrite app_nil_r; split; [ reflexivity | constructor ]).
  rewrite (forward_run _ _ _ _ _ _ _ _ _ _ _ _ _ _ _ Hnames).
  cbv zeta. cbn [fst log_event events].
  eexists. split; [ reflexivity | ].
  repeat constructor.
Qed.

Lemma inference_events (env : environment) (self : NSFHead.t)
  (hubertIn pitchfIn pitchIIn : tensor) (w : world) :
  exists new : list event,
    events (fst (NSFHead.inference env self hubertIn pitchfIn pitchIIn w))
    = events w ++ new
    /\ Forall vocoder_event new.
Proof.
  unfold NSFHead.inference. unfold bind at 1, lift at 1.
  destruct (shape_at (tensor_shape hubertIn) 1) as [e | frames].
  { exists []. cbn [fst]. rewrite app_nil_r. split; [ reflexivity | constructor ]. }
  unfold bind at 1, np_random_randn. unfold bind at 1.
  match goal with
  | |- context [NSFHead.forward ?s ?a ?b ?c ?d ?e ?f ?w0] =>
      destruct (forward_events s a b c d e f w0) as [new [Hev Hall]];
      destruct (NSFHead.forward s a b c d e f w0) as [w1 [err | out]]
  end; cbn [fst events] in *; exists new; split; assumption.
Qed.

Lemma to_waveform_events (env : environment) (mel : ndarray R) (w : world) :
  exists new : list event,
    events (fst (to_waveform env mel w)) = events w ++ new
    /\ Forall vocoder_event new.
Proof.
  unfold to_waveform. unfold bind at 1, lift at 1.
  destruct (align mel) as [e | hubert].
  { exists []. cbn [fst]. rewrite app_nil_r. split; [ reflexivity | constructor ]. }
  unfold bind at 1, lift at 1.
  destruct (shape_at (shape hubert) 1) as [e | frames].
  { exists []. cbn [fst]. rewrite app_nil_r. split; [ reflexivity | constructor ]. }
  unfold bind at 1, lift at 1.
  change (constant_pitch frames 0)
    with (mk_ndarray [frames] (data (constant_pitch frames 0))).
  rewrite np_reshape_row_vector.
  unfold bind at 1, lift at 1.
  change (coarse_pitch (mel_bound 50) (mel_bound 1100)
            (mk_ndarray [frames] (data (constant_pitch frames 0))))
    with (mk_ndarray [frames]
            (data (coarse_pitch (mel_bound 50) (mel_bound 1100)
                     (constant_pitch frames 0)))).
  rewrite np_reshape_row_vector.
  unfold bind at 1. rewrite init_cpu.
  destruct (ort_load env model_path _) as [e | sess].
  { exists [OrtLoad model_path ["CPUExecutionProvider"]].
    cbn [fst log_event events]. split; [ reflexivity | ].
    repeat constructor. }
  unfold bind at 1.
  match goal with
  | |- context [NSFHead.inference ?v ?s ?a ?b ?c ?w0] =>
      destruct (inference_events v s a b c w0) as [new [Hev Hall]];
      destruct (NSFHead.inference v s a b c w0) as [w1 [err | out]]
  end; unfold ret; cbn [fst events log_event] in *;
    exists (OrtLoad model_path ["CPUExecutionProvider"] :: new);
    (split; [ rewrite Hev, <- app_assoc; reflexivity
            | constructor; [ split; reflexivity | exact Hall ] ]).
Qed.

Lemma align_shape (mel : ndarray R) (D T : nat) :
  shape mel = [1; D; T] ->
  exists hubert : ndarray R,
    align mel = inr hubert /\ shape hubert = [1; 2 * T; D].
Proof.
  intros Hs. eexists. split; [ apply (align_value mel D T Hs) | reflexivity ].
Qed.





(** ** The code of 220 Hz *)

Lemma ln_quotient (x y : R) :
  (0 < x)%R -> (0 < y)%R -> ln (x / y) = (ln x - ln y)%R.
Proof.
  intros Hx Hy. unfold Rdiv.
  rewrite ln_mult by (try apply Rinv_0_lt_compat; assumption).
  rewrite ln_Rinv by assumption. lra.
Qed.

Lemma ln_powers_lt (a b : R) (p q : nat) :
  (0 < a)%R -> (0 < b)%R -> (a ^ p < b ^ q)%R ->
  (INR p * ln a < INR q * ln b)%R.
Proof.
  intros Ha Hb Hlt.
  rewrite <- !ln_pow by assumption.
  apply ln_increasing; [ | exact Hlt ].
  now apply pow_lt.
Qed.

Lemma round_half_even_near (x : R) (z : Z) :
  (IZR z - 1 / 2 < x < IZR z + 1 / 2)%R -> round_half_even x = z.
Proof.
  intros [Hlo Hhi]. unfold round_half_even.
  destruct (Rlt_dec x (IZR z)) as [Hlt | Hge].
  - rewrite (Int_part_unique x (z - 1)) by (rewrite minus_IZR; lra).
    rewrite minus_IZR.
    destruct (Rlt_dec (x - (IZR z - 1)) (1 / 2)) as [H | _]; [ lra | ].
    destruct (Rlt_dec (1 / 2) (x - (IZR z - 1))) as [_ | H]; [ lia | lra ].
  - rewrite (Int_part_unique x z) by lra.
    destruct (Rlt_dec (x - IZR z) (1 / 2)) as [_ | H]; [ reflexivity | lra ].
Qed.

(** The mel value of 220 Hz, rescaled between the mel values of 50 Hz
    and 1100 Hz, lies strictly between 59.5 and 60.5. *)
Lemma rescaled_220 :
  (59.5 < rescale_voiced (mel_bound 50) (mel_bound 1100) (mel_scale 220)
   < 60.5)%R.
Proof.
  unfold mel_bound, mel_scale.
  replace (1 + 220 / 700)%R with (46 / 35)%R by lra.
  replace (1 + 50 / 700)%R with (15 / 14)%R by lra.
  replace (1 + 1100 / 700)%R with (18 / 7)%R by lra.
  assert (Hn : (ln (46 / 35) - ln (15 / 14) = ln (92 / 75))%R).
  { rewrite <- ln_quotient by lra. f_equal. lra. }
  assert (Hd : (ln (18 / 7) - ln (15 / 14) = ln (12 / 5))%R).
  { rewrite <- ln_quotient by lra. f_equal. lra. }
  assert (Hpos : (0 < ln (46 / 35))%R).
  { rewrite <- ln_1. apply ln_increasing; lra. }
  assert (Hden : (0 < ln (12 / 5))%R).
  { rewrite <- ln_1. apply ln_increasing; lra. }
  assert (Hlow : (3 * ln (12 / 5) < 13 * ln (92 / 75))%R).
  { assert (H : (INR 3 * ln (12 / 5) < INR 13 * ln (92 / 75))%R).
    { apply ln_powers_lt; lra. }
    cbn [INR] in H. lra. }
  assert (Hhigh : (47 * ln (92 / 75) < 11 * ln (12 / 5))%R).
  { assert (H : (INR 47 * ln (92 / 75) < INR 11 * ln (12 / 5))%R).
    { apply ln_powers_lt; lra. }
    cbn [INR] in H. lra. }
  unfold rescale_voiced.
  destruct (Rlt_dec 0 (1127 * ln (46 / 35))) as [_ | H]; [ | lra ].
  replace ((1127 * ln (46 / 35) - 1127 * ln (15 / 14)) * 254
           / (1127 * ln (18 / 7) - 1127 * ln (15 / 14)) + 1)%R
    with (254 * (ln (92 / 75) / ln (12 / 5)) + 1)%R
    by (rewrite <- Hn, <- Hd; field; rewrite Hd; lra).
  assert (Hratio : (3 / 13 < ln (92 / 75) / ln (12 / 5) < 11 / 47)%R).
  { assert (Ht : (ln (92 / 75) / ln (12 / 5) * ln (12 / 5)
                  = ln (92 / 75))%R) by (field; lra).
    split; apply (Rmult_lt_reg_r (ln (12 / 5))); try exact Hden;
      rewrite Ht; lra. }
  lra.
Qed.

(** ** to_waveform: the pitch it feeds *)

Lemma constant_pitch_data (n : nat) :
  data (constant_pitch n 0) = repeat 220%R n.
Proof.
  unfold constant_pitch, np_full, map_data. cbn [shape data].
  rewrite map_repeat. f_equal.
  replace (0 / 12)%R with 0%R by lra.
  rewrite Rpower_O by lra. lra.
Qed.

Lemma constant_pitch_codes (n : nat) :
  data (coarse_pitch (mel_bound 50) (mel_bound 1100) (constant_pitch n 0))
  = repeat 60%Z n.
Proof.
  rewrite coarse_pitch_data, constant_pitch_data, map_repeat. f_equal.
  pose proof rescaled_220 as [Hlo Hhi].
  unfold clip_low.
  destruct (Rle_dec _ 1) as [H | _]; [ lra | ].
  unfold clip_high.
  destruct (Rlt_dec 255 _) as [H | _]; [ lra | ].
  unfold np_rint.
  rewrite (round_half_even_near _ 60) by lra.
  rewrite trunc_IZR. now rewrite wrap_signed_64_small by lia.
Qed.

(** C10 (constant pitch in the active path).  Every call [to_waveform]
    makes into onnxruntime belongs to the vocoder: it never runs the
    pitch extractor.  For a mel tensor of shape [1, D, T], once the
    vocoder file loads and the session declares six inputs, the one call
    into the session carries hidden features of shape [1, 2T, D], the
    length 2T, a pitch track of shape [1, 2T] that is 220.0 at every
    frame and a coarse pitch array of shape [1, 2T] that holds one and
    the same code at every frame, the code 60 of 220 Hz. *)
Theorem to_waveform_constant_pitch (env : environment) (mel : ndarray R)
  (w : world) :
  (exists new : list event,
     events (fst (to_waveform env mel w)) = events w ++ new
     /\ Forall vocoder_event new)
  /\ forall (D T : nat) (sess : InferenceSession)
       (n0 n1 n2 n3 n4 n5 : string) (rest : list string),
       shape mel = [1; D; T] ->
       ort_load env model_path ["CPUExecutionProvider"] = inr sess ->
       input_names sess = n0 :: n1 :: n2 :: n3 :: n4 :: n5 :: rest ->
       exists (hubert : ndarray R) (code : Z),
         align mel = inr hubert
         /\ shape hubert = [1; 2 * T; D]
         /\ code = 60%Z
         /\ events (fst (to_waveform env mel w))
            = events w
                ++ [OrtLoad model_path ["CPUExecutionProvider"];
                    OrtRun (session_path sess) None
                      (dict_literal
                         [(n0, Float32 hubert);
                          (n1, Int64 (mk_ndarray [1] [Z.of_nat (2 * T)]));
                          (n2, Int64 (mk_ndarray [1; 2 * T]
                                        (repeat code (2 * T))));
                          (n3, Float32 (mk_ndarray [1; 2 * T]
                                          (repeat 220%R (2 * T))));
                          (n4, Int64 (mk_ndarray [1] [0%Z]));
                          (n5, noise_of env (2 * T) w)])].
Proof.
  split; [ apply to_waveform_events | ].
  intros D T sess n0 n1 n2 n3 n4 n5 rest Hs Hload Hnames.
  destruct (align_shape mel D T Hs) as [hubert [Halign Hshape]].
  pose proof (constant_pitch_codes (2 * T)) as Hcodes.
  exists hubert, 60%Z.
  split; [ exact Halign | ].
  split; [ exact Hshape | ].
  split; [ reflexivity | ].
  rewrite (to_waveform_run env mel hubert w sess n0 n1 n2 n3 n4 n5 rest
             1 (2 * T) [D] Halign Hshape Hload Hnames).
  cbv zeta. cbn [fst log_event events after_noise].
  rewrite <- app_assoc. cbn [app].
  unfold vocoder_feeds, pitchf_row, pitch_row.
  cbn [astype_int64 astype_float32].
  rewrite Hcodes, constant_pitch_data.
  reflexivity.
Qed.

Lemma to_waveform_constant_pitch_witness :
  exists (hubert : ndarray R) (code : Z),
    align small_mel = inr hubert
    /\ shape hubert = [1; 2 * 2; 2]
    /\ code = 60%Z
    /\ events (fst (to_waveform (env_with (fixed_vocoder no_samples))
                      small_mel empty_world))
       = events empty_world
           ++ [OrtLoad model_path ["CPUExecutionProvider"];
               OrtRun (session_path (fixed_vocoder no_samples)) None
                 (dict_literal
                    [("phone", Float32 hubert);
                     ("phone_lengths",
                      Int64 (mk_ndarray [1] [Z.of_nat (2 * 2)]));
                     ("pitch", Int64 (mk_ndarray [1; 2 * 2]
                                        (repeat code (2 * 2))));
                     ("pitchf", Float32 (mk_ndarray [1; 2 * 2]
                                           (repeat 220%R (2 * 2))));
                     ("ds", Int64 (mk_ndarray [1] [0%Z]));
                     ("rnd", noise_of (env_with (fixed_vocoder no_samples))
                               (2 * 2) empty_world)])].
Proof.
  apply (proj2 (to_waveform_constant_pitch
                  (env_with (fixed_vocoder no_samples)) small_mel empty_world)
           2 2 (fixed_vocoder no_samples)
           "phone" "phone_lengths" "pitch" "pitchf" "ds" "rnd" []).
  - reflexivity.
  - reflexivity.
  - reflexivity.
Defined.

(** ** RMVPEOnnxPitchExtractor.extract *)

(** On one-dimensional audio and a one-dimensional buffer, the body of
    [extract] makes one call into the pitch model and then either fails
    without touching the buffer or stores the new content. *)
Lemma extract_body_run (self : RMVPEOnnxPitchExtractor.t)
  (audio : RMVPEOnnxPitchExtractor.audio_arg)
  (pitchf : RMVPEOnnxPitchExtractor.pitchf_arg)
  (f0_up_key sr window : Z) (silence_front : R) (w w0 : world)
  (a : ndarray R) (r : nat) :
  as_array audio = Some a ->
  resolve_pitchf pitchf w = Some (r, w0) ->
  ndim a = 1 ->
  ndim (nth r (heap w0) empty_array) = 1 ->
  RMVPEOnnxPitchExtractor.extract_body self audio pitchf
    f0_up_key sr window silence_front w =
  let buffer := nth r (heap w0) empty_array in
  let feeds := pitch_feeds self a sr in
  let session := RMVPEOnnxPitchExtractor.model self in
  let w1 := log_event (OrtRun (session_path session) (Some ["f0"; "uv"]) feeds)
              w0 in
  match tail_write f0_up_key buffer
          (session_run session (Some ["f0"; "uv"]) feeds) with
  | inl e => (w1, inl e)
  | inr written =>
      ({| rng := rng w1; events := events w1;
          heap := list_update (heap w1) r written |},
       inr (coarse_pitch (RMVPEOnnxPitchExtractor.f0_mel_min self)
              (RMVPEOnnxPitchExtractor.f0_mel_max self) written, r))
  end.
Proof.
  intros Haudio Hpitchf Ha Hb.
  assert (Hstart :
    RMVPEOnnxPitchExtractor.extract_body self audio pitchf
      f0_up_key sr window silence_front w =
    RMVPEOnnxPitchExtractor.extract_body self
      (RMVPEOnnxPitchExtractor.AudioArray a)
      (RMVPEOnnxPitchExtractor.PitchArray r)
      f0_up_key sr window silence_front w0).
  { destruct audio as [a' | a' | ty]; cbn in Haudio; inversion Haudio; subst a';
      destruct pitchf as [r' | b | ty]; cbn in Hpitchf; inversion Hpitchf;
      subst; reflexivity. }
  rewrite Hstart. clear Hstart Haudio Hpitchf.
  unfold RMVPEOnnxPitchExtractor.extract_body.
  unfold bind at 1, ret at 1. unfold bind at 1, ret at 1.
  rewrite Ha. cbn [Nat.eqb].
  unfold bind at 1, ret at 1.
  unfold bind at 1, heap_read at 1, gets.
  fold empty_array. rewrite Hb. cbn [Nat.eqb].
  unfold bind at 1, ret at 1.
  unfold bind at 1, run.
  cbv zeta. fold (pitch_feeds self a sr).
  unfold tail_write.
  destruct (session_run _ _ _) as [e | output]; [ reflexivity | ].
  unfold bind at 1, lift at 1.
  destruct (list_item output 0) as [e | output0]; [ reflexivity | ].
  unfold bind at 1, lift at 1.
  destruct (RMVPEOnnxPitchExtractor.scaled_f0 output0 f0_up_key)
    as [e | f0]; [ reflexivity | ].
  unfold bind at 1, heap_read at 1, gets.
  cbn [heap log_event]. fold empty_array.
  unfold bind at 1, lift at 1.
  destruct (shape_at (shape (nth r (heap w0) empty_array)) 0)
    as [e | buffer_len]; [ reflexivity | ].
  unfold bind at 1, lift at 1.
  destruct (np_slice_to f0 (Z.of_nat buffer_len)) as [e | head];
    [ reflexivity | ].
  unfold bind at 1, lift at 1.
  destruct (shape_at (shape f0) 0) as [e | f0_len]; [ reflexivity | ].
  unfold bind at 1, lift at 1.
  destruct (setitem_from _ _ head) as [e | written]; reflexivity.
Qed.

Lemma extract_wraps (self : RMVPEOnnxPitchExtractor.t)
  (audio : RMVPEOnnxPitchExtractor.audio_arg)
  (pitchf : RMVPEOnnxPitchExtractor.pitchf_arg)
  (f0_up_key sr window : Z) (silence_front : R) (w : world) :
  RMVPEOnnxPitchExtractor.extract self audio pitchf
    f0_up_key sr window silence_front w =
  (fst (RMVPEOnnxPitchExtractor.extract_body self audio pitchf
          f0_up_key sr window silence_front w),
   match snd (RMVPEOnnxPitchExtractor.extract_body self audio pitchf
                f0_up_key sr window silence_front w) with
   | inl e => inl (wrapped e)
   | inr v => inr v
   end).
Proof.
  unfold RMVPEOnnxPitchExtractor.extract, try_except, raise, wrapped.
  destruct (RMVPEOnnxPitchExtractor.extract_body _ _ _ _ _ _ _ _)
    as [w' [e | v]]; reflexivity.
Qed.

Lemma nth_error_list_update {A} (l : list A) (x : A) :
  forall r, r < List.length l -> nth_error (list_update l r x) r = Some x.
Proof.
  induction l as [ | y l IH ]; intros r Hr; [ cbn in Hr; lia | ].
  destruct r as [ | r ]; [ reflexivity | ].
  cbn [list_update nth_error]. apply IH. cbn in Hr. lia.
Qed.

Lemma skipn_min {A} (l : list A) (k : nat) :
  skipn (Nat.min k (List.length l)) l = skipn k l.
Proof.
  destruct (Nat.le_gt_cases k (List.length l)) as [H | H].
  - now rewrite Nat.min_l.
  - rewrite Nat.min_r, skipn_all by lia.
    symmetry. apply skipn_all2. lia.
Qed.







(** ** extract: the lead-in it drops *)

(** In exact arithmetic [int(0.01 * sr)] is the hundredth part of a
    non-negative rate, rounded down. *)
Lemma lead_in_hundredth (sr : Z) :
  (0 <= sr)%Z -> RMVPEOnnxPitchExtractor.lead_in sr = (sr / 100)%Z.
Proof.
  intros Hsr. unfold RMVPEOnnxPitchExtractor.lead_in.
  pose proof (Z.div_mod sr 100 ltac:(lia)) as Hdm.
  pose proof (Z.mod_pos_bound sr 100 ltac:(lia)) as Hmod.
  assert (Hq : (0 <= sr / 100)%Z) by (apply Z.div_pos; lia).
  apply trunc_nonneg; [ | exact Hq ].
  assert (HR : IZR sr = (100 * IZR (sr / 100) + IZR (sr mod 100))%R).
  { rewrite Hdm at 1. rewrite plus_IZR, mult_IZR. reflexivity. }
  destruct Hmod as [Hm0 Hm1].
  apply IZR_le in Hm0. apply IZR_lt in Hm1.
  rewrite HR. lra.
Qed.

Example lead_in_16000 : RMVPEOnnxPitchExtractor.lead_in 16000 = 160%Z.
Proof. now rewrite lead_in_hundredth by lia. Qed.

Lemma extract_events (self : RMVPEOnnxPitchExtractor.t)
  (audio : RMVPEOnnxPitchExtractor.audio_arg)
  (pitchf : RMVPEOnnxPitchExtractor.pitchf_arg)
  (f0_up_key sr window : Z) (silence_front : R) (w w0 : world)
  (a : ndarray R) (r : nat) :
  as_array audio = Some a ->
  resolve_pitchf pitchf w = Some (r, w0) ->
  ndim a = 1 ->
  ndim (nth r (heap w0) empty_array) = 1 ->
  events (fst (RMVPEOnnxPitchExtractor.extract self audio pitchf
                 f0_up_key sr window silence_front w))
  = events w
      ++ [OrtRun (session_path (RMVPEOnnxPitchExtractor.model self))
            (Some ["f0"; "uv"]) (pitch_feeds self a sr)].
Proof.
  intros Haudio Hpitchf Ha Hb.
  assert (Hev : events w0 = events w).
  { destruct pitchf as [r' | b | ty]; cbn in Hpitchf; inversion Hpitchf;
      reflexivity. }
  rewrite extract_wraps.
  rewrite (extract_body_run self audio pitchf f0_up_key sr window
             silence_front w w0 a r Haudio Hpitchf Ha Hb).
  cbv zeta.
  destruct (tail_write _ _ _) as [e | written];
    cbn [fst log_event events]; now rewrite Hev.
Qed.

Lemma lead_in_waveform (a : ndarray R) (N : nat) (sr : Z) :
  shape a = [N] -> well_formed a -> (0 <= sr)%Z ->
  np_expand_dims0 (np_slice_from a (RMVPEOnnxPitchExtractor.lead_in sr))
  = mk_ndarray [1; N - Z.to_nat (RMVPEOnnxPitchExtractor.lead_in sr)]
      (skipn (Z.to_nat (RMVPEOnnxPitchExtractor.lead_in sr)) (data a)).
Proof.
  intros Hs Hwf Hsr.
  unfold well_formed in Hwf. rewrite Hs in Hwf.
  cbn [numel fold_right] in Hwf. rewrite Nat.mul_1_r in Hwf.
  assert (Hk : (0 <= RMVPEOnnxPitchExtractor.lead_in sr)%Z).
  { rewrite lead_in_hundredth by exact Hsr. apply Z.div_pos; lia. }
  unfold np_expand_dims0, np_slice_from, slice_from, slice_bound.
  cbn [shape data].
  destruct (Z.ltb_spec (RMVPEOnnxPitchExtractor.lead_in sr) 0) as [H | _];
    [ lia | ].
  rewrite skipn_min, length_skipn, Hwf. reflexivity.
Qed.

(** C8 (fixed lead-in trim).  [silence_front] has no influence on
    [extract]: two calls that differ only in it agree on the result and
    on everything they did.  And whatever [silence_front] is, on
    one-dimensional audio of N samples at a rate [sr >= 0], with a
    one-dimensional buffer, the pitch model is called once, on the audio
    without its first k samples, where k is the integer part of
    0.01 * sr, the hundredth part of the rate rounded down; the samples
    from position k on are passed in their order, N - k of them when
    k <= N. *)
Theorem lead_in_is_fixed (self : RMVPEOnnxPitchExtractor.t)
  (audio : RMVPEOnnxPitchExtractor.audio_arg)
  (pitchf : RMVPEOnnxPitchExtractor.pitchf_arg)
  (f0_up_key sr window : Z) (silence_front silence_front' : R)
  (w : world) :
  RMVPEOnnxPitchExtractor.extract self audio pitchf
    f0_up_key sr window silence_front w
  = RMVPEOnnxPitchExtractor.extract self audio pitchf
      f0_up_key sr window silence_front' w
  /\ forall (w0 : world) (a : ndarray R) (r N : nat),
       as_array audio = Some a ->
       resolve_pitchf pitchf w = Some (r, w0) ->
       shape a = [N] -> well_formed a ->
       ndim (nth r (heap w0) empty_array) = 1 ->
       (0 <= sr)%Z ->
       exists k : nat,
         (INR k <= 0.01 * IZR sr < INR k + 1)%R
         /\ Z.of_nat k = (sr / 100)%Z
         /\ events (fst (RMVPEOnnxPitchExtractor.extract self audio pitchf
                           f0_up_key sr window silence_front w))
            = events w
                ++ [OrtRun
                      (session_path (RMVPEOnnxPitchExtractor.model self))
                      (Some ["f0"; "uv"])
                      (dict_literal
                         [("waveform",
                           Float32 (mk_ndarray [1; N - k]
                                      (skipn k (data a))));
                          ("threshold",
                           Float32
                             (mk_ndarray [1]
                                [RMVPEOnnxPitchExtractor.threshold self]))])]
         /\ (forall i : nat,
               nth_error (skipn k (data a)) i = nth_error (data a) (k + i))
         /\ (k <= N -> List.length (skipn k (data a)) = N - k).
Proof.
  split; [ reflexivity | ].
  intros w0 a r N Haudio Hpitchf Hs Hwf Hb Hsr.
  assert (Hq : (0 <= sr / 100)%Z) by (apply Z.div_pos; lia).
  exists (Z.to_nat (sr / 100)).
  split.
  { rewrite INR_IZR_INZ, Z2Nat.id by exact Hq.
    pose proof (Z.div_mod sr 100 ltac:(lia)) as Hdm.
    pose proof (Z.mod_pos_bound sr 100 ltac:(lia)) as [Hm0 Hm1].
    assert (HR : IZR sr = (100 * IZR (sr / 100) + IZR (sr mod 100))%R).
    { rewrite Hdm at 1. rewrite plus_IZR, mult_IZR. reflexivity. }
    apply IZR_le in Hm0. apply IZR_lt in Hm1. rewrite HR. lra. }
  split; [ now apply Z2Nat.id | ].
  split.
  { rewrite (extract_events self audio pitchf f0_up_key sr window
               silence_front w w0 a r Haudio Hpitchf)
      by (try exact Hb; unfold ndim; now rewrite Hs).
    unfold pitch_feeds.
    rewrite (lead_in_waveform a N sr Hs Hwf Hsr).
    now rewrite (lead_in_hundredth sr Hsr). }
  split; [ intros i; apply nth_error_skipn | ].
  intros Hk.
  unfold well_formed in Hwf. rewrite Hs in Hwf.
  cbn [numel fold_right] in Hwf. rewrite Nat.mul_1_r in Hwf.
  rewrite length_skipn, Hwf. reflexivity.
Qed.

Lemma lead_in_is_fixed_witness :
  RMVPEOnnxPitchExtractor.extract
    (extractor_with (fixed_pitch_model two_frame_track))
    (RMVPEOnnxPitchExtractor.AudioArray count_samples)
    (RMVPEOnnxPitchExtractor.PitchArray 0)
    0 200 160 5 world_with_buffer
  = RMVPEOnnxPitchExtractor.extract
      (extractor_with (fixed_pitch_model two_frame_track))
      (RMVPEOnnxPitchExtractor.AudioArray count_samples)
      (RMVPEOnnxPitchExtractor.PitchArray 0)
      0 200 160 0 world_with_buffer
  /\ events (fst (RMVPEOnnxPitchExtractor.extract
                    (extractor_with (fixed_pitch_model two_frame_track))
                    (RMVPEOnnxPitchExtractor.AudioArray count_samples)
                    (RMVPEOnnxPitchExtractor.PitchArray 0)
                    0 200 160 5 world_with_buffer))
     = [OrtRun "rmvpe.onnx" (Some ["f0"; "uv"])
          [("waveform", Float32 (mk_ndarray [1; 2] [3%R; 4%R]));
           ("threshold", Float32 (mk_ndarray [1] [0.03%R]))]].
Proof.
  destruct (lead_in_is_fixed
              (extractor_with (fixed_pitch_model two_frame_track))
              (RMVPEOnnxPitchExtractor.AudioArray count_samples)
              (RMVPEOnnxPitchExtractor.PitchArray 0)
              0 200 160 5 0 world_with_buffer) as [Hsame Htrim].
  split; [ exact Hsame | ].
  destruct (Htrim world_with_buffer count_samples 0 4
              eq_refl eq_refl eq_refl eq_refl eq_refl ltac:(lia))
    as (k & _ & Hk & Hevents & _).
  change (200 / 100)%Z with 2%Z in Hk.
  assert (k = 2) by lia. subst k.
  exact Hevents.
Defined.

(** ** extract: failures *)

Lemma extract_body_no_audio (self : RMVPEOnnxPitchExtractor.t)
  (type_name : string) (pitchf : RMVPEOnnxPitchExtractor.pitchf_arg)
  (f0_up_key sr window : Z) (silence_front : R) (w : world) :
  RMVPEOnnxPitchExtractor.extract_body self
    (RMVPEOnnxPitchExtractor.AudioObject type_name) pitchf
    f0_up_key sr window silence_front w
  = (w, inl (AttributeError
               ("'" ++ type_name ++ "' object has no attribute 'cpu'"))).
Proof. reflexivity. Qed.

Lemma extract_body_bad_audio (self : RMVPEOnnxPitchExtractor.t)
  (audio : RMVPEOnnxPitchExtractor.audio_arg)
  (pitchf : RMVPEOnnxPitchExtractor.pitchf_arg)
  (f0_up_key sr window : Z) (silence_front : R) (w w0 : world)
  (a : ndarray R) (r : nat) :
  as_array audio = Some a ->
  resolve_pitchf pitchf w = Some (r, w0) ->
  ndim a <> 1 ->
  RMVPEOnnxPitchExtractor.extract_body self audio pitchf
    f0_up_key sr window silence_front w
  = (w0, inl (RuntimeError
                (RMVPEOnnxPitchExtractor.ndim_message "audio" a))).
Proof.
  intros Haudio Hpitchf Ha.
  apply Nat.eqb_neq in Ha.
  destruct audio as [a' | a' | ty]; cbn in Haudio; inversion Haudio; subst a';
    destruct pitchf as [r' | b | ty]; cbn in Hpitchf; inversion Hpitchf;
    subst; unfold RMVPEOnnxPitchExtractor.extract_body;
    unfold bind at 1, ret at 1; unfold bind at 1;
    cbn [ret heap_alloc]; unfold bind at 1; rewrite Ha; reflexivity.
Qed.

Lemma extract_body_bad_pitchf (self : RMVPEOnnxPitchExtractor.t)
  (audio : RMVPEOnnxPitchExtractor.audio_arg)
  (pitchf : RMVPEOnnxPitchExtractor.pitchf_arg)
  (f0_up_key sr window : Z) (silence_front : R) (w w0 : world)
  (a : ndarray R) (r : nat) :
  as_array audio = Some a ->
  resolve_pitchf pitchf w = Some (r, w0) ->
  ndim a = 1 ->
  ndim (nth r (heap w0) empty_array) <> 1 ->
  RMVPEOnnxPitchExtractor.extract_body self audio pitchf
    f0_up_key sr window silence_front w
  = (w0, inl (RuntimeError
                (RMVPEOnnxPitchExtractor.ndim_message "pitchf"
                   (nth r (heap w0) empty_array)))).
Proof.
  intros Haudio Hpitchf Ha Hb.
  apply Nat.eqb_neq in Hb.
  destruct audio as [a' | a' | ty]; cbn in Haudio; inversion Haudio; subst a';
    destruct pitchf as [r' | b | ty]; cbn in Hpitchf; inversion Hpitchf;
    subst; unfold RMVPEOnnxPitchExtractor.extract_body;
    unfold bind at 1, ret at 1; unfold bind at 1;
    cbn [ret heap_alloc]; unfold bind at 1; rewrite Ha; cbn [Nat.eqb];
    unfold ret at 1; unfold bind at 1, heap_read at 1, gets;
    fold empty_array; unfold bind at 1; rewrite Hb; reflexivity.
Qed.

(** C9 (extraction error wrapping).  Whatever exception [e] stops the
    body of [extract], the call raises
    [RuntimeError("Exception in RMVPEOnnxPitchExtractor", e)] in the
    state the body reached, and it raises nothing else; a body that
    succeeds gives the call its result.  In particular audio or a pitch
    buffer that is not one-dimensional is reported that way before the
    pitch model is called, and an exception of the pitch model comes out
    wrapped.  A call that fails returns nothing and leaves a buffer that
    was passed as an array as it was. *)
Theorem extract_wraps_failures (self : RMVPEOnnxPitchExtractor.t)
  (audio : RMVPEOnnxPitchExtractor.audio_arg)
  (pitchf : RMVPEOnnxPitchExtractor.pitchf_arg)
  (f0_up_key sr window : Z) (silence_front : R) (w : world) :
  let body := RMVPEOnnxPitchExtractor.extract_body self audio pitchf
                f0_up_key sr window silence_front w in
  let call := RMVPEOnnxPitchExtractor.extract self audio pitchf
                f0_up_key sr window silence_front w in
  fst call = fst body
  /\ (forall e : exn,
        snd body = inl e ->
        snd call
        = inl (RuntimeErrorFrom "Exception in RMVPEOnnxPitchExtractor" e))
  /\ (forall v, snd body = inr v -> snd call = inr v)
  /\ (forall e' : exn,
        snd call = inl e' ->
        exists e : exn,
          e' = RuntimeErrorFrom "Exception in RMVPEOnnxPitchExtractor" e
          /\ snd body = inl e)
  /\ (forall (a : ndarray R) (r : nat) (w0 : world),
        as_array audio = Some a ->
        resolve_pitchf pitchf w = Some (r, w0) ->
        ndim a <> 1 ->
        snd call
        = inl (RuntimeErrorFrom "Exception in RMVPEOnnxPitchExtractor"
                 (RuntimeError
                    (RMVPEOnnxPitchExtractor.ndim_message "audio" a)))
        /\ events (fst call) = events w)
  /\ (forall (a : ndarray R) (r : nat) (w0 : world),
        as_array audio = Some a ->
        resolve_pitchf pitchf w = Some (r, w0) ->
        ndim a = 1 ->
        ndim (nth r (heap w0) empty_array) <> 1 ->
        snd call
        = inl (RuntimeErrorFrom "Exception in RMVPEOnnxPitchExtractor"
                 (RuntimeError
                    (RMVPEOnnxPitchExtractor.ndim_message "pitchf"
                       (nth r (heap w0) empty_array))))
        /\ events (fst call) = events w)
  /\ (forall (a : ndarray R) (r : nat) (w0 : world) (e : exn),
        as_array audio = Some a ->
        resolve_pitchf pitchf w = Some (r, w0) ->
        ndim a = 1 ->
        ndim (nth r (heap w0) empty_array) = 1 ->
        session_run (RMVPEOnnxPitchExtractor.model self) (Some ["f0"; "uv"])
          (pitch_feeds self a sr) = inl e ->
        snd call
        = inl (RuntimeErrorFrom "Exception in RMVPEOnnxPitchExtractor" e))
  /\ (forall (r : nat) (e' : exn),
        pitchf = RMVPEOnnxPitchExtractor.PitchArray r ->
        snd call = inl e' ->
        heap (fst call) = heap w).
Proof.
  intros body call.
  assert (Hcall : call = (fst body,
                          match snd body with
                          | inl e => inl (wrapped e)
                          | inr v => inr v
                          end)) by apply extract_wraps.
  assert (Hev0 : forall r w0, resolve_pitchf pitchf w = Some (r, w0) ->
                              events w0 = events w).
  { intros r w0 H. destruct pitchf as [r' | b | ty]; cbn in H;
      inversion H; reflexivity. }
  split; [ now rewrite Hcall | ].
  split; [ intros e He; rewrite Hcall; cbn [snd]; now rewrite He | ].
  split; [ intros v Hv; rewrite Hcall; cbn [snd]; now rewrite Hv | ].
  split.
  { intros e' He'. rewrite Hcall in He'. cbn [snd] in He'.
    destruct (snd body) as [e | v]; [ | discriminate He' ].
    exists e. inversion He'. split; reflexivity. }
  split.
  { intros a r w0 Haudio Hpitchf Ha.
    rewrite Hcall. subst body.
    rewrite (extract_body_bad_audio self audio pitchf f0_up_key sr window
               silence_front w w0 a r Haudio Hpitchf Ha).
    cbn [fst snd]. split; [ reflexivity | now apply (Hev0 r) ]. }
  split.
  { intros a r w0 Haudio Hpitchf Ha Hb.
    rewrite Hcall. subst body.
    rewrite (extract_body_bad_pitchf self audio pitchf f0_up_key sr window
               silence_front w w0 a r Haudio Hpitchf Ha Hb).
    cbn [fst snd]. split; [ reflexivity | now apply (Hev0 r) ]. }
  split.
  { intros a r w0 e Haudio Hpitchf Ha Hb Hrun.
    rewrite Hcall. subst body.
    rewrite (extract_body_run self audio pitchf f0_up_key sr window
               silence_front w w0 a r Haudio Hpitchf Ha Hb).
    cbv zeta. rewrite Hrun. reflexivity. }
  intros r e' Hp He'. subst pitchf.
  rewrite Hcall in He' |- *. cbn [fst snd] in He' |- *. subst body.
  destruct (as_array audio) as [a | ] eqn:Haudio.
  - destruct (Nat.eq_dec (ndim a) 1) as [Ha | Ha].
    + destruct (Nat.eq_dec (ndim (nth r (heap w) empty_array)) 1)
        as [Hb | Hb].
      * rewrite (extract_body_run self audio
                   (RMVPEOnnxPitchExtractor.PitchArray r) f0_up_key sr window
                   silence_front w w a r Haudio eq_refl Ha Hb) in He' |- *.
        cbv zeta in He' |- *.
        destruct (tail_write _ _ _) as [e | written];
          [ reflexivity | discriminate He' ].
      * now rewrite (extract_body_bad_pitchf self audio
                       (RMVPEOnnxPitchExtractor.PitchArray r) f0_up_key sr
                       window silence_front w w a r Haudio eq_refl Ha Hb).
    + now rewrite (extract_body_bad_audio self audio
                     (RMVPEOnnxPitchExtractor.PitchArray r) f0_up_key sr window
                     silence_front w w a r Haudio eq_refl Ha).
  - destruct audio as [a | a | ty]; try discriminate Haudio.
    now rewrite extract_body_no_audio.
Qed.

Lemma extract_wraps_failures_witness :
  snd (RMVPEOnnxPitchExtractor.extract (extractor_with failing_pitch_model)
         (RMVPEOnnxPitchExtractor.AudioArray four_samples)
         (RMVPEOnnxPitchExtractor.PitchArray 0)
         0 200 160 0 world_with_buffer)
  = inl (RuntimeErrorFrom "Exception in RMVPEOnnxPitchExtractor" (OrtError 6))
  /\ snd (RMVPEOnnxPitchExtractor.extract (extractor_with failing_pitch_model)
            (RMVPEOnnxPitchExtractor.AudioArray stereo_samples)
            (RMVPEOnnxPitchExtractor.PitchArray 0)
            0 200 160 0 world_with_buffer)
     = inl (RuntimeErrorFrom "Exception in RMVPEOnnxPitchExtractor"
              (RuntimeError
                 "Exception in RMVPEOnnxPitchExtractor: audio.ndim is not 1 (size: 2, shape: (2, 2))")).
Proof.
  split.
  - pose proof (extract_wraps_failures (extractor_with failing_pitch_model)
                  (RMVPEOnnxPitchExtractor.AudioArray four_samples)
                  (RMVPEOnnxPitchExtractor.PitchArray 0)
                  0 200 160 0 world_with_buffer) as H.
    cbv zeta in H.
    destruct H as (_ & _ & _ & _ & _ & _ & Hrun & _).
    apply (Hrun four_samples 0 world_with_buffer (OrtError 6)).
    + reflexivity.
    + reflexivity.
    + reflexivity.
    + reflexivity.
    + reflexivity.
  - pose proof (extract_wraps_failures (extractor_with failing_pitch_model)
                  (RMVPEOnnxPitchExtractor.AudioArray stereo_samples)
                  (RMVPEOnnxPitchExtractor.PitchArray 0)
                  0 200 160 0 world_with_buffer) as H.
    cbv zeta in H.
    destruct H as (_ & _ & _ & _ & Haudio & _).
    apply (Haudio stereo_samples 0 world_with_buffer).
    + reflexivity.
    + reflexivity.
    + cbn. lia.
Defined.

(* ================================================================== *)
(** * Further properties of the modelled code                          *)
(* ================================================================== *)

(** ** The coarse pitch code as a function of the pitch *)

Lemma round_half_even_close (x : R) :
  (IZR (round_half_even x) - 1 / 2 <= x <= IZR (round_half_even x) + 1 / 2)%R.
Proof.
  pose proof (Int_part_bounds x) as Hb.
  unfold round_half_even.
  destruct (Rlt_dec (x - IZR (Int_part x)) (1 / 2)) as [H1 | H1]; [ lra | ].
  destruct (Rlt_dec (1 / 2) (x - IZR (Int_part x))) as [H2 | H2].
  - rewrite plus_IZR. lra.
  - destruct (Z.even (Int_part x)); [ lra | rewrite plus_IZR; lra ].
Qed.

Lemma round_half_even_monotone (x y : R) :
  (x <= y)%R -> (round_half_even x <= round_half_even y)%Z.
Proof.
  intros Hxy.
  destruct (Z.le_gt_cases (round_half_even x) (round_half_even y))
    as [H | H]; [ exact H | ].
  pose proof (round_half_even_close x) as Hx.
  pose proof (round_half_even_close y) as Hy.
  assert (Hstep : (IZR (round_half_even y) + 1 <= IZR (round_half_even x))%R).
  { rewrite <- (plus_IZR _ 1). apply IZR_le. lia. }
  assert (Heq : x = y) by lra.
  subst y. lia.
Qed.

Lemma mel_scale_monotone (p q : R) :
  (0 <= p <= q)%R -> (0 <= mel_scale p <= mel_scale q)%R.
Proof.
  intros [Hp Hpq]. unfold mel_scale.
  assert (H0 : (0 <= ln (1 + p / 700))%R).
  { destruct (Req_dec p 0) as [-> | Hne].
    - replace (1 + 0 / 700)%R with 1%R by lra. rewrite ln_1. lra.
    - left. rewrite <- ln_1. apply ln_increasing; lra. }
  assert (H1 : (ln (1 + p / 700) <= ln (1 + q / 700))%R).
  { destruct (Req_dec p q) as [-> | Hne]; [ lra | ].
    left. apply ln_increasing; lra. }
  lra.
Qed.

Lemma clipped_rescale_monotone (lo hi x y : R) :
  (lo < hi)%R -> (0 <= x <= y)%R ->
  (clip_high (clip_low (rescale_voiced lo hi x))
   <= clip_high (clip_low (rescale_voiced lo hi y)))%R.
Proof.
  intros Hlh [Hx Hxy].
  assert (Hclip : forall a b, (a <= b)%R ->
                    (clip_high (clip_low a) <= clip_high (clip_low b))%R).
  { intros a b Hab. unfold clip_high, clip_low.
    destruct (Rle_dec a 1), (Rle_dec b 1);
      repeat match goal with
             | |- context [Rlt_dec ?u ?v] => destruct (Rlt_dec u v)
             end; lra. }
  unfold rescale_voiced.
  destruct (Rlt_dec 0 x) as [Hx0 | Hx0], (Rlt_dec 0 y) as [Hy0 | Hy0];
    try lra.
  - apply Hclip.
    assert (Hd : (0 < / (hi - lo))%R) by (apply Rinv_0_lt_compat; lra).
    unfold Rdiv.
    apply Rplus_le_compat_r, Rmult_le_compat_r; [ lra | ].
    apply Rmult_le_compat_r; lra.
  - assert (x = 0%R) by lra. subst x.
    pose proof (clipped_range ((y - lo) * 254 / (hi - lo) + 1)) as Hr.
    assert (Hone : clip_high (clip_low 0) = 1%R).
    { unfold clip_low. destruct (Rle_dec 0 1) as [_ | H]; [ | lra ].
      unfold clip_high. destruct (Rlt_dec 255 1) as [H | _]; lra. }
    rewrite Hone. lra.
  - apply Hclip. lra.
Qed.

Lemma mel_bounds_ordered : (0 < mel_bound 50 < mel_bound 1100)%R.
Proof.
  unfold mel_bound.
  replace (1 + 50 / 700)%R with (15 / 14)%R by lra.
  replace (1 + 1100 / 700)%R with (18 / 7)%R by lra.
  assert (H1 : (0 < ln (15 / 14))%R)
    by (rewrite <- ln_1; apply ln_increasing; lra).
  assert (H2 : (ln (15 / 14) < ln (18 / 7))%R)
    by (apply ln_increasing; lra).
  lra.
Qed.

(** X1.  For bounds [lo < hi], the coarse code does not decrease when the
    pitch rises: of two frames with pitches 0 <= p <= q, the code of the
    first is at most the code of the second. *)
Theorem coarse_pitch_monotone (lo hi : R) (pitch : ndarray R)
  (i j : nat) (p q : R) :
  (lo < hi)%R ->
  nth_error (data pitch) i = Some p ->
  nth_error (data pitch) j = Some q ->
  (0 <= p <= q)%R ->
  exists cp cq : Z,
    nth_error (data (coarse_pitch lo hi pitch)) i = Some cp
    /\ nth_error (data (coarse_pitch lo hi pitch)) j = Some cq
    /\ (cp <= cq)%Z.
Proof.
  intros Hlh Hi Hj Hpq.
  rewrite coarse_pitch_data.
  rewrite (map_nth_error _ _ _ Hi), (map_nth_error _ _ _ Hj).
  do 2 eexists. split; [ reflexivity | split; [ reflexivity | ] ].
  destruct (coarse_code_of_rint _
              (clipped_range (rescale_voiced lo hi (mel_scale p))))
    as [Hp _].
  destruct (coarse_code_of_rint _
              (clipped_range (rescale_voiced lo hi (mel_scale q))))
    as [Hq _].
  rewrite Hp, Hq.
  apply round_half_even_monotone, clipped_rescale_monotone;
    [ exact Hlh | ].
  now apply mel_scale_monotone.
Qed.

Lemma coarse_pitch_monotone_witness :
  exists cp cq : Z,
    nth_error (data (coarse_pitch (mel_bound 50) (mel_bound 1100)
                       two_frame_track)) 0 = Some cp
    /\ nth_error (data (coarse_pitch (mel_bound 50) (mel_bound 1100)
                          two_frame_track)) 1 = Some cq
    /\ (cp <= cq)%Z.
Proof.
  apply (coarse_pitch_monotone (mel_bound 50) (mel_bound 1100)
           two_frame_track 0 1 100 200).
  - exact (proj2 mel_bounds_ordered).
  - reflexivity.
  - reflexivity.
  - lra.
Defined.

(** X2.  With the bounds of the two files, the mel values of 50 Hz and
    1100 Hz, the code saturates: every pitch from 0 to 50 Hz has code 1
    and every pitch from 1100 Hz on has code 255. *)
Theorem coarse_pitch_saturates (pitch : ndarray R) (i : nat) (p : R) :
  nth_error (data pitch) i = Some p ->
  ((0 <= p <= 50)%R ->
   nth_error (data (coarse_pitch (mel_bound 50) (mel_bound 1100) pitch)) i
   = Some 1%Z)
  /\ ((1100 <= p)%R ->
      nth_error (data (coarse_pitch (mel_bound 50) (mel_bound 1100) pitch)) i
      = Some 255%Z).
Proof.
  intros Hi.
  pose proof mel_bounds_ordered as [Hlo Hlh].
  assert (Hd : (0 < / (mel_bound 1100 - mel_bound 50))%R)
    by (apply Rinv_0_lt_compat; lra).
  rewrite coarse_pitch_data, (map_nth_error _ _ _ Hi).
  split; intros Hp; f_equal.
  - assert (Hm : (0 <= mel_scale p <= mel_bound 50)%R).
    { change (mel_bound 50) with (mel_scale 50).
      split; [ apply (mel_scale_monotone p p); lra
             | apply (mel_scale_monotone p 50); lra ]. }
    assert (Hone : clip_low (rescale_voiced (mel_bound 50) (mel_bound 1100)
                               (mel_scale p)) = 1%R).
    { unfold clip_low, rescale_voiced.
      destruct (Rlt_dec 0 (mel_scale p)) as [H0 | H0].
      - destruct (Rle_dec _ 1) as [_ | H]; [ reflexivity | ].
        exfalso. apply H. unfold Rdiv.
        assert ((mel_scale p - mel_bound 50) * 254
                * / (mel_bound 1100 - mel_bound 50) <= 0)%R; [ | lra ].
        replace 0%R with (0 * / (mel_bound 1100 - mel_bound 50))%R by lra.
        apply Rmult_le_compat_r; lra.
      - destruct (Rle_dec (mel_scale p) 1) as [_ | H]; [ reflexivity | lra ]. }
    rewrite Hone. unfold clip_high.
    destruct (Rlt_dec 255 1) as [H | _]; [ lra | ].
    unfold np_rint. rewrite (round_half_even_IZR 1), trunc_IZR.
    now rewrite wrap_signed_64_small by lia.
  - assert (Hm : (mel_bound 1100 <= mel_scale p)%R).
    { change (mel_bound 1100) with (mel_scale 1100).
      apply (mel_scale_monotone 1100 p); lra. }
    assert (Htop : clip_high (clip_low (rescale_voiced (mel_bound 50)
                                          (mel_bound 1100) (mel_scale p)))
                   = 255%R).
    { unfold rescale_voiced.
      destruct (Rlt_dec 0 (mel_scale p)) as [_ | H]; [ | lra ].
      assert (Hge : (255 <= (mel_scale p - mel_bound 50) * 254
                            / (mel_bound 1100 - mel_bound 50) + 1)%R).
      { assert (Hfull : ((mel_bound 1100 - mel_bound 50) * 254
                         / (mel_bound 1100 - mel_bound 50) = 254)%R)
          by (field; lra).
        assert (Hmono : ((mel_bound 1100 - mel_bound 50) * 254
                         / (mel_bound 1100 - mel_bound 50)
                         <= (mel_scale p - mel_bound 50) * 254
                            / (mel_bound 1100 - mel_bound 50))%R).
        { unfold Rdiv. apply Rmult_le_compat_r; lra. }
        lra. }
      unfold clip_low.
      destruct (Rle_dec _ 1) as [H | _]; [ lra | ].
      unfold clip_high.
      destruct (Rlt_dec 255 _) as [_ | H]; [ reflexivity | lra ]. }
    rewrite Htop. unfold np_rint.
    rewrite (round_half_even_IZR 255), trunc_IZR.
    now rewrite wrap_signed_64_small by lia.
Qed.

Lemma coarse_pitch_saturates_witness :
  nth_error (data (coarse_pitch (mel_bound 50) (mel_bound 1100) edge_track)) 0
  = Some 1%Z
  /\ nth_error (data (coarse_pitch (mel_bound 50) (mel_bound 1100)
                        edge_track)) 1
     = Some 255%Z.
Proof.
  split.
  - apply (proj1 (coarse_pitch_saturates edge_track 0 50 eq_refl)). lra.
  - apply (proj2 (coarse_pitch_saturates edge_track 1 1100 eq_refl)). lra.
Defined.

(** ** extract: more on the write into the buffer *)

(** The outcome of [extract] on one-dimensional audio and buffer, read
    off the outcome of the steps after the call of the pitch model. *)
Lemma extract_outcome (self : RMVPEOnnxPitchExtractor.t)
  (audio : RMVPEOnnxPitchExtractor.audio_arg)
  (pitchf : RMVPEOnnxPitchExtractor.pitchf_arg)
  (f0_up_key sr window : Z) (silence_front : R) (w w0 : world)
  (a : ndarray R) (r : nat) :
  as_array audio = Some a ->
  resolve_pitchf pitchf w = Some (r, w0) ->
  ndim a = 1 ->
  ndim (nth r (heap w0) empty_array) = 1 ->
  RMVPEOnnxPitchExtractor.extract self audio pitchf
    f0_up_key sr window silence_front w =
  let session := RMVPEOnnxPitchExtractor.model self in
  let w1 := log_event (OrtRun (session_path session) (Some ["f0"; "uv"])
                         (pitch_feeds self a sr)) w0 in
  match tail_write f0_up_key (nth r (heap w0) empty_array)
          (session_run session (Some ["f0"; "uv"]) (pitch_feeds self a sr))
  with
  | inl e => (w1, inl (wrapped e))
  | inr written =>
      ({| rng := rng w1; events := events w1;
          heap := list_update (heap w1) r written |},
       inr (coarse_pitch (RMVPEOnnxPitchExtractor.f0_mel_min self)
              (RMVPEOnnxPitchExtractor.f0_mel_max self) written, r))
  end.
Proof.
  intros Haudio Hpitchf Ha Hb.
  rewrite extract_wraps.
  rewrite (extract_body_run self audio pitchf f0_up_key sr window
             silence_front w w0 a r Haudio Hpitchf Ha Hb).
  cbv zeta. destruct (tail_write _ _ _) as [e | written]; reflexivity.
Qed.

(** A track longer than the buffer: the slice [pitchf[-n:]] is the whole
    buffer and [f0[:L]] the first L frames. *)
Lemma tail_write_overflow (f0_up_key : Z) (buffer f0 : ndarray R)
  (output0 : tensor) (more : list tensor) (L n : nat) :
  shape buffer = [L] -> List.length (data buffer) = L ->
  RMVPEOnnxPitchExtractor.scaled_f0 output0 f0_up_key = inr f0 ->
  shape f0 = [n] -> List.length (data f0) = n ->
  L < n ->
  tail_write f0_up_key buffer (inr (output0 :: more))
  = inr (mk_ndarray [L] (firstn L (data f0))).
Proof.
  intros Hsb Hlb Hf0 Hsf Hlf Hlt.
  unfold tail_write. cbn [list_item nth_error]. rewrite Hf0, Hsb, Hsf.
  cbn [shape_at nth_error].
  unfold np_slice_to. rewrite Hsf.
  assert (Hbound : slice_bound n (Z.of_nat L) = L).
  { unfold slice_bound.
    destruct (Z.ltb_spec (Z.of_nat L) 0) as [H | _]; [ lia | ].
    rewrite Nat2Z.id. lia. }
  rewrite Hbound. cbn [numel fold_right]. rewrite Nat.mul_1_r.
  unfold setitem_from. cbn [shape data]. rewrite Hlb, Hsb.
  assert (Hstart : slice_bound L (- Z.of_nat n) = 0).
  { unfold slice_bound.
    destruct (Z.ltb_spec (- Z.of_nat n) 0) as [_ | H]; lia. }
  rewrite Hstart, Nat.sub_0_r.
  assert (Hstrip : strip_leading_ones 1 [L] = [L]).
  { destruct L as [ | [ | L ] ]; reflexivity. }
  rewrite Hstrip, Nat.eqb_refl. reflexivity.
Qed.

(** X3.  When the pitch model's track, squeezed and shifted, is a
    one-dimensional array of more frames than the buffer holds (n > L),
    [extract] overwrites the whole buffer with the first L frames of the
    track, drops the later ones, and returns the codes of that buffer. *)
Theorem longer_track_is_cut_on_the_right
  (self : RMVPEOnnxPitchExtractor.t)
  (audio : RMVPEOnnxPitchExtractor.audio_arg) (r : nat)
  (f0_up_key sr window : Z) (silence_front : R) (w : world)
  (a buffer f0 : ndarray R) (output0 : tensor) (more : list tensor)
  (L n : nat) :
  as_array audio = Some a -> ndim a = 1 ->
  nth_error (heap w) r = Some buffer ->
  shape buffer = [L] -> well_formed buffer ->
  session_run (RMVPEOnnxPitchExtractor.model self) (Some ["f0"; "uv"])
    (pitch_feeds self a sr) = inr (output0 :: more) ->
  RMVPEOnnxPitchExtractor.scaled_f0 output0 f0_up_key = inr f0 ->
  shape f0 = [n] -> well_formed f0 ->
  L < n ->
  let call := RMVPEOnnxPitchExtractor.extract self audio
                (RMVPEOnnxPitchExtractor.PitchArray r)
                f0_up_key sr window silence_front w in
  let buffer' := mk_ndarray [L] (firstn L (data f0)) in
  nth_error (heap (fst call)) r = Some buffer'
  /\ List.length (data buffer') = L
  /\ (forall i, i < L -> nth_error (data buffer') i = nth_error (data f0) i)
  /\ snd call
     = inr (coarse_pitch (RMVPEOnnxPitchExtractor.f0_mel_min self)
              (RMVPEOnnxPitchExtractor.f0_mel_max self) buffer', r).
Proof.
  intros Haudio Ha Hheap Hsb Hwb Hrun Hf0 Hsf Hwf Hlt call buffer'.
  unfold well_formed in Hwb, Hwf. rewrite Hsb in Hwb. rewrite Hsf in Hwf.
  cbn [numel fold_right] in Hwb, Hwf. rewrite Nat.mul_1_r in Hwb, Hwf.
  assert (Hnth : nth r (heap w) empty_array = buffer)
    by (apply nth_error_nth; exact Hheap).
  assert (Hr : r < List.length (heap w))
    by (apply nth_error_Some; rewrite Hheap; discriminate).
  subst call.
  rewrite (extract_outcome self audio
             (RMVPEOnnxPitchExtractor.PitchArray r)
             f0_up_key sr window silence_front w w a r Haudio eq_refl Ha)
    by (rewrite Hnth; unfold ndim; now rewrite Hsb).
  cbv zeta. rewrite Hnth, Hrun.
  rewrite (tail_write_overflow f0_up_key buffer f0 output0 more L n
             Hsb Hwb Hf0 Hsf Hwf Hlt).
  cbn [fst snd log_event heap events rng].
  split; [ now apply nth_error_list_update | ].
  subst buffer'. cbn [data].
  split; [ rewrite length_firstn; lia | ].
  split; [ | reflexivity ].
  intros i Hi. rewrite nth_error_firstn.
  apply Nat.ltb_lt in Hi. now rewrite Hi.
Qed.

Lemma longer_track_is_cut_on_the_right_witness :
  let call := RMVPEOnnxPitchExtractor.extract
                (extractor_with (fixed_pitch_model four_frame_track))
                (RMVPEOnnxPitchExtractor.AudioArray four_samples)
                (RMVPEOnnxPitchExtractor.PitchArray 0)
                0 100 160 0 world_with_buffer in
  let f0 := map_data (fun x => (x * Rpower 2 (IZR 0 / 12))%R)
              (np_squeeze four_frame_track) in
  let buffer' := mk_ndarray [3] (firstn 3 (data f0)) in
  nth_error (heap (fst call)) 0 = Some buffer'
  /\ List.length (data buffer') = 3
  /\ (forall i, i < 3 -> nth_error (data buffer') i = nth_error (data f0) i)
  /\ snd call
     = inr (coarse_pitch
              (RMVPEOnnxPitchExtractor.f0_mel_min
                 (extractor_with (fixed_pitch_model four_frame_track)))
              (RMVPEOnnxPitchExtractor.f0_mel_max
                 (extractor_with (fixed_pitch_model four_frame_track)))
              buffer', 0).
Proof.
  apply (longer_track_is_cut_on_the_right
           (extractor_with (fixed_pitch_model four_frame_track))
           (RMVPEOnnxPitchExtractor.AudioArray four_samples) 0
           0 100 160 0 world_with_buffer
           four_samples three_frame_buffer
           (map_data (fun x => (x * Rpower 2 (IZR 0 / 12))%R)
              (np_squeeze four_frame_track))
           (Float32 four_frame_track) [Float32 (mk_ndarray [1; 0] [])]
           3 4).
  - reflexivity.
  - reflexivity.
  - reflexivity.
  - reflexivity.
  - reflexivity.
  - reflexivity.
  - reflexivity.
  - reflexivity.
  - reflexivity.
  - lia.
Defined.

Lemma list_update_last {A} (l : list A) (x y : A) :
  list_update (l ++ [x]) (List.length l) y = l ++ [y].
Proof.
  induction l as [ | z l IH ]; [ reflexivity | ].
  cbn [app List.length list_update]. now rewrite IH.
Qed.

(** X4.  A pitch buffer passed as a torch tensor is copied: [extract]
    leaves every array already in the heap as it was and at most appends
    one array; when it succeeds, the buffer it returns is that new array
    and the codes are the codes of its content. *)
Theorem tensor_buffer_is_copied (self : RMVPEOnnxPitchExtractor.t)
  (audio : RMVPEOnnxPitchExtractor.audio_arg) (b : ndarray R)
  (f0_up_key sr window : Z) (silence_front : R) (w : world) :
  let call := RMVPEOnnxPitchExtractor.extract self audio
                (RMVPEOnnxPitchExtractor.PitchTensor b)
                f0_up_key sr window silence_front w in
  (exists tail : list (ndarray R),
     heap (fst call) = heap w ++ tail /\ List.length tail <= 1)
  /\ forall (codes : ndarray Z) (r : nat),
       snd call = inr (codes, r) ->
       r = List.length (heap w)
       /\ exists written : ndarray R,
            heap (fst call) = heap w ++ [written]
            /\ codes = coarse_pitch (RMVPEOnnxPitchExtractor.f0_mel_min self)
                         (RMVPEOnnxPitchExtractor.f0_mel_max self) written.
Proof.
  intros call. subst call.
  destruct (as_array audio) as [a | ] eqn:Haudio.
  2: { destruct audio as [a | a | ty]; try discriminate Haudio.
       rewrite extract_wraps, extract_body_no_audio. cbn [fst snd].
       split; [ exists []; rewrite app_nil_r; split; [ reflexivity | cbn; lia ]
              | intros codes r H; discriminate H ]. }
  set (w0 := {| rng := rng w; events := events w; heap := heap w ++ [b] |}).
  assert (Hres : resolve_pitchf (RMVPEOnnxPitchExtractor.PitchTensor b) w
                 = Some (List.length (heap w), w0)) by reflexivity.
  assert (Hnth : nth (List.length (heap w)) (heap w0) empty_array = b).
  { unfold w0; cbn [heap]. rewrite app_nth2 by lia. now rewrite Nat.sub_diag. }
  destruct (Nat.eq_dec (ndim a) 1) as [Ha | Ha].
  2: { rewrite extract_wraps.
       rewrite (extract_body_bad_audio self audio _ f0_up_key sr window
                  silence_front w w0 a _ Haudio Hres Ha).
       unfold w0; cbn [fst snd heap].
       split; [ exists [b]; split; [ reflexivity | cbn; lia ]
              | intros codes r H; discriminate H ]. }
  destruct (Nat.eq_dec (ndim (nth (List.length (heap w)) (heap w0)
                                empty_array)) 1) as [Hb | Hb].
  2: { rewrite extract_wraps.
       rewrite (extract_body_bad_pitchf self audio _ f0_up_key sr window
                  silence_front w w0 a _ Haudio Hres Ha Hb).
       unfold w0; cbn [fst snd heap].
       split; [ exists [b]; split; [ reflexivity | cbn; lia ]
              | intros codes r H; discriminate H ]. }
  rewrite (extract_outcome self audio _ f0_up_key sr window silence_front
             w w0 a _ Haudio Hres Ha Hb).
  cbv zeta.
  destruct (tail_write _ _ _) as [e | written];
    unfold w0; cbn [fst snd log_event heap].
  - split; [ exists [b]; split; [ reflexivity | cbn; lia ]
           | intros codes r H; discriminate H ].
  - rewrite list_update_last.
    split; [ exists [written]; split; [ reflexivity | cbn; lia ] | ].
    intros codes r H. injection H as Hc Hr'. subst codes r.
    split; [ reflexivity | ].
    exists written. split; reflexivity.
Qed.

(** ** extract: unvoiced frames *)





(** ** NSFHead: what stops a call before the session runs *)

(** X6.  [NSFHead] runs on the CPU only.  Constructed with a device other
    than "cpu" or None it raises RuntimeError("Unsportted Device") and
    loads nothing; with "cpu" or None it asks onnxruntime once for the
    model file with the CPU provider and keeps the sampling rate. *)
Theorem nsfhead_init_device (env : environment) (path : string) (sr : Z)
  (device : option string) (w : world) :
  (forall d : string,
     device = Some d -> d <> "cpu" ->
     NSFHead.init env path sr device w
     = (w, inl (RuntimeError "Unsportted Device")))
  /\ (device = None \/ device = Some "cpu" ->
      NSFHead.init env path sr device w
      = (log_event (OrtLoad path ["CPUExecutionProvider"]) w,
         match ort_load env path ["CPUExecutionProvider"] with
         | inl e => inl e
         | inr s => inr {| NSFHead.model := s; NSFHead.sampling_rate := sr |}
         end)).
Proof.
  split.
  - intros d -> Hd. apply String.eqb_neq in Hd.
    unfold NSFHead.init, bind, raise. now rewrite Hd.
  - intros [-> | ->]; [ | apply init_cpu ].
    unfold NSFHead.init, bind, ret, InferenceSession_new.
    destruct (ort_load env path _); reflexivity.
Qed.

Lemma nsfhead_init_device_witness :
  NSFHead.init (env_with (fixed_vocoder no_samples)) model_path 40000
    (Some "cuda") empty_world
  = (empty_world, inl (RuntimeError "Unsportted Device")).
Proof.
  apply (proj1 (nsfhead_init_device (env_with (fixed_vocoder no_samples))
                  model_path 40000 (Some "cuda") empty_world) "cuda").
  - reflexivity.
  - discriminate.
Defined.

(** X7.  [NSFHead.inference] reaches the session only with hidden
    features of at least two axes and a session of at least six declared
    inputs.  With fewer axes it raises IndexError before anything else
    happens; with fewer inputs it raises IndexError after the noise was
    drawn, and the session is not run. *)
Theorem inference_needs_axes_and_inputs (env : environment)
  (self : NSFHead.t) (hubertIn pitchfIn pitchIIn : tensor) (w : world) :
  (List.length (tensor_shape hubertIn) < 2 ->
   NSFHead.inference env self hubertIn pitchfIn pitchIIn w
   = (w, inl (IndexError "tuple index out of range")))
  /\ (forall (batch frames : nat) (dims : list nat),
        tensor_shape hubertIn = batch :: frames :: dims ->
        List.length (input_names (NSFHead.model self)) < 6 ->
        NSFHead.inference env self hubertIn pitchfIn pitchIIn w
        = (after_noise frames w, inl (IndexError "list index out of range"))).
Proof.
  split.
  - intros Hlen. unfold NSFHead.inference, bind, lift, shape_at.
    destruct (tensor_shape hubertIn) as [ | b [ | f dims ] ];
      [ reflexivity | reflexivity | cbn in Hlen; lia ].
  - intros batch frames dims Hshape Hnames.
    unfold NSFHead.inference. unfold bind at 1, lift at 1, shape_at.
    rewrite Hshape. cbn [nth_error].
    unfold bind at 1, np_random_randn. unfold bind at 1.
    unfold NSFHead.forward, bind, lift, input_name, list_item.
    destruct (input_names (NSFHead.model self))
      as [ | n0 [ | n1 [ | n2 [ | n3 [ | n4 [ | n5 rest ] ] ] ] ] ];
      try reflexivity.
    cbn in Hnames. lia.
Qed.

Lemma inference_needs_axes_and_inputs_witness :
  NSFHead.inference (env_with five_input_vocoder)
    {| NSFHead.model := five_input_vocoder; NSFHead.sampling_rate := 40000 |}
    two_frames three_pitches three_codes empty_world
  = (after_noise 2 empty_world, inl (IndexError "list index out of range")).
Proof.
  apply (proj2 (inference_needs_axes_and_inputs (env_with five_input_vocoder)
                  {| NSFHead.model := five_input_vocoder;
                     NSFHead.sampling_rate := 40000 |}
                  two_frames three_pitches three_codes empty_world)
           1 2 [1]).
  - reflexivity.
  - cbn. lia.
Defined.

(** ** to_waveform: what stops it before the vocoder runs *)

Lemma align_three_axes (mel : ndarray R) (n0 n1 n2 : nat) :
  shape mel = [n0; n1; n2] ->
  exists hubert : ndarray R,
    align mel = inr hubert /\ shape hubert = [n0; 2 * n2; n1].
Proof.
  intros Hs. unfold align, np_repeat_axis2. rewrite Hs.
  unfold np_transpose_021. cbn [shape data astype_float32].
  eexists. split; reflexivity.
Qed.

(** X8.  [to_waveform] gives up before it touches onnxruntime when the
    mel array does not have three axes: AxisError from [np.repeat] with
    fewer, ValueError from [transpose] with more.  And when the vocoder
    file does not load, it raises the loader's exception after that one
    attempt, without running anything. *)
Theorem to_waveform_early_failures (env : environment) (mel : ndarray R)
  (w : world) :
  (ndim mel < 3 ->
   to_waveform env mel w
   = (w, inl (AxisError ("axis 2 is out of bounds for array of dimension "
                           ++ show_nat (ndim mel)))))
  /\ (3 < ndim mel ->
      to_waveform env mel w = (w, inl (ValueError "axes don't match array")))
  /\ (forall e : exn,
        ndim mel = 3 ->
        ort_load env model_path ["CPUExecutionProvider"] = inl e ->
        to_waveform env mel w
        = (log_event (OrtLoad model_path ["CPUExecutionProvider"]) w, inl e)).
Proof.
  unfold ndim. split; [ | split ].
  - intros Hlen. unfold to_waveform, bind, lift, align, np_repeat_axis2, ndim.
    destruct (shape mel) as [ | a [ | b [ | c rest ] ] ];
      [ reflexivity | reflexivity | reflexivity | cbn in Hlen; lia ].
  - intros Hlen. unfold to_waveform, bind, lift, align, np_repeat_axis2.
    destruct (shape mel) as [ | a [ | b [ | c [ | d rest ] ] ] ];
      try (cbn in Hlen; lia).
    reflexivity.
  - intros e Hlen Hload.
    destruct (shape mel) as [ | n0 [ | n1 [ | n2 [ | d rest ] ] ] ] eqn:Hs;
      try discriminate Hlen.
    destruct (align_three_axes mel n0 n1 n2 Hs) as [hubert [Halign Hshape]].
    unfold to_waveform. unfold bind at 1, lift at 1. rewrite Halign.
    unfold bind at 1, lift at 1, shape_at. rewrite Hshape. cbn [nth_error].
    unfold bind at 1, lift at 1.
    change (constant_pitch (2 * n2) 0)
      with (mk_ndarray [2 * n2] (data (constant_pitch (2 * n2) 0))).
    rewrite np_reshape_row_vector.
    unfold bind at 1, lift at 1.
    change (coarse_pitch (mel_bound 50) (mel_bound 1100)
              (mk_ndarray [2 * n2] (data (constant_pitch (2 * n2) 0))))
      with (mk_ndarray [2 * n2]
              (data (coarse_pitch (mel_bound 50) (mel_bound 1100)
                       (constant_pitch (2 * n2) 0)))).
    rewrite np_reshape_row_vector.
    unfold bind at 1. rewrite init_cpu, Hload. reflexivity.
Qed.

Lemma to_waveform_early_failures_witness :
  to_waveform (env_with (fixed_vocoder no_samples)) flat_mel empty_world
  = (empty_world,
     inl (AxisError ("axis 2 is out of bounds for array of dimension "
                       ++ show_nat (ndim flat_mel)))).
Proof.
  apply (proj1 (to_waveform_early_failures
                  (env_with (fixed_vocoder no_samples)) flat_mel empty_world)).
  cbn. lia.
Defined.

(** ** cli.py: validate_args *)

Ltac namespace_simpl :=
  cbn [Namespace.model Namespace.checkpoint_path Namespace.vocoder
       Namespace.text Namespace.file Namespace.spk Namespace.temperature
       Namespace.speaking_rate Namespace.steps Namespace.cpu
       Namespace.denoiser_strength Namespace.output_folder
       Namespace.batched Namespace.batch_size Namespace.set_vocoder
       Namespace.set_speaking_rate Namespace.set_spk
       SINGLESPEAKER_MODEL MULTISPEAKER_MODEL existsb fst snd orb
       dict_get entry_vocoder entry_speaking_rate entry_spk
       entry_spk_range option_Z_eqb negb] in *.

(** A passed [assert] lets the rest run, a failed one stops it. *)
Lemma assert_then_inr {S A : Type} (c : bool) (arg : assertion_arg)
  (k : F S A) (s s' : S) (x : A) :
  and_then (assert_ c arg) (fun _ => k) s = (s', inr x) ->
  c = true /\ k s = (s', inr x).
Proof.
  unfold and_then, assert_, pure, fail.
  destruct c; [ auto | discriminate ].
Qed.

Lemma assert_then_true {S A : Type} (c : bool) (arg : assertion_arg)
  (k : F S A) (s : S) :
  c = true -> and_then (assert_ c arg) (fun _ => k) s = k s.
Proof. intros ->. reflexivity. Qed.

Lemma and_then_inr {S A B : Type} (c : F S A) (k : A -> F S B)
  (s s' : S) (y : B) :
  and_then c k s = (s', inr y) ->
  exists (x : A) (s1 : S), c s = (s1, inr x) /\ k x s1 = (s', inr y).
Proof.
  unfold and_then. destruct (c s) as [s1 [e | x]]; [ discriminate | eauto ].
Qed.

Lemma and_then_step {S A B : Type} (c : F S A) (k : A -> F S B)
  (s s1 : S) (x : A) :
  c s = (s1, inr x) -> and_then c k s = k x s1.
Proof. unfold and_then. now intros ->. Qed.

(** Warnings are only ever added at the end of the list. *)
Lemma extends_refl (ws : list string) : exists new, ws = ws ++ new.
Proof. exists []. now rewrite app_nil_r. Qed.

Lemma extends_trans (ws ws1 ws2 : list string) :
  (exists new, ws1 = ws ++ new) -> (exists new, ws2 = ws1 ++ new) ->
  exists new, ws2 = ws ++ new.
Proof.
  intros [n1 ->] [n2 ->]. exists (n1 ++ n2). now rewrite app_assoc.
Qed.

Lemma extends_one (ws ws1 : list string) (msg : string) :
  (exists new, ws1 = ws ++ new) -> exists new, ws1 ++ [msg] = ws ++ new.
Proof.
  intros H. apply (extends_trans ws ws1); [ exact H | now exists [msg] ].
Qed.

Lemma validate_args_steps (a : Namespace.t) :
  validate_args a
  = (assert_ (truthy (Namespace.text a) || truthy (Namespace.file a))
       (Message "Either text or file must be provided Matcha-T(ea)TTS need sometext to whisk the waveforms.") ;;;
     assert_ (float_ge_0 (Namespace.temperature a))
       (Message "Sampling temperature cannot be negative") ;;;
     assert_ (0 <? Namespace.steps a)%Z
       (Message "Number of ODE steps must be greater than 0") ;;;
     a <- model_defaults a ;;
     final_checks a)%pyf.
Proof. reflexivity. Qed.

(** The vocoder and the speaking rate: what is given is kept, what is
    missing is taken from the model's entry. *)
Lemma suggest_vocoder_outcome (a : Namespace.t) (entry : model_entry)
  (ws : list string) :
  exists (v : string) (r : pyfloat) (ws1 : list string),
    suggest_vocoder a entry ws
    = (ws1,
       inr (Namespace.set_speaking_rate
              (Namespace.set_vocoder a (Some v)) (Some r)))
    /\ (exists new, ws1 = ws ++ new)
    /\ (forall v0, Namespace.vocoder a = Some v0 -> v = v0)
    /\ (Namespace.vocoder a = None -> v = entry_vocoder entry)
    /\ (forall r0, Namespace.speaking_rate a = Some r0 -> r = r0)
    /\ (Namespace.speaking_rate a = None -> r = entry_speaking_rate entry).
Proof.
  destruct a as [m c v t f s te r st cp de o b bs].
  unfold suggest_vocoder, and_then, warn, pure.
  cbn [Namespace.vocoder Namespace.speaking_rate Namespace.model].
  destruct v as [v | ];
    [ destruct (negb (String.eqb v (entry_vocoder entry))) | ];
    destruct r as [r | ];
    cbn [Namespace.vocoder Namespace.speaking_rate Namespace.model
         Namespace.set_vocoder Namespace.set_speaking_rate
         Namespace.checkpoint_path Namespace.text Namespace.file Namespace.spk
         Namespace.temperature Namespace.steps Namespace.cpu
         Namespace.denoiser_strength Namespace.output_folder
         Namespace.batched Namespace.batch_size];
    do 3 eexists;
    (split; [ reflexivity | ]);
    (split; [ first [ apply extends_refl | eexists; reflexivity ] | ]);
    repeat split; intros; congruence.
Qed.

Lemma single_speaker_outcome (a : Namespace.t) (ws : list string) :
  Namespace.model a = "matcha_ljspeech" ->
  exists (v : string) (r : pyfloat) (ws1 : list string),
    validate_args_for_single_speaker_model a ws
    = (ws1,
       inr (Namespace.set_spk
              (Namespace.set_speaking_rate
                 (Namespace.set_vocoder a (Some v)) (Some r))
              None))
    /\ (exists new, ws1 = ws ++ new)
    /\ (forall v0, Namespace.vocoder a = Some v0 -> v = v0)
    /\ (Namespace.vocoder a = None -> v = "hifigan_T2_v1")
    /\ (forall r0, Namespace.speaking_rate a = Some r0 -> r = r0).
Proof.
  intros Hm. destruct a as [m c v t f s te r st cp de o b bs].
  cbn [Namespace.model] in Hm. subst m.
  unfold validate_args_for_single_speaker_model.
  cbn [Namespace.model SINGLESPEAKER_MODEL dict_get]. rewrite String.eqb_refl.
  unfold and_then at 1.
  match goal with
  | |- context [suggest_vocoder ?a0 ?e] =>
      destruct (suggest_vocoder_outcome a0 e ws)
        as (v1 & r1 & ws1 & Hs & Hext & Hv & Hv' & Hr & _)
  end.
  rewrite (and_then_step _ _ _ _ _ Hs).
  namespace_simpl.
  destruct s as [z | ]; unfold and_then, warn, pure; namespace_simpl;
    exists v1, r1; eexists;
    (split; [ reflexivity | ]);
    (split; [ first [ exact Hext | apply extends_one; exact Hext ] | ]);
    (split; [ exact Hv | split; [ exact Hv' | exact Hr ] ]).
Qed.

Lemma multispeaker_outcome (a a1 : Namespace.t) (ws ws1 : list string) :
  Namespace.model a = "matcha_vctk" ->
  validate_args_for_multispeaker_model a ws = (ws1, inr a1) ->
  exists (v : string) (r : pyfloat) (s : Z),
    a1 = Namespace.set_spk
           (Namespace.set_speaking_rate
              (Namespace.set_vocoder a (Some v)) (Some r))
           (Some s)
    /\ (exists new, ws1 = ws ++ new)
    /\ (0 <= s <= 107)%Z
    /\ (forall s0, Namespace.spk a = Some s0 -> s = s0)
    /\ (forall v0, Namespace.vocoder a = Some v0 -> v = v0)
    /\ (Namespace.vocoder a = None -> v = "hifigan_univ_v1")
    /\ (forall r0, Namespace.speaking_rate a = Some r0 -> r = r0).
Proof.
  intros Hm. destruct a as [m c v t f s te r st cp de o b bs].
  cbn [Namespace.model] in Hm. subst m.
  unfold validate_args_for_multispeaker_model.
  cbn [Namespace.model MULTISPEAKER_MODEL dict_get]. rewrite String.eqb_refl.
  unfold and_then at 1.
  match goal with
  | |- context [suggest_vocoder ?a0 ?e] =>
      destruct (suggest_vocoder_outcome a0 e ws)
        as (v1 & r1 & ws2 & Hs & Hext & Hv & Hv' & Hr & _)
  end.
  rewrite (and_then_step _ _ _ _ _ Hs).
  namespace_simpl.
  destruct s as [z | ]; unfold and_then, assert_, warn, pure, fail;
    namespace_simpl.
  - destruct ((0 <=? z)%Z && (z <=? 107)%Z) eqn:Hrange;
      [ | discriminate ].
    intros H. injection H as <- <-.
    apply andb_true_iff in Hrange. destruct Hrange as [H0 H1].
    apply Z.leb_le in H0. apply Z.leb_le in H1.
    exists v1, r1, z.
    split; [ reflexivity | ].
    split; [ exact Hext | ].
    split; [ lia | ].
    split; [ intros; congruence | ].
    split; [ exact Hv | split; [ exact Hv' | exact Hr ] ].
  - intros H. injection H as <- <-.
    exists v1, r1, 0%Z.
    split; [ reflexivity | ].
    split; [ apply extends_one; exact Hext | ].
    split; [ lia | ].
    split; [ intros; discriminate | ].
    split; [ exact Hv | split; [ exact Hv' | exact Hr ] ].
Qed.

(** Arguments that already have a vocoder, a speaking rate and a fitting
    speaker id go through unchanged. *)
Lemma suggest_vocoder_filled (a : Namespace.t) (entry : model_entry)
  (ws : list string) (v : string) (r : pyfloat) :
  Namespace.vocoder a = Some v -> Namespace.speaking_rate a = Some r ->
  exists ws1 : list string,
    suggest_vocoder a entry ws = (ws1, inr a)
    /\ exists new, ws1 = ws ++ new.
Proof.
  intros Hv Hr.
  destruct (suggest_vocoder_outcome a entry ws)
    as (v1 & r1 & ws1 & Hs & Hext & Hv1 & _ & Hr1 & _).
  rewrite (Hv1 v Hv), (Hr1 r Hr) in Hs.
  exists ws1. split; [ | exact Hext ].
  rewrite Hs. destruct a as [m c v0 t f s te r0 st cp de o b bs].
  cbn [Namespace.vocoder Namespace.speaking_rate] in Hv, Hr. subst.
  reflexivity.
Qed.

Lemma single_speaker_filled (a : Namespace.t) (ws : list string)
  (v : string) (r : pyfloat) :
  Namespace.model a = "matcha_ljspeech" ->
  Namespace.vocoder a = Some v -> Namespace.speaking_rate a = Some r ->
  Namespace.spk a = None ->
  exists ws1 : list string,
    validate_args_for_single_speaker_model a ws = (ws1, inr a)
    /\ exists new, ws1 = ws ++ new.
Proof.
  intros Hm Hv Hr Hs.
  destruct (single_speaker_outcome a ws Hm)
    as (v1 & r1 & ws1 & Hrun & Hext & Hv1 & _ & Hr1).
  rewrite (Hv1 v Hv), (Hr1 r Hr) in Hrun.
  exists ws1. split; [ | exact Hext ].
  rewrite Hrun. destruct a as [m c v0 t f s te r0 st cp de o b bs].
  cbn [Namespace.vocoder Namespace.speaking_rate Namespace.spk] in Hv, Hr, Hs.
  subst. reflexivity.
Qed.

Lemma multispeaker_filled (a : Namespace.t) (ws : list string)
  (v : string) (r : pyfloat) (s : Z) :
  Namespace.model a = "matcha_vctk" ->
  Namespace.vocoder a = Some v -> Namespace.speaking_rate a = Some r ->
  Namespace.spk a = Some s -> (0 <= s <= 107)%Z ->
  exists ws1 : list string,
    validate_args_for_multispeaker_model a ws = (ws1, inr a)
    /\ exists new, ws1 = ws ++ new.
Proof.
  intros Hm Hv Hr Hs Hrange.
  destruct a as [m c v0 t f s0 te r0 st cp de o b bs].
  cbn [Namespace.model Namespace.vocoder Namespace.speaking_rate
       Namespace.spk] in Hm, Hv, Hr, Hs.
  subst.
  unfold validate_args_for_multispeaker_model.
  cbn [Namespace.model MULTISPEAKER_MODEL dict_get]. rewrite String.eqb_refl.
  unfold and_then at 1.
  match goal with
  | |- context [suggest_vocoder ?a0 ?e] =>
      destruct (suggest_vocoder_filled a0 e ws v r eq_refl eq_refl)
        as (ws1 & Hrun & Hext)
  end.
  rewrite (and_then_step _ _ _ _ _ Hrun).
  unfold and_then, assert_, pure. namespace_simpl.
  replace ((0 <=? s)%Z && (s <=? 107)%Z) with true
    by (symmetry; apply andb_true_iff; split; apply Z.leb_le; lia).
  exists ws1. split; [ reflexivity | exact Hext ].
Qed.

Lemma not_both_models (m : string) :
  dict_has SINGLESPEAKER_MODEL m = true ->
  dict_has MULTISPEAKER_MODEL m = false.
Proof.
  unfold dict_has. cbn [SINGLESPEAKER_MODEL MULTISPEAKER_MODEL existsb fst].
  rewrite !orb_false_r. intros H. apply String.eqb_eq in H. subst m.
  reflexivity.
Qed.

Lemma dict_has_single (m : string) :
  dict_has SINGLESPEAKER_MODEL m = true <-> m = "matcha_ljspeech".
Proof.
  unfold dict_has. cbn [SINGLESPEAKER_MODEL existsb fst].
  rewrite orb_false_r. rewrite String.eqb_eq. split; congruence.
Qed.

Lemma dict_has_multi (m : string) :
  dict_has MULTISPEAKER_MODEL m = true <-> m = "matcha_vctk".
Proof.
  unfold dict_has. cbn [MULTISPEAKER_MODEL existsb fst].
  rewrite orb_false_r. rewrite String.eqb_eq. split; congruence.
Qed.

Lemma record_unchanged (a : Namespace.t) :
  Namespace.set_spk
    (Namespace.set_speaking_rate
       (Namespace.set_vocoder a (Namespace.vocoder a))
       (Namespace.speaking_rate a))
    (Namespace.spk a)
  = a.
Proof. destruct a. reflexivity. Qed.

(** What the branch on the checkpoint does to arguments it accepts. *)
Lemma model_defaults_outcome (a a1 : Namespace.t) (ws ws1 : list string) :
  model_defaults a ws = (ws1, inr a1) ->
  exists (v : option string) (r : option pyfloat) (s : option Z),
    a1 = Namespace.set_spk
           (Namespace.set_speaking_rate (Namespace.set_vocoder a v) r) s
    /\ (exists new, ws1 = ws ++ new)
    /\ (forall v0, Namespace.vocoder a = Some v0 -> v = Some v0)
    /\ (forall r0, Namespace.speaking_rate a = Some r0 -> r = Some r0)
    /\ (forall s0, Namespace.spk a = Some s0 ->
          s = Some s0
          \/ (Namespace.checkpoint_path a = None
              /\ Namespace.model a = "matcha_ljspeech" /\ s = None))
    /\ (forall c, Namespace.checkpoint_path a = Some c ->
          v = Namespace.vocoder a /\ s = Namespace.spk a
          /\ (Namespace.vocoder a = None -> ws1 = ws ++ [custom_warning]))
    /\ (Namespace.checkpoint_path a = None ->
        Namespace.model a = "matcha_ljspeech" ->
        s = None
        /\ exists v', v = Some v'
                      /\ (Namespace.vocoder a = None -> v' = "hifigan_T2_v1"))
    /\ (Namespace.checkpoint_path a = None ->
        Namespace.model a = "matcha_vctk" ->
        (exists v', v = Some v'
                    /\ (Namespace.vocoder a = None -> v' = "hifigan_univ_v1"))
        /\ exists s0, s = Some s0 /\ (0 <= s0 <= 107)%Z).
Proof.
  unfold model_defaults.
  destruct (Namespace.checkpoint_path a) as [c | ] eqn:Hc.
  - (* a custom checkpoint *)
    intros H.
    apply and_then_inr in H. destruct H as ([] & ws2 & Hwarn & H).
    exists (Namespace.vocoder a),
      (match Namespace.speaking_rate a with
       | Some r => Some r
       | None => Some float_1_0
       end),
      (Namespace.spk a).
    assert (Ha1 : ws1 = ws2
                  /\ a1 = Namespace.set_speaking_rate a
                            (match Namespace.speaking_rate a with
                             | Some r => Some r
                             | None => Some float_1_0
                             end)).
    { destruct a as [m c0 v t f s te r st cp de o b bs].
      cbn [Namespace.speaking_rate] in *.
      destruct r; unfold pure in H; injection H as <- <-; now split. }
    destruct Ha1 as [-> ->].
    split; [ destruct a; reflexivity | ].
    split.
    { destruct (match Namespace.vocoder a with
                | Some v => String.eqb v "hifigan_univ_v1"
                | None => false
                end);
        unfold pure, warn in Hwarn; injection Hwarn as <-;
        [ apply extends_refl | eexists; reflexivity ]. }
    split; [ auto | ].
    split; [ intros r0 ->; reflexivity | ].
    split; [ auto | ].
    split.
    { intros c0 _. split; [ reflexivity | split; [ reflexivity | ] ].
      intros Hv. rewrite Hv in Hwarn. unfold warn in Hwarn.
      injection Hwarn as <-. reflexivity. }
    split; intros; discriminate.
  - (* a pretrained model, or none *)
    intros H.
    destruct (dict_has SINGLESPEAKER_MODEL (Namespace.model a)) eqn:Hsingle.
    + pose proof (not_both_models _ Hsingle) as Hmulti.
      apply dict_has_single in Hsingle.
      destruct (single_speaker_outcome a ws Hsingle)
        as (v1 & r1 & ws2 & Hrun & Hext & Hv & Hv' & Hr).
      rewrite (and_then_step _ _ _ _ _ Hrun) in H.
      cbn [Namespace.model Namespace.set_spk Namespace.set_speaking_rate
           Namespace.set_vocoder] in H.
      rewrite Hmulti in H. unfold pure in H. injection H as <- <-.
      exists (Some v1), (Some r1), None.
      split; [ reflexivity | ].
      split; [ exact Hext | ].
      split; [ intros v0 Hv0; now rewrite (Hv v0 Hv0) | ].
      split; [ intros r0 Hr0; now rewrite (Hr r0 Hr0) | ].
      split; [ intros s0 _; right; auto | ].
      split; [ intros; discriminate | ].
      split.
      { intros _ _. split; [ reflexivity | ]. exists v1. auto. }
      intros _ Hm. rewrite Hsingle in Hm. discriminate Hm.
    + rewrite (and_then_step _ _ ws ws a eq_refl) in H.
      destruct (dict_has MULTISPEAKER_MODEL (Namespace.model a)) eqn:Hmulti.
      * apply dict_has_multi in Hmulti.
        destruct (multispeaker_outcome a a1 ws ws1 Hmulti H)
          as (v1 & r1 & s1 & -> & Hext & Hrange & Hs & Hv & Hv' & Hr).
        exists (Some v1), (Some r1), (Some s1).
        split; [ reflexivity | ].
        split; [ exact Hext | ].
        split; [ intros v0 Hv0; now rewrite (Hv v0 Hv0) | ].
        split; [ intros r0 Hr0; now rewrite (Hr r0 Hr0) | ].
        split; [ intros s0 Hs0; left; now rewrite (Hs s0 Hs0) | ].
        split; [ intros; discriminate | ].
        split.
        { intros _ Hm. rewrite Hmulti in Hm. discriminate Hm. }
        intros _ _. split; [ exists v1; auto | exists s1; auto ].
      * unfold pure in H. injection H as <- <-.
        exists (Namespace.vocoder a), (Namespace.speaking_rate a),
          (Namespace.spk a).
        split; [ symmetry; apply record_unchanged | ].
        split; [ apply extends_refl | ].
        split; [ auto | ].
        split; [ auto | ].
        split; [ auto | ].
        split; [ intros; discriminate | ].
        split.
        { intros _ Hm. apply dict_has_single in Hm. congruence. }
        intros _ Hm. apply dict_has_multi in Hm. congruence.
Qed.

Lemma model_defaults_filled (a : Namespace.t) (ws : list string)
  (r : pyfloat) :
  Namespace.speaking_rate a = Some r ->
  (Namespace.checkpoint_path a = None ->
   Namespace.model a = "matcha_vctk" ->
   exists s v, Namespace.spk a = Some s /\ (0 <= s <= 107)%Z
               /\ Namespace.vocoder a = Some v) ->
  (Namespace.checkpoint_path a = None ->
   Namespace.model a = "matcha_ljspeech" ->
   Namespace.spk a = None /\ exists v, Namespace.vocoder a = Some v) ->
  exists ws1 : list string,
    model_defaults a ws = (ws1, inr a)
    /\ exists new, ws1 = ws ++ new.
Proof.
  intros Hr Hvctk Hlj. unfold model_defaults.
  destruct (Namespace.checkpoint_path a) as [c | ].
  - rewrite Hr.
    destruct (match Namespace.vocoder a with
              | Some v => String.eqb v "hifigan_univ_v1"
              | None => false
              end);
      unfold and_then, pure, warn; eexists;
      (split; [ reflexivity | ]);
      [ apply extends_refl | eexists; reflexivity ].
  - destruct (dict_has SINGLESPEAKER_MODEL (Namespace.model a)) eqn:Hsingle.
    + pose proof (not_both_models _ Hsingle) as Hmulti.
      apply dict_has_single in Hsingle.
      destruct (Hlj eq_refl Hsingle) as [Hs [v Hv]].
      destruct (single_speaker_filled a ws v r Hsingle Hv Hr Hs)
        as (ws1 & Hrun & Hext).
      rewrite (and_then_step _ _ _ _ _ Hrun), Hmulti.
      exists ws1. split; [ reflexivity | exact Hext ].
    + rewrite (and_then_step _ _ ws ws a eq_refl).
      destruct (dict_has MULTISPEAKER_MODEL (Namespace.model a)) eqn:Hmulti.
      * apply dict_has_multi in Hmulti.
        destruct (Hvctk eq_refl Hmulti) as (s & v & Hs & Hrange & Hv).
        apply (multispeaker_filled a ws v r s); assumption.
      * exists ws. split; [ reflexivity | apply extends_refl ].
Qed.

Lemma final_checks_outcome (a a' : Namespace.t) (ws ws' : list string) :
  final_checks a ws = (ws', inr a') ->
  a' = a /\ ws' = ws
  /\ (Namespace.batched a = true -> (0 < Namespace.batch_size a)%Z)
  /\ exists r, Namespace.speaking_rate a = Some r /\ float_gt_0 r = true.
Proof.
  unfold final_checks, and_then, assert_, pure, fail.
  destruct (Namespace.batched a);
    [ destruct (0 <? Namespace.batch_size a)%Z eqn:Hb; [ | discriminate ] | ];
    (destruct (Namespace.speaking_rate a) as [r | ]; [ | discriminate ]);
    (destruct (float_gt_0 r) eqn:Hr; [ | discriminate ]);
    intros H; injection H as <- <-;
    (split; [ reflexivity | split; [ reflexivity | ] ]);
    (split; [ | exists r; auto ]).
  - intros _. now apply Z.ltb_lt.
  - discriminate.
Qed.

Lemma final_checks_filled (a : Namespace.t) (ws : list string) (r : pyfloat) :
  (Namespace.batched a = true -> (0 < Namespace.batch_size a)%Z) ->
  Namespace.speaking_rate a = Some r -> float_gt_0 r = true ->
  final_checks a ws = (ws, inr a).
Proof.
  intros Hb Hr Hgt. unfold final_checks, and_then, assert_, pure.
  rewrite Hr, Hgt.
  destruct (Namespace.batched a); [ | reflexivity ].
  replace (0 <? Namespace.batch_size a)%Z with true; [ reflexivity | ].
  symmetry. apply Z.ltb_lt. auto.
Qed.

(** What [validate_args] does to arguments it accepts. *)
Lemma validate_args_outcome (a a' : Namespace.t) (ws ws' : list string) :
  validate_args a ws = (ws', inr a') ->
  exists (v : option string) (r : pyfloat) (s : option Z),
    a' = Namespace.set_spk
           (Namespace.set_speaking_rate (Namespace.set_vocoder a v) (Some r))
           s
    /\ (exists new, ws' = ws ++ new)
    /\ (truthy (Namespace.text a) || truthy (Namespace.file a) = true)
    /\ float_ge_0 (Namespace.temperature a) = true
    /\ (0 < Namespace.steps a)%Z
    /\ (Namespace.batched a = true -> (0 < Namespace.batch_size a)%Z)
    /\ float_gt_0 r = true
    /\ (forall v0, Namespace.vocoder a = Some v0 -> v = Some v0)
    /\ (forall r0, Namespace.speaking_rate a = Some r0 -> r = r0)
    /\ (forall s0, Namespace.spk a = Some s0 ->
          s = Some s0
          \/ (Namespace.checkpoint_path a = None
              /\ Namespace.model a = "matcha_ljspeech" /\ s = None))
    /\ (forall c, Namespace.checkpoint_path a = Some c ->
          v = Namespace.vocoder a /\ s = Namespace.spk a
          /\ (Namespace.vocoder a = None -> ws' = ws ++ [custom_warning]))
    /\ (Namespace.checkpoint_path a = None ->
        Namespace.model a = "matcha_ljspeech" ->
        s = None
        /\ exists v', v = Some v'
                      /\ (Namespace.vocoder a = None -> v' = "hifigan_T2_v1"))
    /\ (Namespace.checkpoint_path a = None ->
        Namespace.model a = "matcha_vctk" ->
        (exists v', v = Some v'
                    /\ (Namespace.vocoder a = None -> v' = "hifigan_univ_v1"))
        /\ exists s0, s = Some s0 /\ (0 <= s0 <= 107)%Z).
Proof.
  rewrite validate_args_steps. intros H.
  apply assert_then_inr in H. destruct H as [Htext H].
  apply assert_then_inr in H. destruct H as [Htemp H].
  apply assert_then_inr in H. destruct H as [Hsteps H].
  apply and_then_inr in H. destruct H as (a1 & ws1 & Hmid & H).
  apply final_checks_outcome in H.
  destruct H as (-> & -> & Hbatch & r & Hrate & Hgt).
  apply model_defaults_outcome in Hmid.
  destruct Hmid
    as (v & ro & s & -> & Hext & Hv & Hr & Hs & Hcustom & Hlj & Hvctk).
  cbn [Namespace.set_spk Namespace.set_speaking_rate Namespace.set_vocoder
       Namespace.speaking_rate Namespace.batched Namespace.batch_size]
    in Hrate, Hbatch.
  subst ro.
  exists v, r, s.
  split; [ reflexivity | ].
  split; [ exact Hext | ].
  split; [ exact Htext | ].
  split; [ exact Htemp | ].
  split; [ now apply Z.ltb_lt | ].
  split; [ exact Hbatch | ].
  split; [ exact Hgt | ].
  split; [ exact Hv | ].
  split; [ intros r0 Hr0; specialize (Hr r0 Hr0); congruence | ].
  split; [ exact Hs | ].
  split; [ exact Hcustom | ].
  split; [ exact Hlj | exact Hvctk ].
Qed.

(** Arguments that meet every condition pass and are left as they are. *)
Lemma validate_args_filled (a : Namespace.t) (ws : list string)
  (r : pyfloat) :
  (truthy (Namespace.text a) || truthy (Namespace.file a) = true) ->
  float_ge_0 (Namespace.temperature a) = true ->
  (0 < Namespace.steps a)%Z ->
  Namespace.speaking_rate a = Some r -> float_gt_0 r = true ->
  (Namespace.batched a = true -> (0 < Namespace.batch_size a)%Z) ->
  (Namespace.checkpoint_path a = None ->
   Namespace.model a = "matcha_vctk" ->
   exists s v, Namespace.spk a = Some s /\ (0 <= s <= 107)%Z
               /\ Namespace.vocoder a = Some v) ->
  (Namespace.checkpoint_path a = None ->
   Namespace.model a = "matcha_ljspeech" ->
   Namespace.spk a = None /\ exists v, Namespace.vocoder a = Some v) ->
  exists ws1 : list string, validate_args a ws = (ws1, inr a).
Proof.
  intros Htext Htemp Hsteps Hr Hgt Hbatch Hvctk Hlj.
  rewrite validate_args_steps.
  rewrite (assert_then_true _ _ _ _ Htext).
  rewrite (assert_then_true _ _ _ _ Htemp).
  rewrite assert_then_true by now apply Z.ltb_lt.
  destruct (model_defaults_filled a ws r Hr Hvctk Hlj) as (ws1 & Hmid & _).
  rewrite (and_then_step _ _ _ _ _ Hmid).
  exists ws1. apply (final_checks_filled a ws1 r); assumption.
Qed.

(** X9.  Arguments that pass [validate_args] are usable: a text or a
    file is given, the temperature is not negative, the number of steps
    and the speaking rate are positive, and so is the batch size of a
    batched run.  For the pretrained multi-speaker model the speaker id
    lies in 0..107, for the pretrained single-speaker model there is
    none, and for both a vocoder is set. *)
Theorem validate_args_postconditions (a a' : Namespace.t)
  (ws ws' : list string) :
  validate_args a ws = (ws', inr a') ->
  (truthy (Namespace.text a') || truthy (Namespace.file a') = true)
  /\ float_ge_0 (Namespace.temperature a') = true
  /\ (0 < Namespace.steps a')%Z
  /\ (exists r, Namespace.speaking_rate a' = Some r /\ float_gt_0 r = true)
  /\ (Namespace.batched a' = true -> (0 < Namespace.batch_size a')%Z)
  /\ (Namespace.checkpoint_path a' = None ->
      Namespace.model a' = "matcha_vctk" ->
      exists s v, Namespace.spk a' = Some s /\ (0 <= s <= 107)%Z
                  /\ Namespace.vocoder a' = Some v)
  /\ (Namespace.checkpoint_path a' = None ->
      Namespace.model a' = "matcha_ljspeech" ->
      Namespace.spk a' = None
      /\ exists v, Namespace.vocoder a' = Some v).
Proof.
  intros H. apply validate_args_outcome in H.
  destruct H as (v & r & s & -> & _ & Htext & Htemp & Hsteps & Hbatch & Hgt
                 & _ & _ & _ & _ & Hlj & Hvctk).
  cbn [Namespace.set_spk Namespace.set_speaking_rate Namespace.set_vocoder
       Namespace.model Namespace.checkpoint_path Namespace.vocoder
       Namespace.text Namespace.file Namespace.spk Namespace.temperature
       Namespace.speaking_rate Namespace.steps Namespace.batched
       Namespace.batch_size].
  split; [ exact Htext | ].
  split; [ exact Htemp | ].
  split; [ exact Hsteps | ].
  split; [ exists r; auto | ].
  split; [ exact Hbatch | ].
  split.
  - intros Hc Hm.
    destruct (Hvctk Hc Hm) as [(v' & -> & _) (s0 & -> & Hrange)].
    exists s0, v'. auto.
  - intros Hc Hm. destruct (Hlj Hc Hm) as [-> (v' & -> & _)].
    split; [ reflexivity | now exists v' ].
Qed.

Example validate_vctk_args :
  validate_args vctk_args [] = (vctk_warnings, inr vctk_args_validated).
Proof. reflexivity. Qed.

Lemma validate_args_postconditions_witness :
  (truthy (Namespace.text vctk_args_validated)
   || truthy (Namespace.file vctk_args_validated) = true)
  /\ float_ge_0 (Namespace.temperature vctk_args_validated) = true
  /\ (0 < Namespace.steps vctk_args_validated)%Z
  /\ (exists r, Namespace.speaking_rate vctk_args_validated = Some r
                /\ float_gt_0 r = true)
  /\ (Namespace.batched vctk_args_validated = true ->
      (0 < Namespace.batch_size vctk_args_validated)%Z)
  /\ (Namespace.checkpoint_path vctk_args_validated = None ->
      Namespace.model vctk_args_validated = "matcha_vctk" ->
      exists s v, Namespace.spk vctk_args_validated = Some s
                  /\ (0 <= s <= 107)%Z
                  /\ Namespace.vocoder vctk_args_validated = Some v)
  /\ (Namespace.checkpoint_path vctk_args_validated = None ->
      Namespace.model vctk_args_validated = "matcha_ljspeech" ->
      Namespace.spk vctk_args_validated = None
      /\ exists v, Namespace.vocoder vctk_args_validated = Some v).
Proof.
  apply (validate_args_postconditions vctk_args vctk_args_validated
           [] vctk_warnings).
  reflexivity.
Defined.

(** X10.  [validate_args] only fills in what was left open.  Of the
    arguments that pass, it changes nothing but the vocoder, the speaking
    rate and the speaker id; a vocoder or a speaking rate that was given
    is kept; a speaker id that was given is kept too, except for the
    pretrained single-speaker model, where it is dropped.  No warning
    issued before is lost. *)
Theorem validate_args_keeps_what_was_given (a a' : Namespace.t)
  (ws ws' : list string) :
  validate_args a ws = (ws', inr a') ->
  (Namespace.model a' = Namespace.model a
   /\ Namespace.checkpoint_path a' = Namespace.checkpoint_path a
   /\ Namespace.text a' = Namespace.text a
   /\ Namespace.file a' = Namespace.file a
   /\ Namespace.temperature a' = Namespace.temperature a
   /\ Namespace.steps a' = Namespace.steps a
   /\ Namespace.cpu a' = Namespace.cpu a
   /\ Namespace.denoiser_strength a' = Namespace.denoiser_strength a
   /\ Namespace.output_folder a' = Namespace.output_folder a
   /\ Namespace.batched a' = Namespace.batched a
   /\ Namespace.batch_size a' = Namespace.batch_size a)
  /\ (forall v, Namespace.vocoder a = Some v -> Namespace.vocoder a' = Some v)
  /\ (forall r, Namespace.speaking_rate a = Some r ->
                Namespace.speaking_rate a' = Some r)
  /\ (forall s, Namespace.spk a = Some s ->
                Namespace.spk a' = Some s
                \/ (Namespace.checkpoint_path a = None
                    /\ Namespace.model a = "matcha_ljspeech"
                    /\ Namespace.spk a' = None))
  /\ (exists new : list string, ws' = ws ++ new).
Proof.
  intros H. apply validate_args_outcome in H.
  destruct H as (v & r & s & -> & Hext & _ & _ & _ & _ & _
                 & Hv & Hr & Hs & _).
  cbn [Namespace.set_spk Namespace.set_speaking_rate Namespace.set_vocoder
       Namespace.model Namespace.checkpoint_path Namespace.vocoder
       Namespace.text Namespace.file Namespace.spk Namespace.temperature
       Namespace.speaking_rate Namespace.steps Namespace.cpu
       Namespace.denoiser_strength Namespace.output_folder
       Namespace.batched Namespace.batch_size].
  split; [ repeat split | ].
  split; [ exact Hv | ].
  split; [ intros r0 Hr0; now rewrite (Hr r0 Hr0) | ].
  split; [ exact Hs | exact Hext ].
Qed.

Lemma validate_args_keeps_what_was_given_witness :
  (Namespace.model vctk_args_validated = Namespace.model vctk_args
   /\ Namespace.checkpoint_path vctk_args_validated
      = Namespace.checkpoint_path vctk_args
   /\ Namespace.text vctk_args_validated = Namespace.text vctk_args
   /\ Namespace.file vctk_args_validated = Namespace.file vctk_args
   /\ Namespace.temperature vctk_args_validated
      = Namespace.temperature vctk_args
   /\ Namespace.steps vctk_args_validated = Namespace.steps vctk_args
   /\ Namespace.cpu vctk_args_validated = Namespace.cpu vctk_args
   /\ Namespace.denoiser_strength vctk_args_validated
      = Namespace.denoiser_strength vctk_args
   /\ Namespace.output_folder vctk_args_validated
      = Namespace.output_folder vctk_args
   /\ Namespace.batched vctk_args_validated = Namespace.batched vctk_args
   /\ Namespace.batch_size vctk_args_validated
      = Namespace.batch_size vctk_args)
  /\ (forall v, Namespace.vocoder vctk_args = Some v ->
                Namespace.vocoder vctk_args_validated = Some v)
  /\ (forall r, Namespace.speaking_rate vctk_args = Some r ->
                Namespace.speaking_rate vctk_args_validated = Some r)
  /\ (forall s, Namespace.spk vctk_args = Some s ->
                Namespace.spk vctk_args_validated = Some s
                \/ (Namespace.checkpoint_path vctk_args = None
                    /\ Namespace.model vctk_args = "matcha_ljspeech"
                    /\ Namespace.spk vctk_args_validated = None))
  /\ (exists new : list string, vctk_warnings = [] ++ new).
Proof.
  apply (validate_args_keeps_what_was_given vctk_args vctk_args_validated
           [] vctk_warnings).
  reflexivity.
Defined.

(** X11.  Validating twice is validating once: arguments that came out of
    [validate_args] pass it again and come out unchanged. *)
Theorem validate_args_idempotent (a a1 : Namespace.t) (ws ws1 : list string) :
  validate_args a ws = (ws1, inr a1) ->
  exists ws2 : list string, validate_args a1 ws1 = (ws2, inr a1).
Proof.
  intros H. apply validate_args_outcome in H.
  destruct H as (v & r & s & -> & _ & Htext & Htemp & Hsteps & Hbatch & Hgt
                 & _ & _ & _ & _ & Hlj & Hvctk).
  apply (validate_args_filled _ ws1 r);
    cbn [Namespace.set_spk Namespace.set_speaking_rate Namespace.set_vocoder
         Namespace.model Namespace.checkpoint_path Namespace.vocoder
         Namespace.text Namespace.file Namespace.spk Namespace.temperature
         Namespace.speaking_rate Namespace.steps Namespace.batched
         Namespace.batch_size];
    try assumption; try reflexivity.
  - intros Hc Hm.
    destruct (Hvctk Hc Hm) as [(v' & -> & _) (s0 & -> & Hrange)].
    exists s0, v'. auto.
  - intros Hc Hm. destruct (Hlj Hc Hm) as [-> (v' & -> & _)].
    split; [ reflexivity | now exists v' ].
Qed.

Lemma validate_args_idempotent_witness :
  exists ws2 : list string,
    validate_args vctk_args_validated vctk_warnings
    = (ws2, inr vctk_args_validated).
Proof.
  apply (validate_args_idempotent vctk_args vctk_args_validated
           [] vctk_warnings).
  reflexivity.
Defined.

(** ** cli.py: assert_required_models_available *)

(** X12.  A custom checkpoint without [--vocoder] passes [validate_args]
    with a warning only, and the vocoder stays unset; the next step,
    [assert_required_models_available], then checks the pretrained model
    named by [--model] all the same and fails with KeyError(None) when it
    looks the vocoder up. *)
Theorem custom_checkpoint_needs_a_vocoder (store : model_store)
  (a a' : Namespace.t) (ws ws' : list string)
  (checkpoint url : string) (checks : list (string * string)) :
  Namespace.checkpoint_path a = Some checkpoint ->
  Namespace.vocoder a = None ->
  validate_args a ws = (ws', inr a') ->
  dict_get MATCHA_URLS (Namespace.model a) = inr url ->
  download_check store
    (path_join store (get_user_data_dir store)
       (Namespace.model a ++ ".ckpt")%string)
    url = None ->
  ws' = ws ++ [custom_warning]
  /\ Namespace.vocoder a' = None
  /\ assert_required_models_available store a' checks
     = (checks
          ++ [(path_join store (get_user_data_dir store)
                 (Namespace.model a ++ ".ckpt")%string, url)],
        inl (KeyError None)).
Proof.
  intros Hc Hv H Hurl Hcheck. apply validate_args_outcome in H.
  destruct H as (v & r & s & -> & _ & _ & _ & _ & _ & _
                 & _ & _ & _ & Hcustom & _).
  destruct (Hcustom checkpoint Hc) as (-> & -> & Hws).
  split; [ exact (Hws Hv) | ].
  cbn [Namespace.set_spk Namespace.set_speaking_rate Namespace.set_vocoder
       Namespace.vocoder].
  split; [ exact Hv | ].
  unfold assert_required_models_available.
  cbn [Namespace.set_spk Namespace.set_speaking_rate Namespace.set_vocoder
       Namespace.model Namespace.checkpoint_path Namespace.vocoder
       negb andb].
  unfold and_then, pure, assert_model_downloaded.
  rewrite Hurl, Hcheck, Hv. reflexivity.
Qed.

Lemma custom_checkpoint_needs_a_vocoder_witness :
  [custom_warning] = [] ++ [custom_warning]
  /\ Namespace.vocoder
       (Namespace.set_speaking_rate custom_args (Some float_1_0)) = None
  /\ assert_required_models_available full_store
       (Namespace.set_speaking_rate custom_args (Some float_1_0)) []
     = ([]
          ++ [(path_join full_store (get_user_data_dir full_store)
                 (Namespace.model custom_args ++ ".ckpt")%string,
               "https://github.com/shivammehta25/Matcha-TTS-checkpoints/releases/download/v1.0/matcha_ljspeech.ckpt")],
        inl (KeyError None)).
Proof.
  apply (custom_checkpoint_needs_a_vocoder full_store custom_args
           (Namespace.set_speaking_rate custom_args (Some float_1_0))
           [] [custom_warning] "mine.ckpt").
  - reflexivity.
  - reflexivity.
  - reflexivity.
  - reflexivity.
  - reflexivity.
Defined.

Lemma custom_needs_vocoder_example :
  validate_args custom_args []
  = ([custom_warning],
     inr (Namespace.set_speaking_rate custom_args (Some float_1_0))).
Proof. reflexivity. Qed.

(** ** SSLFeatureExtractor *)

Lemma ssl_forward_one_axis (self : SSLFeatureExtractor.t) (wav : tensor)
  (w : world) (name : string) (rest : list string) :
  List.length (tensor_shape wav) = 1 ->
  input_names (SSLFeatureExtractor.model self) = name :: rest ->
  SSLFeatureExtractor.forward self wav w =
  let feats := tensor_expand_dims0 (tensor_expand_dims0 wav) in
  (log_event (OrtRun (session_path (SSLFeatureExtractor.model self)) None
                [(name, feats)]) w,
   match session_run (SSLFeatureExtractor.model self) None [(name, feats)] with
   | inl e => inl (Raised e)
   | inr outputs =>
       match list_item outputs 0 with
       | inl e => inl (Raised e)
       | inr logits =>
           match tensor_transpose_021 logits with
           | inl e => inl (Raised e)
           | inr features => inr features
           end
       end
   end).
Proof.
  intros Hdim Hnames.
  unfold SSLFeatureExtractor.forward. rewrite Hdim. cbn [Nat.eqb].
  rewrite Hdim. cbn [Nat.eqb].
  unfold and_then, assert_, pure, raised, lift, input_name, list_item, run.
  rewrite Hnames. cbn [nth_error dict_literal fold_left dict_set fst snd].
  destruct (session_run _ _ _) as [e | outputs]; [ reflexivity | ].
  destruct outputs as [ | logits more ]; [ reflexivity | ].
  destruct (tensor_transpose_021 logits); reflexivity.
Qed.

Lemma transposed_entry (logits : ndarray R) (D Fr : nat) :
  shape logits = [1; D; Fr] -> well_formed logits ->
  exists features : ndarray R,
    np_transpose_021 logits = inr features
    /\ shape features = [1; Fr; D]
    /\ well_formed features
    /\ forall f d, f < Fr -> d < D ->
         exists x, get3 logits 0 d f = Some x
                   /\ get3 features 0 f d = Some x.
Proof.
  intros Hs Hwf. unfold well_formed in Hwf. rewrite Hs in Hwf.
  cbn [numel fold_right] in Hwf.
  assert (Hlen : List.length (data logits) = D * Fr) by lia.
  unfold np_transpose_021. rewrite Hs. cbn [seq flat_map].
  rewrite app_nil_r. eexists. split; [ reflexivity | ].
  split; [ reflexivity | ].
  split.
  { unfold well_formed. cbn [shape data numel fold_right].
    rewrite (transposed_length _ D Fr Hlen). lia. }
  intros f d Hf Hd.
  rewrite (get3_batch_of_one logits D Fr) by assumption.
  rewrite (get3_batch_of_one _ Fr D) by (try reflexivity; assumption).
  cbn [data].
  rewrite (transposed_nth_error _ D Fr f d Hlen Hf Hd).
  destruct (nth_error (data logits) (d * Fr + f)) as [x | ] eqn:E.
  - exists x. split; reflexivity.
  - apply nth_error_None in E. nia.
Qed.

(** X13.  On a one-dimensional float32 signal of N samples,
    [SSLFeatureExtractor.forward] calls the session once, with the
    samples as an array of shape [1, 1, N] under the name of the first
    declared input, and hands back the first output with depth and time
    exchanged: logits of shape [1, D, F] come back as features of shape
    [1, F, D] with features[0, f, d] = logits[0, d, f]. *)
Theorem ssl_forward_mono (self : SSLFeatureExtractor.t) (wav logits : ndarray R)
  (w : world) (name : string) (rest : list string) (more : list tensor)
  (N D Fr : nat) :
  shape wav = [N] ->
  input_names (SSLFeatureExtractor.model self) = name :: rest ->
  session_run (SSLFeatureExtractor.model self) None
    [(name, Float32 (mk_ndarray [1; 1; N] (data wav)))]
  = inr (Float32 logits :: more) ->
  shape logits = [1; D; Fr] -> well_formed logits ->
  exists features : ndarray R,
    SSLFeatureExtractor.forward self (Float32 wav) w
    = (log_event
         (OrtRun (session_path (SSLFeatureExtractor.model self)) None
            [(name, Float32 (mk_ndarray [1; 1; N] (data wav)))]) w,
       inr (Float32 features))
    /\ shape features = [1; Fr; D]
    /\ well_formed features
    /\ forall f d, f < Fr -> d < D ->
         exists x, get3 logits 0 d f = Some x
                   /\ get3 features 0 f d = Some x.
Proof.
  intros Hs Hnames Hrun Hsl Hwf.
  destruct (transposed_entry logits D Fr Hsl Hwf)
    as [features [Htr [Hsf [Hwff Hget]]]].
  exists features.
  split; [ | split; [ exact Hsf | split; [ exact Hwff | exact Hget ] ] ].
  rewrite (ssl_forward_one_axis self (Float32 wav) w name rest)
    by (try exact Hnames; cbn [tensor_shape]; now rewrite Hs).
  cbv zeta. unfold tensor_expand_dims0, np_expand_dims0.
  cbn [shape data]. rewrite Hs, Hrun.
  cbn [list_item nth_error tensor_transpose_021]. now rewrite Htr.
Qed.

Lemma ssl_forward_mono_witness :
  exists features : ndarray R,
    SSLFeatureExtractor.forward
      {| SSLFeatureExtractor.model := fixed_feature_model small_logits |}
      (Float32 mono_signal) empty_world
    = (log_event
         (OrtRun "vec.onnx" None
            [("source", Float32 (mk_ndarray [1; 1; 3] (data mono_signal)))])
         empty_world,
       inr (Float32 features))
    /\ shape features = [1; 3; 2]
    /\ well_formed features
    /\ forall f d, f < 3 -> d < 2 ->
         exists x, get3 small_logits 0 d f = Some x
                   /\ get3 features 0 f d = Some x.
Proof.
  apply (ssl_forward_mono
           {| SSLFeatureExtractor.model := fixed_feature_model small_logits |}
           mono_signal small_logits empty_world "source" [] [] 3 2 3).
  - reflexivity.
  - reflexivity.
  - reflexivity.
  - reflexivity.
  - reflexivity.
Defined.

Lemma row_means_of_pairs (pairs : list (R * R)) :
  row_means 2 (List.length pairs)
    (flat_map (fun p => [fst p; snd p]) pairs)
  = map (fun p => ((fst p + snd p) / 2)%R) pairs.
Proof.
  induction pairs as [ | p pairs IH ]; [ reflexivity | ].
  cbn [List.length row_means flat_map app firstn skipn fold_right map INR].
  rewrite IH. f_equal. lra.
Qed.

(** X14.  A two-channel float32 signal is mixed down before the session
    sees it: for N sample pairs (l, r), [forward] feeds the array of
    shape [1, 1, N] that holds (l + r) / 2 for each pair, and so does
    exactly what it does on that mono signal. *)
Theorem ssl_forward_downmix (self : SSLFeatureExtractor.t)
  (pairs : list (R * R)) (w : world) :
  SSLFeatureExtractor.forward self
    (Float32 (mk_ndarray [List.length pairs; 2]
                (flat_map (fun p => [fst p; snd p]) pairs))) w
  = SSLFeatureExtractor.forward self
      (Float32 (mk_ndarray [List.length pairs]
                  (map (fun p => ((fst p + snd p) / 2)%R) pairs))) w.
Proof.
  unfold SSLFeatureExtractor.forward.
  cbn [tensor_shape shape List.length Nat.eqb tensor_mean_last].
  unfold np_mean_last.
  cbn [shape data last removelast numel fold_right].
  rewrite Nat.mul_1_r, row_means_of_pairs. reflexivity.
Qed.

(** X15.  [SSLFeatureExtractor] turns away what it cannot use before it
    touches onnxruntime: constructed with a device other than "cpu" or
    None it raises RuntimeError("Unsportted Device") and loads nothing,
    and [forward] on an array that has neither one nor two axes fails
    with an AssertionError that carries the number of axes, without
    running the session. *)
Theorem ssl_rejects (env : environment) (vec_path : string)
  (self : SSLFeatureExtractor.t) (wav : tensor) (w : world) :
  (forall d : string,
     d <> "cpu" ->
     SSLFeatureExtractor.init env vec_path (Some d) w
     = (w, inl (RuntimeError "Unsportted Device")))
  /\ (List.length (tensor_shape wav) <> 1 ->
      List.length (tensor_shape wav) <> 2 ->
      SSLFeatureExtractor.forward self wav w
      = (w, inl (AssertionError
                   (Number (Z.of_nat (List.length (tensor_shape wav))))))).
Proof.
  split.
  - intros d Hd. apply String.eqb_neq in Hd.
    unfold SSLFeatureExtractor.init, bind, raise. now rewrite Hd.
  - intros H1 H2. apply Nat.eqb_neq in H1. apply Nat.eqb_neq in H2.
    unfold SSLFeatureExtractor.forward. rewrite H2.
    unfold and_then, assert_, fail. now rewrite H1.
Qed.

Lemma ssl_rejects_witness :
  SSLFeatureExtractor.forward
    {| SSLFeatureExtractor.model := fixed_feature_model small_logits |}
    (Float32 cube_signal) empty_world
  = (empty_world, inl (AssertionError (Number 3))).
Proof.
  apply (proj2 (ssl_rejects (env_with (fixed_feature_model small_logits))
                  "vec.onnx"
                  {| SSLFeatureExtractor.model :=
                       fixed_feature_model small_logits |}
                  (Float32 cube_signal) empty_world)).
  - cbn. lia.
  - cbn. lia.
Defined.

(** ** cli.py: the tables of pretrained models *)

(** X16.  The tables agree with each other.  For a pretrained model and
    no [--vocoder], the vocoder that [validate_args] fills in has a
    download address, and so has the model: when both files are there,
    [assert_required_models_available] checks exactly these two and
    returns their paths. *)
Theorem pretrained_models_have_urls (store : model_store)
  (a a' : Namespace.t) (ws ws' : list string)
  (checks : list (string * string)) :
  validate_args a ws = (ws', inr a') ->
  Namespace.checkpoint_path a = None ->
  Namespace.vocoder a = None ->
  Namespace.model a = "matcha_vctk" \/ Namespace.model a = "matcha_ljspeech" ->
  (forall path url, download_check store path url = None) ->
  exists (v model_url vocoder_url : string),
    Namespace.vocoder a' = Some v
    /\ dict_get MATCHA_URLS (Namespace.model a) = inr model_url
    /\ dict_get VOCODER_URLS v = inr vocoder_url
    /\ assert_required_models_available store a' checks
       = ((checks
             ++ [(path_join store (get_user_data_dir store)
                    (Namespace.model a ++ ".ckpt")%string, model_url)])
            ++ [(path_join store (get_user_data_dir store) v, vocoder_url)],
          inr [("matcha",
                Some (path_join store (get_user_data_dir store)
                        (Namespace.model a ++ ".ckpt")%string));
               ("vocoder",
                Some (path_join store (get_user_data_dir store) v))]).
Proof.
  intros H Hc Hv Hm Hstore. apply validate_args_outcome in H.
  destruct H as (v & r & s & -> & _ & _ & _ & _ & _ & _
                 & _ & _ & _ & _ & Hlj & Hvctk).
  assert (Hv' : exists v', v = Some v'
                           /\ exists url, dict_get VOCODER_URLS v' = inr url).
  { destruct Hm as [Hm | Hm].
    - destruct (Hvctk Hc Hm) as [(v' & -> & Hdefault) _].
      exists v'. rewrite (Hdefault Hv). split; [ reflexivity | ].
      eexists. reflexivity.
    - destruct (Hlj Hc Hm) as [_ (v' & -> & Hdefault)].
      exists v'. rewrite (Hdefault Hv). split; [ reflexivity | ].
      eexists. reflexivity. }
  destruct Hv' as (v' & -> & vocoder_url & Hvocoder).
  assert (Hmodel : exists url,
             dict_get MATCHA_URLS (Namespace.model a) = inr url).
  { destruct Hm as [-> | ->]; eexists; reflexivity. }
  destruct Hmodel as (model_url & Hmodel).
  exists v', model_url, vocoder_url.
  split; [ reflexivity | ].
  split; [ exact Hmodel | ].
  split; [ exact Hvocoder | ].
  unfold assert_required_models_available.
  cbn [Namespace.set_spk Namespace.set_speaking_rate Namespace.set_vocoder
       Namespace.model Namespace.checkpoint_path Namespace.vocoder
       negb andb dict_get_opt show_opt].
  unfold and_then, pure, assert_model_downloaded.
  rewrite Hmodel, Hvocoder, !Hstore. reflexivity.
Qed.

Lemma pretrained_models_have_urls_witness :
  exists (v model_url vocoder_url : string),
    Namespace.vocoder vctk_args_validated = Some v
    /\ dict_get MATCHA_URLS (Namespace.model vctk_args) = inr model_url
    /\ dict_get VOCODER_URLS v = inr vocoder_url
    /\ assert_required_models_available full_store vctk_args_validated []
       = (([]
             ++ [(path_join full_store (get_user_data_dir full_store)
                    (Namespace.model vctk_args ++ ".ckpt")%string,
                  model_url)])
            ++ [(path_join full_store (get_user_data_dir full_store) v,
                 vocoder_url)],
          inr [("matcha",
                Some (path_join full_store (get_user_data_dir full_store)
                        (Namespace.model vctk_args ++ ".ckpt")%string));
               ("vocoder",
                Some (path_join full_store (get_user_data_dir full_store)
                        v))]).
Proof.
  apply (pretrained_models_have_urls full_store vctk_args vctk_args_validated
           [] vctk_warnings []).
  - reflexivity.
  - reflexivity.
  - reflexivity.
  - left. reflexivity.
  - reflexivity.
Defined.
